(** * The coordinator orchestration engine of the agents team

    A shallow embedding of [agents/base/Agent.js] and
    [agents/lil_Boss_CEO/index.js]: the worker registry, the skill-based
    selection, the task ledger with its lifecycle, the performance metrics,
    the aggregation of results and the system-health score.  Around them,
    the housekeeping and the reports of an agent, the statistics of the
    coordinator, the handlers of the API gateway that call the coordinator,
    and the dialogue by which [telegram_bot/bot.js] submits a task.

    Conventions of the embedding.
    - An [async] method is split where it can be suspended.  [f_begin]
      runs the method up to the await of the completion service inside
      [processTask]; [f_settle] is the continuation of [processTask];
      [f_resume] is the continuation of the method that awaited
      [processTask].  In between the call is a [Pending] value holding what
      the JavaScript closure holds.  The method run without interleaving is
      [f] itself.
    - What the environment decides is an argument: the generated task id,
      every reading of the clock, and what the completion service answers.
    - JavaScript numbers are rationals: integers are [Z], the quotients of
      the metrics and of the health score are [Q].  The ledger keeps them
      exact; where the value of a quotient is at stake, [double] rounds
      every operation to the nearest binary64 number as the engine does,
      and [successRate_double] and [calculateSystemHealth_double] are the
      rate and the score so computed.  Dates are their time value in
      milliseconds; clock readings lie well inside the range of valid
      dates, so that a reading plus a deadline offset is a valid date.
    - [String.prototype.toLowerCase] is a parameter of the development;
      nothing depends on how it maps code units.
    - An agent object is reached through its name in [teamAgents].  The
      [collaborators] maps and the unused [taskQueue] are left out. *)

From Stdlib Require Import ZArith QArith Qround Qpower Qminmax String Ascii List Bool Lia Lqa
  Permutation Sorted.
From stdpp Require Import base option gmap strings pretty.
Import ListNotations.

Local Open Scope string_scope.
Local Open Scope Z_scope.

(** ** ECMAScript values the code relies on *)

(** A completion: the call returns a value or throws an error with a message. *)
Inductive Completion (A : Type) : Type :=
| Normal (a : A)
| Throw (message : string).
Arguments Normal {A} a.
Arguments Throw {A} message.

(** The names every object literal inherits from [Object.prototype]. *)
Definition objectPrototypeNames : list string :=
  [ "constructor"; "hasOwnProperty"; "isPrototypeOf"; "propertyIsEnumerable";
    "toLocaleString"; "toString"; "valueOf"; "__proto__";
    "__defineGetter__"; "__defineSetter__"; "__lookupGetter__"; "__lookupSetter__" ].

Definition inheritedName (key : string) : bool :=
  existsb (String.eqb key) objectPrototypeNames.

(** The value of [literal[key]] for an object literal with numeric own
    properties: an own number, a member found on the prototype (a function
    or an object, always truthy and never a number), or [undefined]. *)
Inductive Member : Type :=
| OwnNumber (n : Z)
| InheritedMember
| Undefined.

Fixpoint ownProperty (own : list (string * Z)) (key : string) : option Z :=
  match own with
  | [] => None
  | (k, v) :: rest => if String.eqb k key then Some v else ownProperty rest key
  end.

Definition getMember (own : list (string * Z)) (key : string) : Member :=
  match ownProperty own key with
  | Some n => OwnNumber n
  | None => if inheritedName key then InheritedMember else Undefined
  end.

(** A number, or a value that is not a number and converts to [NaN]. *)
Inductive JsValue : Type :=
| Num (n : Z)
| NonNumeric.

(** [member || fallback] with a numeric fallback: the number 0 and
    [undefined] are falsy, everything else is kept. *)
Definition orElse (m : Member) (fallback : Z) : JsValue :=
  match m with
  | OwnNumber n => if n =? 0 then Num fallback else Num n
  | InheritedMember => NonNumeric
  | Undefined => Num fallback
  end.

(** [score + v] for a number [score]: a sum of numbers, or the
    concatenation of [score] with the source text of a member, a string
    that converts to [NaN]. *)
Definition plus (score : Z) (v : JsValue) : JsValue :=
  match v with
  | Num n => Num (score + n)
  | NonNumeric => NonNumeric
  end.

(** [String.prototype.includes]. *)
Fixpoint includes (s search : string) : bool :=
  if String.prefix search s then true
  else match s with
       | EmptyString => false
       | String _ rest => includes rest search
       end.

(** [[...new Set(xs)]]: the distinct elements in order of first occurrence. *)
Fixpoint distinct (seen xs : list string) : list string :=
  match xs with
  | [] => []
  | x :: rest =>
      if existsb (String.eqb x) seen then distinct seen rest
      else x :: distinct (x :: seen) rest
  end.

(** [toLowerCase] on the code units of ASCII, for the concrete runs. *)
Definition lowerAscii (ch : ascii) : ascii :=
  let n := nat_of_ascii ch in
  if (Nat.leb 65 n && Nat.leb n 90)%bool then ascii_of_nat (n + 32) else ch.

Fixpoint asciiToLowerCase (s : string) : string :=
  match s with
  | EmptyString => EmptyString
  | String ch rest => String (lowerAscii ch) (asciiToLowerCase rest)
  end.

(** A [Date]: a time value, or the invalid date built from [NaN]. *)
Inductive Date : Type :=
| Time (ms : Z)
| InvalidDate.

(** ** Agent.js *)

Inductive AgentStatus : Type := idle | busy | offline.

Definition isIdle (s : AgentStatus) : bool :=
  match s with idle => true | _ => false end.

Inductive LocalStatus : Type := processing | localCompleted | localFailed.

(** The [context] argument of [processTask], as the coordinator builds it. *)
Inductive TaskContext : Type :=
| AssignmentContext (priority assignedBy : string) (deadline : Date)
| AggregationContext (source_tasks : list string).

(** An entry of [currentTasks]. *)
Record LocalTask : Type := mkLocalTask {
  lt_description : string;
  lt_startTime : Z;
  lt_status : LocalStatus;
  lt_context : TaskContext;
  lt_result : option string;
  lt_error : option string;
  lt_completionTime : option Z
}.

Record Agent : Type := mkAgent {
  name : string;
  role : string;
  specialKnowledge : list string;
  currentTasks : gmap string LocalTask;
  status : AgentStatus
}.

(** [new Agent(name, role, specialKnowledge)]. *)
Definition newAgent (n r : string) (skills : list string) : Agent :=
  mkAgent n r skills ∅ idle.

(** What [await this.claude.messages.create(...)] followed by
    [response.content[0].text] does: it yields the text, or an exception
    reaches the [catch] block.  The caught value is an object, whose
    [message] may be undefined, or it is [null] or [undefined] itself. *)
Inductive Caught : Type :=
| ErrorObject (message : option string)
| Nullish.

Inductive ServiceOutcome : Type :=
| Resolved (text : string)
| Rejected (e : Caught).

(** The value [processTask] returns. *)
Record ProcessResult : Type := mkProcessResult {
  pr_success : bool;
  pr_result : option string;
  pr_error : option string;
  pr_agent : string;
  pr_taskId : string
}.

(** The message of the [TypeError] raised by reading [error.message] of
    [undefined]; the message for [null] names [null] in its place, and
    the one text stands for both here. *)
Definition nullishMessageError : string :=
  "Cannot read properties of undefined (reading 'message')".

(** [processTask] up to its await: the agent turns busy and records the task. *)
Definition processTask_begin (taskId taskDescription : string) (context : TaskContext)
    (startTime : Z) (a : Agent) : Agent :=
  mkAgent (name a) (role a) (specialKnowledge a)
    (<[taskId := mkLocalTask taskDescription startTime processing context None None None]>
       (currentTasks a))
    busy.

Definition setStatus (s : AgentStatus) (a : Agent) : Agent :=
  mkAgent (name a) (role a) (specialKnowledge a) (currentTasks a) s.

Definition updateLocal (taskId : string) (f : LocalTask -> LocalTask) (a : Agent) : Agent :=
  mkAgent (name a) (role a) (specialKnowledge a)
    (alter f taskId (currentTasks a)) (status a).

(** [processTask] after its await.  On a text the local entry is completed
    and the agent is idle again.  On a caught error object the local entry,
    if still there, is failed, the agent is idle again, and a failed result
    is returned.  On a caught nullish value the [catch] block marks the local
    entry failed and then throws while reading [error.message]: the agent
    stays busy. *)
Definition processTask_resume (taskId : string) (outcome : ServiceOutcome)
    (completionTime : Z) (a : Agent) : Completion ProcessResult * Agent :=
  match outcome with
  | Resolved text =>
      match currentTasks a !! taskId with
      | Some _ =>
          let a1 := updateLocal taskId (fun t =>
            mkLocalTask (lt_description t) (lt_startTime t) localCompleted (lt_context t)
              (Some text) (lt_error t) (Some completionTime)) a in
          (Normal (mkProcessResult true (Some text) None (name a) taskId), setStatus idle a1)
      | None =>
          (* [task.status = ...] on undefined throws inside the [try] *)
          (Normal (mkProcessResult false None
                     (Some "Cannot set properties of undefined (setting 'status')")
                     (name a) taskId),
           setStatus idle a)
      end
  | Rejected (ErrorObject message) =>
      let a1 := updateLocal taskId (fun t =>
        mkLocalTask (lt_description t) (lt_startTime t) localFailed (lt_context t)
          (lt_result t) message (Some completionTime)) a in
      (Normal (mkProcessResult false None message (name a) taskId), setStatus idle a1)
  | Rejected Nullish =>
      match currentTasks a !! taskId with
      | Some _ =>
          let a1 := updateLocal taskId (fun t =>
            mkLocalTask (lt_description t) (lt_startTime t) localFailed (lt_context t)
              (lt_result t) (lt_error t) (lt_completionTime t)) a in
          (Throw nullishMessageError, a1)
      | None =>
          (Throw nullishMessageError, setStatus idle a)
      end
  end.

(** ** lil_Boss_CEO/index.js: the data *)

Inductive TaskStatus : Type := assigned | completed | failed.

(** A task record, with the properties it gains when it ends. *)
Record Task : Type := mkTask {
  task_id : string;
  task_description : string;
  task_priority : string;
  task_requiredSkills : list string;
  task_assignedAgent : string;
  task_assignedAt : Z;
  task_status : TaskStatus;
  task_progress : Z;
  task_completedAt : option Z;
  task_result : option ProcessResult;
  task_error : option string
}.

(** [averageCompletionTime] is a quotient of a sum of date differences; a
    difference with an undefined [completedAt] is [NaN]. *)
Inductive Average : Type :=
| Minutes (q : Q)
| NaN.

Record Metrics : Type := mkMetrics {
  tasksCompleted : Z;
  tasksAssigned : Z;
  averageCompletionTime : Average;
  successRate : Q
}.

(** The coordinator: its own agent fields, the [teamAgents] map in
    insertion order (one entry per name), the [activeTasks] map, the
    [taskHistory] array and the metrics. *)
Record CEO : Type := mkCEO {
  self : Agent;
  teamAgents : list Agent;
  activeTasks : gmap string Task;
  taskHistory : list Task;
  performanceMetrics : Metrics
}.

(** [new CEOAgent()]. *)
Definition newCEO : CEO :=
  mkCEO
    (newAgent "lil_Boss_CEO" "CEO"
       [ "Strategic Planning"; "Team Coordination"; "Task Delegation";
         "Performance Monitoring"; "Executive Decision Making"; "Resource Allocation" ])
    [] ∅ [] (mkMetrics 0 0 (Minutes 0) 0).

(** [Map.prototype.set] on [teamAgents], keyed by the agent's name: an
    existing key keeps its place, a new key goes last. *)
Fixpoint mapSet (agent : Agent) (m : list Agent) : list Agent :=
  match m with
  | [] => [agent]
  | b :: rest =>
      if String.eqb (name b) (name agent) then agent :: rest
      else b :: mapSet agent rest
  end.

Definition registerTeamAgent (agent : Agent) (c : CEO) : CEO :=
  mkCEO (self c) (mapSet agent (teamAgents c)) (activeTasks c) (taskHistory c)
    (performanceMetrics c).

(** The agent object registered under a name, and its mutation in place. *)
Definition getAgent (n : string) (m : list Agent) : option Agent :=
  List.find (fun b => String.eqb (name b) n) m.

Definition updateAgent (n : string) (f : Agent -> Agent) (m : list Agent) : list Agent :=
  List.map (fun b => if String.eqb (name b) n then f b else b) m.

(** The outcome of the part of an async method that runs before its await:
    it threw, it returned without awaiting, or it is suspended on the
    completion service. *)
Inductive Step (R P : Type) : Type :=
| Thrown (message : string)
| Returned (r : R) (c : CEO)
| Suspended (p : P) (c : CEO).
Arguments Thrown {R P} message.
Arguments Returned {R P} r c.
Arguments Suspended {R P} p c.

(** The object [assignTask] returns; absent properties are [None]. *)
Record SubmitResult : Type := mkSubmitResult {
  sr_success : bool;
  sr_taskId : option string;
  sr_assignedAgent : option string;
  sr_result : option string;
  sr_error : option string
}.

(** What a suspended [assignTask] holds: the task and the selected agent of
    its closure and, once [assignedAgent.processTask] has settled, what it
    settled with. *)
Record PendingTask : Type := mkPendingTask {
  pt_task : Task;
  pt_agent : Agent;
  pt_settled : option (Completion ProcessResult)
}.

(** The environment of [assignTask]: before the await the generated id and
    three clock readings, after it the service's answer and two readings. *)
Record BeginEnv : Type := mkBeginEnv {
  env_taskId : string;
  env_assignedAt : Z;
  env_deadlineNow : Z;
  env_startTime : Z
}.

Record ResumeEnv : Type := mkResumeEnv {
  env_outcome : ServiceOutcome;
  env_completionTime : Z;
  env_completedAt : Z
}.

(** The result of [getTaskStatus]: the properties of the task are spread
    last, so the reported status is the task's own. *)
Inductive StatusReport : Type :=
| TaskFound (t : Task)
| TaskNotFound (error : string).

Definition found (r : StatusReport) : bool :=
  match r with TaskFound _ => true | TaskNotFound _ => false end.

(** The [aggregationContext] object. *)
Record AggregationData : Type := mkAggregationData {
  total_tasks : nat;
  completed_tasks : nat;
  aggregation_type : string;
  results : list (string * string * option string)
}.

(** The object [aggregateResults] returns; absent properties are [None]. *)
Record AggregateResult : Type := mkAggregateResult {
  ar_success : bool;
  ar_error : option string;
  ar_aggregated_result : option string;
  ar_source_tasks : option (list string);
  ar_agents_involved : option (list string);
  ar_aggregation_type : option string;
  ar_raw_data : option AggregationData
}.

(** What a suspended [aggregateResults] holds: its closure and, once
    [this.processTask] has settled, what it settled with. *)
Record PendingAggregation : Type := mkPendingAggregation {
  pa_taskId : string;
  pa_taskIds : list string;
  pa_completedTasks : list Task;
  pa_aggregationType : string;
  pa_context : AggregationData;
  pa_settled : option (Completion ProcessResult)
}.

(** The environment of [aggregateResults] before its await: the generated
    id of the aggregation task and one clock reading. *)
Record AggregationEnv : Type := mkAggregationEnv {
  env_aggregationTaskId : string;
  env_aggregationStart : Z
}.

(** ** lil_Boss_CEO/index.js: the methods *)

(** The two texts the methods compute and the model leaves open:
    [String.prototype.toLowerCase], and the aggregation prompt, a template
    around [JSON.stringify(aggregationContext)] whose wording plays no role. *)
Class Builtins : Type := {
  toLowerCase : string -> string;
  aggregationPrompt : AggregationData -> string
}.

Section Coordinator.

Context {builtins : Builtins}.

(** The [roleScores] literal of [calculateRoleScore]. *)
Definition bonus (b : bool) : Z := if b then 15 else 0.

Definition roleScores (taskLower : string) : list (string * Z) :=
  [ ("SEO_Specialist",
      bonus (includes taskLower "seo" || includes taskLower "search" || includes taskLower "keyword"));
    ("Brand_Manager",
      bonus (includes taskLower "brand" || includes taskLower "identity" || includes taskLower "image"));
    ("Market_Analyst",
      bonus (includes taskLower "market" || includes taskLower "analysis" || includes taskLower "trend"));
    ("Finance_Analyst",
      bonus (includes taskLower "finance" || includes taskLower "budget" || includes taskLower "cost"));
    ("Product_Manager",
      bonus (includes taskLower "product" || includes taskLower "feature" || includes taskLower "development"));
    ("Marketing_Manager",
      bonus (includes taskLower "marketing" || includes taskLower "campaign" || includes taskLower "promotion"));
    ("Partnership_Manager",
      bonus (includes taskLower "partnership" || includes taskLower "collaboration" || includes taskLower "alliance")) ].

Definition calculateRoleScore (role taskDescription : string) : JsValue :=
  let taskLower := toLowerCase taskDescription in
  orElse (getMember (roleScores taskLower) role) 0.

(** The [deadlineHours] literal of [calculateDeadline]. *)
Definition deadlineHours : list (string * Z) :=
  [ ("high", 2); ("medium", 24); ("low", 72) ].

Definition calculateDeadline (priority : string) (now : Z) : Date :=
  match orElse (getMember deadlineHours priority) 24 with
  | Num hours => Time (now + hours * 60 * 60 * 1000)
  | NonNumeric => InvalidDate
  end.

(** The test of the loop over [requiredSkills]. *)
Definition skillMatches (agent : Agent) (skill : string) : bool :=
  existsb (fun knowledge => includes (toLowerCase knowledge) (toLowerCase skill))
    (specialKnowledge agent).

(** The score after the loop over [requiredSkills]. *)
Definition skillScore (agent : Agent) (requiredSkills : list string) : Z :=
  fold_left (fun score skill => if skillMatches agent skill then score + 10 else score)
    requiredSkills 0.

(** The callback of [availableAgents.map]. *)
Definition scoreAgent (requiredSkills : list string) (taskDescription : string)
    (agent : Agent) : Agent * JsValue :=
  (agent, plus (skillScore agent requiredSkills) (calculateRoleScore (role agent) taskDescription)).

(** The comparator [(a, b) => b.score - a.score]; [None] is [NaN]. *)
Definition compareFn (a b : Agent * JsValue) : option Z :=
  match snd b, snd a with
  | Num sb, Num sa => Some (sb - sa)
  | _, _ => None
  end.

(** [Array.prototype.sort] is stable, and a comparator result of [NaN]
    counts as 0: an element moves behind a later one only when the
    comparator is positive.  For a consistent comparator, which
    [compareFn] is on numeric scores, every stable sort gives this list;
    otherwise ECMAScript leaves the order to the implementation. *)
Definition movesBehind (a b : Agent * JsValue) : bool :=
  match compareFn a b with
  | Some d => 0 <? d
  | None => false
  end.

Fixpoint insertSorted (x : Agent * JsValue) (l : list (Agent * JsValue)) : list (Agent * JsValue) :=
  match l with
  | [] => [x]
  | y :: rest => if movesBehind x y then y :: insertSorted x rest else x :: l
  end.

Definition sort (l : list (Agent * JsValue)) : list (Agent * JsValue) :=
  fold_right insertSorted [] l.

Definition reduceEmptyError : string := "Reduce of empty array with no initial value".

(** The callback of [agents.reduce] in the fallback branch. *)
Definition lessBusy (leastBusy agent : Agent) : Agent :=
  if Nat.ltb (size (currentTasks agent)) (size (currentTasks leastBusy)) then agent
  else leastBusy.

(** [selectBestAgent].  [None] stands for a falsy result. *)
Definition selectBestAgent (c : CEO) (requiredSkills : list string)
    (taskDescription : string) : Completion (option Agent) :=
  let availableAgents := List.filter (fun agent => isIdle (status agent)) (teamAgents c) in
  match availableAgents with
  | [] =>
      match teamAgents c with
      | [] => Throw reduceEmptyError
      | first :: rest => Normal (Some (fold_left lessBusy rest first))
      end
  | _ :: _ =>
      let scoredAgents := List.map (scoreAgent requiredSkills taskDescription) availableAgents in
      match sort scoredAgents with
      | best :: _ => Normal (Some (fst best))
      | [] => Normal (List.head availableAgents)
      end
  end.

(** [updatePerformanceMetrics]. *)
Definition isCompleted (t : Task) : bool :=
  match task_status t with completed => true | _ => false end.

Definition elapsed (t : Task) : option Z :=
  match task_completedAt t with
  | Some finish => Some (finish - task_assignedAt t)
  | None => None
  end.

Definition totalTime (completedTasks : list Task) : option Z :=
  fold_left (fun sum t =>
               match sum, elapsed t with
               | Some s, Some e => Some (s + e)
               | _, _ => None
               end) completedTasks (Some 0).

Definition ofNat (n : nat) : Q := inject_Z (Z.of_nat n).

Definition updatePerformanceMetrics (c : CEO) : CEO :=
  let completedTasks := List.filter isCompleted (taskHistory c) in
  let m := performanceMetrics c in
  let rate :=
    if Nat.ltb 0 (length (taskHistory c))
    then (ofNat (length completedTasks) / ofNat (length (taskHistory c)) * 100)%Q
    else 0%Q in
  let average :=
    if Nat.ltb 0 (length completedTasks)
    then match totalTime completedTasks with
         | Some total => Minutes (inject_Z total / ofNat (length completedTasks) / (1000 * 60))%Q
         | None => NaN
         end
    else averageCompletionTime m in
  mkCEO (self c) (teamAgents c) (activeTasks c) (taskHistory c)
    (mkMetrics (tasksCompleted m) (tasksAssigned m) average rate).

(** The rest of [assignTask] once selection has returned [assignedAgent],
    up to the await inside [assignedAgent.processTask]. *)
Definition assignTask_dispatch (env : BeginEnv) (c : CEO)
    (taskDescription priority : string) (requiredSkills : list string)
    (assignedAgent : option Agent) : Step SubmitResult PendingTask :=
  let taskId := env_taskId env in
  match assignedAgent with
  | None =>
      Returned (mkSubmitResult false (Some taskId) None None
                  (Some "No suitable agent available")) c
  | Some agent =>
      let task := mkTask taskId taskDescription priority requiredSkills (name agent)
                    (env_assignedAt env) assigned 0 None None None in
      let m := performanceMetrics c in
      let context := AssignmentContext priority (name (self c))
                       (calculateDeadline priority (env_deadlineNow env)) in
      Suspended (mkPendingTask task agent None)
        (mkCEO (self c)
           (updateAgent (name agent)
              (processTask_begin taskId taskDescription context (env_startTime env))
              (teamAgents c))
           (<[taskId := task]> (activeTasks c))
           (taskHistory c)
           (mkMetrics (tasksCompleted m) (tasksAssigned m + 1)
              (averageCompletionTime m) (successRate m)))
  end.

Definition assignTask_begin (env : BeginEnv) (c : CEO)
    (taskDescription priority : string) (requiredSkills : list string)
    : Step SubmitResult PendingTask :=
  match selectBestAgent c requiredSkills taskDescription with
  | Throw message => Thrown message
  | Normal assignedAgent =>
      assignTask_dispatch env c taskDescription priority requiredSkills assignedAgent
  end.

(** The task record [assignTask] files in the history: on the [try] path
    when [processTask] returned, on the [catch] path when it threw. *)
Definition terminalTask (task : Task) (completedAt : Z)
    (completion : Completion ProcessResult) : Task :=
  match completion with
  | Normal result =>
      mkTask (task_id task) (task_description task) (task_priority task)
        (task_requiredSkills task) (task_assignedAgent task) (task_assignedAt task)
        (if pr_success result then completed else failed) 100
        (Some completedAt) (Some result) (task_error task)
  | Throw message =>
      mkTask (task_id task) (task_description task) (task_priority task)
        (task_requiredSkills task) (task_assignedAgent task) (task_assignedAt task)
        failed (task_progress task)
        (Some completedAt) (task_result task) (Some message)
  end.

(** The continuation of [assignedAgent.processTask] when the completion
    service has answered: it changes the agent and settles with a result or
    an exception.  The agent object is reached through its name in the
    registry, where the code holds the object itself in the closure of the
    call: the two differ only when another agent is registered under the
    same name while the call is suspended, which then is the agent touched
    here. *)
Definition assignTask_settle (p : PendingTask) (outcome : ServiceOutcome)
    (completionTime : Z) (c : CEO) : Completion ProcessResult * CEO :=
  let taskId := task_id (pt_task p) in
  let agentName := name (pt_agent p) in
  let agent := default (pt_agent p) (getAgent agentName (teamAgents c)) in
  (fst (processTask_resume taskId outcome completionTime agent),
   mkCEO (self c)
     (updateAgent agentName
        (fun a => snd (processTask_resume taskId outcome completionTime a))
        (teamAgents c))
     (activeTasks c) (taskHistory c) (performanceMetrics c)).

(** The continuation of [assignTask] itself, once [processTask] has settled. *)
Definition assignTask_resume (p : PendingTask) (completion : Completion ProcessResult)
    (completedAt : Z) (c : CEO) : SubmitResult * CEO :=
  let task := pt_task p in
  let taskId := task_id task in
  let m := performanceMetrics c in
  let ledger (m' : Metrics) : CEO :=
    mkCEO (self c) (teamAgents c) (delete taskId (activeTasks c))
      (taskHistory c ++ [terminalTask task completedAt completion]) m' in
  match completion with
  | Normal result =>
      (mkSubmitResult (pr_success result) (Some taskId) (Some (name (pt_agent p)))
         (pr_result result) (pr_error result),
       updatePerformanceMetrics
         (ledger
            (mkMetrics (if pr_success result then tasksCompleted m + 1 else tasksCompleted m)
               (tasksAssigned m) (averageCompletionTime m) (successRate m))))
  | Throw message =>
      (mkSubmitResult false (Some taskId) None None (Some message), ledger m)
  end.

(** [assignTask] run to its end with nothing interleaved at its awaits. *)
Definition assignTask (benv : BeginEnv) (renv : ResumeEnv) (c : CEO)
    (taskDescription priority : string) (requiredSkills : list string)
    : Completion (SubmitResult * CEO) :=
  match assignTask_begin benv c taskDescription priority requiredSkills with
  | Thrown message => Throw message
  | Returned r c' => Normal (r, c')
  | Suspended p c' =>
      let '(completion, c'') :=
        assignTask_settle p (env_outcome renv) (env_completionTime renv) c' in
      Normal (assignTask_resume p completion (env_completedAt renv) c'')
  end.

(** [getTaskStatus]: the active map first, then the first match in history. *)
Definition getTaskStatus (c : CEO) (taskId : string) : StatusReport :=
  match activeTasks c !! taskId with
  | Some activeTask => TaskFound activeTask
  | None =>
      match List.find (fun t => String.eqb (task_id t) taskId) (taskHistory c) with
      | Some historicalTask => TaskFound historicalTask
      | None => TaskNotFound "Task not found"
      end
  end.

Definition succeeded (t : Task) : bool :=
  match task_result t with
  | Some r => pr_success r
  | None => false
  end.

Definition reportedTask (r : StatusReport) : list Task :=
  match r with TaskFound t => [t] | TaskNotFound _ => [] end.

(** [aggregateResults] up to the await inside [this.processTask]. *)
Definition aggregateResults_begin (env : AggregationEnv) (c : CEO)
    (taskIds : list string) (aggregationType : string)
    : Step AggregateResult PendingAggregation :=
  let tasks := flat_map (fun taskId => reportedTask (getTaskStatus c taskId)) taskIds in
  let completedTasks := List.filter (fun t => isCompleted t && succeeded t) tasks in
  match completedTasks with
  | [] =>
      Returned (mkAggregateResult false (Some "No completed tasks found for aggregation")
                  None None None None None) c
  | _ :: _ =>
      let aggregationContext :=
        mkAggregationData (length tasks) (length completedTasks) aggregationType
          (List.map (fun t => (task_assignedAgent t, task_description t,
                               match task_result t with
                               | Some r => pr_result r
                               | None => None
                               end)) completedTasks) in
      let aggregationTaskId := env_aggregationTaskId env in
      Suspended
        (mkPendingAggregation aggregationTaskId taskIds completedTasks aggregationType
           aggregationContext None)
        (mkCEO
           (processTask_begin aggregationTaskId (aggregationPrompt aggregationContext)
              (AggregationContext taskIds) (env_aggregationStart env) (self c))
           (teamAgents c) (activeTasks c) (taskHistory c) (performanceMetrics c))
  end.

(** The continuation of [this.processTask] inside [aggregateResults]. *)
Definition aggregateResults_settle (p : PendingAggregation) (outcome : ServiceOutcome)
    (completionTime : Z) (c : CEO) : Completion ProcessResult * CEO :=
  (fst (processTask_resume (pa_taskId p) outcome completionTime (self c)),
   mkCEO (snd (processTask_resume (pa_taskId p) outcome completionTime (self c)))
     (teamAgents c) (activeTasks c) (taskHistory c) (performanceMetrics c)).

(** The continuation of [aggregateResults] itself. *)
Definition aggregateResults_resume (p : PendingAggregation)
    (completion : Completion ProcessResult) : AggregateResult :=
  match completion with
  | Normal result =>
      mkAggregateResult true None (pr_result result) (Some (pa_taskIds p))
        (Some (distinct [] (List.map task_assignedAgent (pa_completedTasks p))))
        (Some (pa_aggregationType p)) None
  | Throw message =>
      mkAggregateResult false (Some message) None None None None (Some (pa_context p))
  end.

(** [aggregateResults] run to its end with nothing interleaved. *)
Definition aggregateResults (env : AggregationEnv) (outcome : ServiceOutcome)
    (completionTime : Z) (c : CEO) (taskIds : list string) (aggregationType : string)
    : AggregateResult * CEO :=
  match aggregateResults_begin env c taskIds aggregationType with
  | Thrown message => (mkAggregateResult false (Some message) None None None None None, c)
  | Returned r c' => (r, c')
  | Suspended p c' =>
      let '(completion, c'') := aggregateResults_settle p outcome completionTime c' in
      (aggregateResults_resume p completion, c'')
  end.

(** [Math.min] and [Math.round]; a tie rounds towards plus infinity.
    [calculateSystemHealth] is the score over exact quotients. *)
Definition mathMin (x y : Q) : Q := if Qle_bool x y then x else y.

Definition mathRound (x : Q) : Z := Qfloor (x + (1 # 2))%Q.

Definition calculateSystemHealth (c : CEO) : Z :=
  let idleAgents := length (List.filter (fun agent => isIdle (status agent)) (teamAgents c)) in
  let totalAgents := length (teamAgents c) in
  let availabilityScore :=
    if Nat.ltb 0 totalAgents then (ofNat idleAgents / ofNat totalAgents * 50)%Q else 0%Q in
  let performanceScore := mathMin (successRate (performanceMetrics c) / 2)%Q 50%Q in
  mathRound (availabilityScore + performanceScore)%Q.

(** ** Numbers in double precision

    A JavaScript number is a binary64 value, and every arithmetic
    operation gives the double nearest to the exact result, a tie going to
    the even significand.  [double] is that rounding on the rationals: a
    significand of 53 bits at the binary exponent of the argument, the
    exponent of the subnormal numbers at the least.  Results beyond the
    largest double, which the engine turns into [Infinity], do not occur in
    what is computed here. *)

(** The binary exponent of a positive rational: the integer part of its
    logarithm to base 2. *)
Definition floorLog2 (x : Q) : Z :=
  let l := Z.log2 (Qnum x) - Z.log2 (Zpos (Qden x)) in
  if Qle_bool (Qpower 2 l) x then l else l - 1.

(** The nearest integer, a tie going to the even one. *)
Definition roundHalfEven (x : Q) : Z :=
  let f := Qfloor x in
  match Qcompare (x - inject_Z f) (1 # 2) with
  | Lt => f
  | Gt => f + 1
  | Eq => if Z.even f then f else f + 1
  end.

Definition doubleOfPositive (x : Q) : Q :=
  let e := Z.max (floorLog2 x - 52) (-1074) in
  Qred (inject_Z (roundHalfEven (x / Qpower 2 e)) * Qpower 2 e).

Definition double (x : Q) : Q :=
  let x := Qred x in
  match Qnum x with
  | 0 => 0%Q
  | Zpos _ => doubleOfPositive x
  | Zneg _ => (- doubleOfPositive (- x))%Q
  end.

(** What it is for [y] to be the double nearest to a number [x] that is not
    negative, stated without [double]: [y] is a multiple of the unit in
    the last place at the binary exponent [k] of [x], 52 places below it
    and no lower than the subnormal numbers; it differs from [x] by at
    most half that unit; and at exactly half the multiple is even. *)
Definition nearestDouble (x y : Q) : Prop :=
  (x == 0 /\ y == 0)%Q \/
  exists k m : Z,
    (2 ^ k <= x < 2 ^ (k + 1))%Q /\
    let e := Z.max (k - 52) (-1074) in
    (y == inject_Z m * 2 ^ e)%Q /\
    (- (1 # 2) <= inject_Z m - x / 2 ^ e <= 1 # 2)%Q /\
    ((inject_Z m - x / 2 ^ e == 1 # 2)%Q \/ (inject_Z m - x / 2 ^ e == - (1 # 2))%Q ->
     Z.even m = true).

(** The rate [updatePerformanceMetrics] stores, as the engine computes it:
    the quotient of the two lengths, then the product with 100. *)
Definition successRate_double (taskHistory : list Task) : Q :=
  let completedTasks := List.filter isCompleted taskHistory in
  if Nat.ltb 0 (length taskHistory)
  then double (double (ofNat (length completedTasks) / ofNat (length taskHistory)) * 100)
  else 0%Q.

(** [calculateSystemHealth] as the engine computes it, from the rate the
    metrics hold.  The counts and the constants are doubles as they are;
    [Math.min] and [Math.round] are exact on doubles. *)
Definition calculateSystemHealth_double (c : CEO) : Z :=
  let idleAgents := length (List.filter (fun agent => isIdle (status agent)) (teamAgents c)) in
  let totalAgents := length (teamAgents c) in
  let availabilityScore :=
    if Nat.ltb 0 totalAgents
    then double (double (ofNat idleAgents / ofNat totalAgents) * 50)
    else 0%Q in
  let performanceScore :=
    mathMin (double (successRate (performanceMetrics c) / 2)) 50%Q in
  mathRound (double (availabilityScore + performanceScore)).

(** ** Interleaved calls

    Calls on one coordinator interleave at their awaits.  A system is the
    coordinator together with the suspended calls; an operation starts a
    call, runs the continuation of a suspended [processTask], runs the
    continuation of the call that awaited it, or registers an agent.
    Registering under a name in use replaces the agent of that name, which
    also covers any change the agent underwent outside the coordinator. *)

Record System : Type := mkSystem {
  coordinator : CEO;
  pendingTasks : list PendingTask;
  pendingAggregations : list PendingAggregation
}.

Inductive Op : Type :=
| RegisterTeamAgent (agent : Agent)
| AssignTask (env : BeginEnv) (taskDescription priority : string)
    (requiredSkills : list string)
| SettleAssignTask (i : nat) (outcome : ServiceOutcome) (completionTime : Z)
| ResumeAssignTask (i : nat) (completedAt : Z)
| AggregateResults (env : AggregationEnv) (taskIds : list string)
    (aggregationType : string)
| SettleAggregateResults (i : nat) (outcome : ServiceOutcome) (completionTime : Z)
| ResumeAggregateResults (i : nat).

(** What an operation hands back to its caller. *)
Inductive Output : Type :=
| Nothing
| Raised (message : string)
| Submitted (r : SubmitResult)
| Aggregated (r : AggregateResult).

(** The list without its [i]-th element, and with another one in its place. *)
Definition removeAt {A : Type} (i : nat) (l : list A) : list A :=
  firstn i l ++ skipn (S i) l.

Definition replaceAt {A : Type} (i : nat) (x : A) (l : list A) : list A :=
  firstn i l ++ x :: skipn (S i) l.

Definition step (s : System) (op : Op) : System * Output :=
  let c := coordinator s in
  match op with
  | RegisterTeamAgent agent =>
      (mkSystem (registerTeamAgent agent c) (pendingTasks s) (pendingAggregations s), Nothing)
  | AssignTask env taskDescription priority requiredSkills =>
      match assignTask_begin env c taskDescription priority requiredSkills with
      | Thrown message => (s, Raised message)
      | Returned r c' => (mkSystem c' (pendingTasks s) (pendingAggregations s), Submitted r)
      | Suspended p c' => (mkSystem c' (pendingTasks s ++ [p]) (pendingAggregations s), Nothing)
      end
  | SettleAssignTask i outcome completionTime =>
      match nth_error (pendingTasks s) i with
      | Some (mkPendingTask task agent None as p) =>
          let '(completion, c') := assignTask_settle p outcome completionTime c in
          (mkSystem c'
             (replaceAt i (mkPendingTask task agent (Some completion)) (pendingTasks s))
             (pendingAggregations s),
           Nothing)
      | _ => (s, Nothing)
      end
  | ResumeAssignTask i completedAt =>
      match nth_error (pendingTasks s) i with
      | Some (mkPendingTask _ _ (Some completion) as p) =>
          let '(r, c') := assignTask_resume p completion completedAt c in
          (mkSystem c' (removeAt i (pendingTasks s)) (pendingAggregations s), Submitted r)
      | _ => (s, Nothing)
      end
  | AggregateResults env taskIds aggregationType =>
      match aggregateResults_begin env c taskIds aggregationType with
      | Thrown message => (s, Raised message)
      | Returned r c' => (mkSystem c' (pendingTasks s) (pendingAggregations s), Aggregated r)
      | Suspended p c' => (mkSystem c' (pendingTasks s) (pendingAggregations s ++ [p]), Nothing)
      end
  | SettleAggregateResults i outcome completionTime =>
      match nth_error (pendingAggregations s) i with
      | Some (mkPendingAggregation taskId taskIds completedTasks aggregationType context None
              as p) =>
          let '(completion, c') := aggregateResults_settle p outcome completionTime c in
          (mkSystem c' (pendingTasks s)
             (replaceAt i
                (mkPendingAggregation taskId taskIds completedTasks aggregationType context
                   (Some completion))
                (pendingAggregations s)),
           Nothing)
      | _ => (s, Nothing)
      end
  | ResumeAggregateResults i =>
      match nth_error (pendingAggregations s) i with
      | Some (mkPendingAggregation _ _ _ _ _ (Some completion) as p) =>
          (mkSystem c (pendingTasks s) (removeAt i (pendingAggregations s)),
           Aggregated (aggregateResults_resume p completion))
      | _ => (s, Nothing)
      end
  end.

(** The ids of the tasks in the history. *)
Definition historyIds (c : CEO) : list string := List.map task_id (taskHistory c).

(** The generated id [task-<time>-<random>] is taken to be new: no task
    of the ledger carries it. *)
Definition freshId (c : CEO) (taskId : string) : Prop :=
  activeTasks c !! taskId = None /\ ~ In taskId (historyIds c).

Definition admissible (s : System) (op : Op) : Prop :=
  match op with
  | AssignTask env _ _ _ => freshId (coordinator s) (env_taskId env)
  | _ => True
  end.

(** The systems reached from another by admissible operations. *)
Inductive reaches : System -> System -> Prop :=
| reaches_here s : reaches s s
| reaches_step s op s' :
    admissible s op -> reaches (fst (step s op)) s' -> reaches s s'.

Definition initial : System := mkSystem newCEO [] [].

Definition reachable (s : System) : Prop := reaches initial s.

(** ** The scoring rule in the words of the specification *)

(** The keywords the specification associates with a role. *)
Definition roleKeywords (role : string) : list string :=
  if String.eqb "SEO_Specialist" role then ["seo"; "search"; "keyword"]
  else if String.eqb "Brand_Manager" role then ["brand"; "identity"; "image"]
  else if String.eqb "Market_Analyst" role then ["market"; "analysis"; "trend"]
  else if String.eqb "Finance_Analyst" role then ["finance"; "budget"; "cost"]
  else if String.eqb "Product_Manager" role then ["product"; "feature"; "development"]
  else if String.eqb "Marketing_Manager" role then ["marketing"; "campaign"; "promotion"]
  else if String.eqb "Partnership_Manager" role then ["partnership"; "collaboration"; "alliance"]
  else [].

(** +15 exactly when the lowercased description contains a keyword of the role. *)
Definition roleBonus (role taskDescription : string) : Z :=
  if existsb (includes (toLowerCase taskDescription)) (roleKeywords role) then 15 else 0.

(** +10 for each required skill contained, case-insensitively, in a skill tag. *)
Definition matchedSkills (agent : Agent) (requiredSkills : list string) : nat :=
  length (List.filter (skillMatches agent) requiredSkills).

Definition points (requiredSkills : list string) (taskDescription : string)
    (agent : Agent) : Z :=
  10 * Z.of_nat (matchedSkills agent requiredSkills) + roleBonus (role agent) taskDescription.

(** The head of a list sorted by [sort], computed without sorting: going
    from the right, an element gives way to the best of those after it
    only when the comparator moves it behind. *)
Fixpoint firstBest (l : list (Agent * JsValue)) : option (Agent * JsValue) :=
  match l with
  | [] => None
  | x :: rest =>
      match firstBest rest with
      | None => Some x
      | Some y => if movesBehind x y then Some y else Some x
      end
  end.

(** The idle agents, in registration order. *)
Definition availableAgents (c : CEO) : list Agent :=
  List.filter (fun agent => isIdle (status agent)) (teamAgents c).

(** The role of every agent of the list names no inherited member. *)
Definition plainRoles (agents : list Agent) : Prop :=
  Forall (fun agent => inheritedName (role agent) = false) agents.

(** ** The ledger of a system in good order *)

Definition pendingId (p : PendingTask) : string := task_id (pt_task p).

Record ledgerOk (s : System) : Prop := mkLedgerOk {
  ok_pending_distinct : List.NoDup (List.map pendingId (pendingTasks s));
  ok_pending_active :
    forall p, In p (pendingTasks s) ->
      activeTasks (coordinator s) !! pendingId p = Some (pt_task p);
  ok_active_shape :
    forall taskId t, activeTasks (coordinator s) !! taskId = Some t ->
      task_id t = taskId /\ task_status t = assigned /\ task_result t = None;
  ok_disjoint :
    forall taskId, In taskId (historyIds (coordinator s)) ->
      activeTasks (coordinator s) !! taskId = None;
  ok_history_distinct : List.NoDup (historyIds (coordinator s));
  ok_history_shape :
    forall t, In t (taskHistory (coordinator s)) ->
      task_status t <> assigned /\ (succeeded t = true -> task_status t = completed);
  ok_rate :
    (0 <= successRate (performanceMetrics (coordinator s)) <= 100)%Q
}.

(** The successful history entries among the given ids, in the words of
    the specification. *)
Definition succeededHistory (c : CEO) (taskIds : list string) : list Task :=
  flat_map (fun taskId =>
              match List.find (fun t => String.eqb (task_id t) taskId) (taskHistory c) with
              | Some t => if succeeded t then [t] else []
              | None => []
              end) taskIds.

(** The number of history entries that carry an id, and what it is for a
    task to have moved to the history. *)
Definition historyCount (c : CEO) (taskId : string) : nat :=
  length (List.filter (fun t => String.eqb (task_id t) taskId) (taskHistory c)).

Definition archived (c : CEO) (taskId : string) : Prop :=
  activeTasks c !! taskId = None /\ In taskId (historyIds c).

(** The stored rate and average are what recomputing them from the
    history gives. *)
Definition metricsFresh (c : CEO) : Prop :=
  performanceMetrics (updatePerformanceMetrics c) = performanceMetrics c.

(** The health score before its rounding, in the words of the
    specification and in exact arithmetic: 50 times the share of idle
    workers, plus the smaller of half the success rate and 50. *)
Definition healthFormula (c : CEO) : Q :=
  (50 * (ofNat (length (availableAgents c)) / ofNat (length (teamAgents c)))
   + Qmin (successRate (performanceMetrics c) / 2) 50)%Q.

(** ** Auxiliary definitions of the proofs *)

(** A list of agents scored by a numeric function. *)
Definition scoredWith (pts : Agent -> Z) (agents : list Agent) : list (Agent * JsValue) :=
  List.map (fun agent => (agent, Num (pts agent))) agents.

(** Descending by score. *)
Definition descending (pts : Agent -> Z) : list (Agent * JsValue) -> Prop :=
  StronglySorted (fun a b => pts (fst b) <= pts (fst a)).

(** The task record [assignTask] creates. *)
Definition createdTask (env : BeginEnv) (taskDescription priority : string)
    (requiredSkills : list string) (agent : Agent) : Task :=
  mkTask (env_taskId env) taskDescription priority requiredSkills (name agent)
    (env_assignedAt env) assigned 0 None None None.

End Coordinator.

(** ** Concrete built-ins, agents and runs *)

Definition asciiBuiltins : Builtins :=
  {| toLowerCase := asciiToLowerCase;
     aggregationPrompt := fun _ => "Aggregate and synthesize the following task results" |}.

Definition seoAgent : Agent :=
  newAgent "lil_SEO_Specialist" "SEO_Specialist"
    [ "Search Engine Optimization"; "Keyword Research"; "Technical SEO";
      "Content Optimization"; "SERP Analysis"; "Link Building"; "Local SEO";
      "SEO Analytics" ].

Definition financeAgent : Agent :=
  newAgent "lil_Finance_Analyst" "Finance_Analyst"
    [ "Financial Analysis"; "Budget Planning"; "Cost Analysis"; "ROI Calculation";
      "Financial Forecasting" ].

Definition marketAgent : Agent :=
  newAgent "lil_Market_Analyst" "Market_Analyst"
    [ "Market Research"; "Competitive Analysis"; "Market Trends"; "Consumer Behavior";
      "Industry Analysis" ].

Definition brandAgent : Agent :=
  newAgent "lil_Brand_Manager" "Brand_Manager"
    [ "Brand Strategy"; "Brand Identity"; "Brand Positioning"; "Brand Guidelines";
      "Brand Monitoring" ].

(** A coordinator with three agents registered in this order. *)
Definition team : CEO :=
  registerTeamAgent marketAgent (registerTeamAgent financeAgent (registerTeamAgent seoAgent newCEO)).

(** A coordinator with four agents, two of them busy, and a success rate of 80. *)
Definition halfIdleTeam : CEO :=
  mkCEO (self newCEO)
    [ seoAgent; setStatus busy financeAgent; marketAgent; setStatus busy brandAgent ]
    ∅ [] (mkMetrics 4 5 (Minutes 1) 80).

(** A task of the history, one minute after its assignment: completed, or
    failed because the completion service answered with an error. *)
Definition pastTask (i : nat) (success : bool) : Task :=
  let taskId := "task-" ++ pretty i in
  terminalTask
    (mkTask taskId "Estimate the budget" "medium" [] (name financeAgent) 0 assigned 0
       None None None)
    60000
    (Normal (if success
             then mkProcessResult true (Some "Budget estimate") None (name financeAgent) taskId
             else mkProcessResult false None (Some "Service unavailable")
                    (name financeAgent) taskId)).

(** A history of [total] tasks, the first [completedTasks] of them
    completed and the others failed. *)
Definition pastTasks (completedTasks total : nat) : list Task :=
  List.map (fun i => pastTask i (Nat.ltb i completedTasks)) (seq 0 total).

(** A coordinator of the given agents with such a history behind it, and
    in its metrics what [updatePerformanceMetrics] has stored for it: the
    rate, and an average of one minute once a task has completed.  The
    agents are taken as given; the score reads their status alone. *)
Definition teamAfter (agents : list Agent) (completedTasks total : nat) : CEO :=
  mkCEO (self newCEO) agents ∅ (pastTasks completedTasks total)
    (mkMetrics (Z.of_nat completedTasks) (Z.of_nat total)
       (if Nat.ltb 0 completedTasks then Minutes 1 else Minutes 0)
       (successRate_double (pastTasks completedTasks total))).

(** Three agents, one of them idle. *)
Definition oneIdleOfThree : list Agent :=
  [ seoAgent; setStatus busy financeAgent; setStatus busy marketAgent ].

(** The environment of a first task that succeeds and of a second task
    whose completion is rejected with [undefined]. *)
Definition firstBegin : BeginEnv := mkBeginEnv "task-1" 1000 1001 1002.
Definition firstResume : ResumeEnv := mkResumeEnv (Resolved "Budget estimate") 61000 61001.
Definition secondBegin : BeginEnv := mkBeginEnv "task-2" 70000 70001 70002.
Definition secondResume : ResumeEnv := mkResumeEnv (Rejected Nullish) 80000 80001.

(** A run: an agent is registered, a task is submitted and suspended, the
    agent's [processTask] settles, the call resumes and returns, a second
    task is submitted. *)
Definition agentRegistered : System :=
  fst (step (builtins := asciiBuiltins) initial (RegisterTeamAgent financeAgent)).

Definition taskSuspended : System :=
  fst (step (builtins := asciiBuiltins) agentRegistered
         (AssignTask firstBegin "Estimate the budget" "high" ["Budget"])).

Definition taskSettled : System :=
  fst (step (builtins := asciiBuiltins) taskSuspended
         (SettleAssignTask 0 (Resolved "Budget estimate") 61000)).

Definition taskReturned : System :=
  fst (step (builtins := asciiBuiltins) taskSettled (ResumeAssignTask 0 61001)).

Definition secondSuspended : System :=
  fst (step (builtins := asciiBuiltins) taskReturned
         (AssignTask secondBegin "Estimate the cost" "low" [])).

(** ** Agent.js: workload, housekeeping and reports *)

Definition isLocalCompleted (t : LocalTask) : bool :=
  match lt_status t with localCompleted => true | _ => false end.

Definition isLocalFailed (t : LocalTask) : bool :=
  match lt_status t with localFailed => true | _ => false end.

(** [Array.from(this.currentTasks.values())] and [...entries()].  A [Map]
    lists its entries in insertion order, the map of the model in an order
    of its own; what is computed from these lists below is a count or a
    deletion of keys, neither of which depends on the order. *)
Definition currentEntries (a : Agent) : list (string * LocalTask) :=
  map_to_list (currentTasks a).

Definition currentValues (a : Agent) : list LocalTask :=
  List.map snd (currentEntries a).

(** The object [getStatus] returns. *)
Record AgentReport : Type := mkAgentReport {
  rep_name : string;
  rep_role : string;
  rep_status : AgentStatus;
  rep_current_tasks : nat;
  rep_completed_tasks : nat;
  rep_specialization : list string
}.

Definition getStatus (a : Agent) : AgentReport :=
  mkAgentReport (name a) (role a) (status a) (size (currentTasks a))
    (length (List.filter isLocalCompleted (currentValues a)))
    (specialKnowledge a).

(** [clearCompletedTasks]: the entries that are completed or failed are
    collected, then each of their keys is deleted. *)
Definition clearCompletedTasks (a : Agent) : Agent :=
  let completedTasks :=
    List.filter (fun entry => isLocalCompleted (snd entry) || isLocalFailed (snd entry))
      (currentEntries a) in
  mkAgent (name a) (role a) (specialKnowledge a)
    (fold_left (fun tasks entry => delete (fst entry) tasks) completedTasks (currentTasks a))
    (status a).

(** An element of [reportData.tasks]. *)
Record TaskSummary : Type := mkTaskSummary {
  sum_description : string;
  sum_status : LocalStatus;
  sum_duration : option Z;
  sum_result_summary : option string
}.

(** [task.result ? task.result.substring(0, 200) + '...' : null]: the
    empty string is falsy. *)
Definition resultSummary (result : option string) : option string :=
  match result with
  | Some (String ch rest) => Some (String.substring 0 200 (String ch rest) ++ "...")
  | Some EmptyString => None
  | None => None
  end.

Definition summarize (t : LocalTask) : TaskSummary :=
  mkTaskSummary (lt_description t) (lt_status t)
    (match lt_completionTime t with
     | Some completionTime =>
         Some (mathRound (inject_Z (completionTime - lt_startTime t) / 1000)%Q)
     | None => None
     end)
    (resultSummary (lt_result t)).

(** The [reportData] object of [generateReport]. *)
Record ReportData : Type := mkReportData {
  rd_agent : string;
  rd_role : string;
  rd_report_type : string;
  rd_generated_at : Z;
  rd_tasks_analyzed : nat;
  rd_successful_tasks : nat;
  rd_failed_tasks : nat;
  rd_tasks : list TaskSummary
}.

(** What [generateReport] returns: the error object when there is no task
    to report on; [reportData] with the insights of the completion service,
    once the report file is written; or, from the [catch] block,
    [reportData] with an error.  In the last case the insights are there
    when only the writing of the file failed. *)
Inductive Report : Type :=
| ReportError (error : string)
| ReportSaved (data : ReportData) (insights : string)
| ReportFailed (data : ReportData) (insights : option string) (error : string).

(** The tasks [generateReport] reports on: those found under the given
    ids, in the order of the ids, or all of them when no id is given. *)
Definition reportTasks (a : Agent) (taskIds : list string) : list LocalTask :=
  match taskIds with
  | [] => currentValues a
  | _ :: _ => omap (fun id => currentTasks a !! id) taskIds
  end.

(** [generateReport].  The environment gives the clock reading of
    [generated_at], the answer of the completion service and whether the
    report directory and file could be written. *)
Definition generateReport (generatedAt : Z) (outcome : ServiceOutcome) (saved : bool)
    (a : Agent) (taskIds : list string) (reportType : string) : Report :=
  let tasks := reportTasks a taskIds in
  match tasks with
  | [] => ReportError "No tasks available for report generation"
  | _ :: _ =>
      let reportData :=
        mkReportData (name a) (role a) reportType generatedAt (length tasks)
          (length (List.filter isLocalCompleted tasks))
          (length (List.filter isLocalFailed tasks))
          (List.map summarize tasks) in
      match outcome with
      | Resolved text =>
          if saved then ReportSaved reportData text
          else ReportFailed reportData (Some text) "Failed to generate insights"
      | Rejected _ => ReportFailed reportData None "Failed to generate insights"
      end
  end.

(** The local tasks still being processed. *)
Definition isProcessing (t : LocalTask) : bool :=
  match lt_status t with processing => true | _ => false end.

(** The data a report carries, if any. *)
Definition reportedData (r : Report) : option ReportData :=
  match r with
  | ReportError _ => None
  | ReportSaved data _ => Some data
  | ReportFailed data _ _ => Some data
  end.

(** ** lil_Boss_CEO/index.js: statistics and status *)

Definition isFailed (t : Task) : bool :=
  match task_status t with failed => true | _ => false end.

(** The [teamStats] object [generateTeamReport] computes before it asks
    the completion service for insights; [performance_metrics] is the
    metrics object of the coordinator itself. *)
Record TeamStatistics : Type := mkTeamStatistics {
  st_total_agents : nat;
  st_performance_metrics : Metrics;
  st_active_tasks : nat;
  st_completed_tasks : nat;
  st_failed_tasks : nat;
  st_agent_status : list AgentReport
}.

Definition teamStats (c : CEO) : TeamStatistics :=
  mkTeamStatistics (length (teamAgents c)) (performanceMetrics c) (size (activeTasks c))
    (length (List.filter isCompleted (taskHistory c)))
    (length (List.filter isFailed (taskHistory c)))
    (List.map getStatus (teamAgents c)).

(** The object [getSystemStatus] returns. *)
Record SystemStatus : Type := mkSystemStatus {
  ss_ceo_status : AgentReport;
  ss_team_agents : list AgentReport;
  ss_active_tasks : nat;
  ss_performance_metrics : Metrics;
  ss_system_health : Z
}.

Definition getSystemStatus (c : CEO) : SystemStatus :=
  mkSystemStatus (getStatus (self c)) (List.map getStatus (teamAgents c))
    (size (activeTasks c)) (performanceMetrics c) (calculateSystemHealth c).

Section Bookkeeping.

Context {builtins : Builtins}.

(** The counters of a system in good order. *)
Record countersOk (s : System) : Prop := mkCountersOk {
  ok_assigned :
    tasksAssigned (performanceMetrics (coordinator s))
    = Z.of_nat (size (activeTasks (coordinator s)))
      + Z.of_nat (length (taskHistory (coordinator s)));
  ok_completed :
    tasksCompleted (performanceMetrics (coordinator s))
    = Z.of_nat (length (List.filter isCompleted (taskHistory (coordinator s))));
  ok_in_flight :
    size (activeTasks (coordinator s)) = length (pendingTasks s);
  ok_finished :
    forall t, In t (taskHistory (coordinator s)) -> is_Some (task_completedAt t);
  ok_average :
    averageCompletionTime (performanceMetrics (coordinator s)) <> NaN
}.

(** An agent as it may have become while the coordinator used it: the same
    name, role and skills, and no fewer local tasks. *)
Definition grownFrom (a a' : Agent) : Prop :=
  name a' = name a /\ role a' = role a /\ specialKnowledge a' = specialKnowledge a /\
  (size (currentTasks a) <= size (currentTasks a'))%nat.

(** The operations other than a registration, and the systems reached by
    them alone, as behind the gateway once it is initialised. *)
Definition isCall (op : Op) : bool :=
  match op with RegisterTeamAgent _ => false | _ => true end.

Inductive serves : System -> System -> Prop :=
| serves_here s : serves s s
| serves_step s op s' :
    isCall op = true -> admissible s op -> serves (fst (step s op)) s' -> serves s s'.

End Bookkeeping.

(** ** The API gateway

    The handlers of [POST /task], [GET /status/:taskId] and
    [POST /aggregate], which call the coordinator, and [initializeAgents].
    The variable [ceoAgent] of the gateway is [None] before it is
    assigned.  A request body is taken with fields that, where present,
    have the types the handlers expect: strings and arrays of strings. *)

(** The [agentConfigs] of [initializeAgents]. *)
Definition agentConfigs : list (string * string * list string) :=
  [ ("lil_SEO_Specialist", "SEO_Specialist",
      [ "Search Engine Optimization"; "Keyword Research"; "Technical SEO";
        "Content Optimization"; "SERP Analysis" ]);
    ("lil_Brand_Manager", "Brand_Manager",
      [ "Brand Strategy"; "Brand Identity"; "Brand Positioning"; "Brand Guidelines";
        "Brand Monitoring" ]);
    ("lil_Market_Analyst", "Market_Analyst",
      [ "Market Research"; "Competitive Analysis"; "Market Trends"; "Consumer Behavior";
        "Industry Analysis" ]);
    ("lil_Finance_Analyst", "Finance_Analyst",
      [ "Financial Analysis"; "Budget Planning"; "Cost Analysis"; "ROI Calculation";
        "Financial Forecasting" ]);
    ("lil_Product_Manager", "Product_Manager",
      [ "Product Strategy"; "Product Development"; "Feature Prioritization"; "User Research";
        "Product Roadmap" ]);
    ("lil_Marketing_Manager", "Marketing_Manager",
      [ "Marketing Strategy"; "Campaign Management"; "Digital Marketing";
        "Content Marketing"; "Marketing Analytics" ]);
    ("lil_Partnership_Manager", "Partnership_Manager",
      [ "Partnership Strategy"; "Business Development"; "Strategic Alliances";
        "Collaboration Management"; "Deal Negotiation" ]) ].

(** [initializeAgents]: a new coordinator, then one new agent per
    configuration, registered in this order.  The loading of the knowledge
    files, which catches its own errors, changes nothing that is modelled. *)
Definition initializeAgents : CEO :=
  fold_left (fun ceoAgent config =>
               registerTeamAgent (newAgent (fst (fst config)) (snd (fst config)) (snd config))
                 ceoAgent)
    agentConfigs newCEO.

(** What a response carries besides its flags and texts. *)
Inductive Payload : Type :=
| NoPayload
| TaskPayload (taskId assignedAgent result : option string)
| StatusPayload (task : Task)
| AggregatePayload (result : AggregateResult)
| RawPayload (raw_data : option AggregationData).

(** A response: the HTTP status and the properties of the JSON body;
    absent properties are [None]. *)
Record Response : Type := mkResponse {
  res_status : Z;
  res_success : option bool;
  res_error : option string;
  res_message : option string;
  res_taskId : option string;
  res_data : Payload;
  res_timestamp : option Z
}.

Definition notInitialized : Response :=
  mkResponse 503 None (Some "System not initialized") (Some "CEO agent not available")
    None NoPayload None.

(** The body of [POST /task]. *)
Record TaskBody : Type := mkTaskBody {
  body_description : option string;
  body_priority : option string;
  body_requiredSkills : option (list string)
}.

Definition validPriorities : list string := [ "high"; "medium"; "low" ].

(** [POST /task] up to the call of [assignTask]: a response, or the
    arguments of the call.  [!description] holds when the property is
    absent or the empty string. *)
Definition postTask_check (ceoAgent : option CEO) (body : TaskBody)
    : Response + (CEO * string * string * list string) :=
  match ceoAgent with
  | None => inl notInitialized
  | Some c =>
      let priority := default "medium" (body_priority body) in
      let requiredSkills := default [] (body_requiredSkills body) in
      match body_description body with
      | None | Some EmptyString =>
          inl (mkResponse 400 (Some false) (Some "Task description is required") None None
                 NoPayload None)
      | Some description =>
          if negb (existsb (String.eqb priority) validPriorities) then
            inl (mkResponse 400 (Some false)
                   (Some "Priority must be one of: high, medium, low") None None NoPayload None)
          else inr (c, description, priority, requiredSkills)
      end
  end.

(** [POST /task] once [assignTask] has settled. *)
Definition postTask_respond (settled : Completion SubmitResult) (now : Z) : Response :=
  match settled with
  | Normal result =>
      if sr_success result then
        mkResponse 201 (Some true) None (Some "Task assigned successfully") None
          (TaskPayload (sr_taskId result) (sr_assignedAgent result) (sr_result result))
          (Some now)
      else
        mkResponse 500 (Some false) (Some "Task assignment failed") (sr_error result)
          (sr_taskId result) NoPayload None
  | Throw message =>
      mkResponse 500 (Some false) (Some "Internal server error") (Some message) None
        NoPayload None
  end.

(** The body of [POST /aggregate]. *)
Record AggregateBody : Type := mkAggregateBody {
  body_taskIds : option (list string);
  body_aggregationType : option string
}.

(** [POST /aggregate] once [aggregateResults] has returned. *)
Definition postAggregate_respond (result : AggregateResult) (now : Z) : Response :=
  if ar_success result then
    mkResponse 200 (Some true) None None None (AggregatePayload result) (Some now)
  else
    mkResponse 400 (Some false) (Some "Aggregation failed") (ar_error result) None
      (RawPayload (ar_raw_data result)) None.

Section Gateway.

Context {builtins : Builtins}.

(** [POST /task] with nothing interleaved at its await: the response and
    the coordinator afterwards. *)
Definition postTask (ceoAgent : option CEO) (body : TaskBody) (benv : BeginEnv)
    (renv : ResumeEnv) (now : Z) : Response * option CEO :=
  match postTask_check ceoAgent body with
  | inl response => (response, ceoAgent)
  | inr (c, description, priority, requiredSkills) =>
      match assignTask benv renv c description priority requiredSkills with
      | Normal (result, c') => (postTask_respond (Normal result) now, Some c')
      | Throw message => (postTask_respond (Throw message) now, Some c)
      end
  end.

(** [GET /status/:taskId]. *)
Definition getStatusRoute (ceoAgent : option CEO) (taskId : string) (now : Z) : Response :=
  match ceoAgent with
  | None => notInitialized
  | Some c =>
      match getTaskStatus c taskId with
      | TaskFound task =>
          mkResponse 200 (Some true) None None None (StatusPayload task) (Some now)
      | TaskNotFound _ =>
          mkResponse 404 (Some false) (Some "Task not found") None (Some taskId) NoPayload None
      end
  end.

(** [POST /aggregate] with nothing interleaved at its await. *)
Definition postAggregate (ceoAgent : option CEO) (body : AggregateBody)
    (env : AggregationEnv) (outcome : ServiceOutcome) (completionTime now : Z)
    : Response * option CEO :=
  match ceoAgent with
  | None => (notInitialized, None)
  | Some c =>
      match body_taskIds body with
      | None | Some [] =>
          (mkResponse 400 (Some false)
             (Some "taskIds array is required and must not be empty") None None NoPayload None,
           ceoAgent)
      | Some (taskId :: taskIds) =>
          let aggregationType := default "summary" (body_aggregationType body) in
          let '(result, c') :=
            aggregateResults env outcome completionTime c (taskId :: taskIds)
              aggregationType in
          (postAggregate_respond result now, Some c')
      end
  end.

End Gateway.

(** The system behind the gateway once [initializeAgents] has run. *)
Definition gatewaySystem : System := mkSystem initializeAgents [] [].

(** A body [POST /task] lets through: a description that is not empty and
    a priority that is absent or one of the three. *)
Definition acceptedBody (body : TaskBody) (description priority : string) : Prop :=
  body_description body = Some description /\ description <> EmptyString /\
  priority = default "medium" (body_priority body) /\ In priority validPriorities.

(** The hours [calculateDeadline] allows for a priority of the gateway. *)
Definition hoursOf (priority : string) : Z :=
  if String.eqb priority "high" then 2 else if String.eqb priority "low" then 72 else 24.

(** A request for a budget estimate with the priority left out. *)
Definition budgetBody : TaskBody :=
  mkTaskBody (Some "Estimate the budget") None (Some ["Budget"]).

(** The environment of a third task. *)
Definition thirdBegin : BeginEnv := mkBeginEnv "task-3" 90000 90001 90002.
Definition thirdResume : ResumeEnv := mkResumeEnv (Resolved "Market report") 95000 95001.

(** The gateway while it serves: a first and a second task have been
    submitted, the first has been completed and returned, the second is
    still awaiting its agent. *)
Definition gatewayServing : System :=
  fst (step (builtins := asciiBuiltins)
         (fst (step (builtins := asciiBuiltins)
            (fst (step (builtins := asciiBuiltins)
               (fst (step (builtins := asciiBuiltins) gatewaySystem
                       (AssignTask firstBegin "Estimate the budget" "high" ["Budget"])))
               (AssignTask secondBegin "Estimate the cost" "low" [])))
            (SettleAssignTask 0 (Resolved "Budget estimate") 61000)))
         (ResumeAssignTask 0 61001)).

(** ** telegram_bot/bot.js

    The dialogue by which the bot collects a task and submits it to the
    gateway.  A message the bot sends is identified by its template and
    the values it interpolates; [sendMessage] is not awaited, so that a
    failure to send does not change what the handlers do. *)

Inductive SessionState : Type := awaiting_task_description | selecting_priority.

(** The [taskData] of a session; [requiredSkills] is never set. *)
Record TaskData : Type := mkTaskData {
  td_description : option string;
  td_priority : option string
}.

Record Session : Type := mkSession {
  session_state : SessionState;
  session_taskData : TaskData
}.

Inductive BotMessage : Type :=
| AskDescription
| UseTaskCommand
| AskPriority
| NotUnderstood
| Submitting
| TaskSubmitted (taskId assignedAgent priority : option string) (preview : string)
| SubmissionFailed (reason : option string)
| ConnectionError
| OperationCancelled
| NothingToCancel.

(** The bot: its [userSessions], keyed by chat id, and the messages sent
    so far, each with its chat. *)
Record Bot : Type := mkBot {
  userSessions : gmap Z Session;
  outbox : list (Z * BotMessage)
}.

Definition sendMessage (chatId : Z) (message : BotMessage) (b : Bot) : Bot :=
  mkBot (userSessions b) (outbox b ++ [(chatId, message)]).

Definition initiateTaskSubmission (chatId : Z) (b : Bot) : Bot :=
  sendMessage chatId AskDescription
    (mkBot (<[chatId := mkSession awaiting_task_description (mkTaskData None None)]>
              (userSessions b))
       (outbox b)).

Definition handleTextMessage (chatId : Z) (text : string) (b : Bot) : Bot :=
  match userSessions b !! chatId with
  | None => sendMessage chatId UseTaskCommand b
  | Some session =>
      match session_state session with
      | awaiting_task_description =>
          sendMessage chatId AskPriority
            (mkBot (<[chatId := mkSession selecting_priority
                                  (mkTaskData (Some text)
                                     (td_priority (session_taskData session)))]>
                      (userSessions b))
               (outbox b))
      | selecting_priority => sendMessage chatId NotUnderstood b
      end
  end.

(** The literal parts of the regular expressions registered with
    [onText]: [/\/start/], [/\/help/], [/\/task/], [/\/status (.+)/],
    [/\/agents/], [/\/report/] and [/\/cancel/].  None of them is anchored:
    a command's handler runs on every text in which its expression matches
    somewhere, so that a text that merely contains [/task] or [/cancel]
    also opens a session afresh or deletes it. *)
Definition commandPatterns : list string :=
  [ "/start"; "/help"; "/task"; "/status "; "/agents"; "/report"; "/cancel" ].

(** The text contains the literal part of a command's expression.  A text
    for which this is [false] is matched by none of the expressions, and
    no command handler runs on it. *)
Definition mentionsCommand (text : string) : bool :=
  existsb (includes text) commandPatterns.

(** The listener of [message] events, alone: a message without text, or
    whose text starts with a slash, it leaves to the command handlers.  It
    is all the bot does with a text only when the text mentions no
    command; on a text that does, the handlers of the commands run as
    well, which this function leaves out. *)
Definition onMessage (chatId : Z) (text : option string) (b : Bot) : Bot :=
  match text with
  | None | Some EmptyString => b
  | Some text => if String.prefix "/" text then b else handleTextMessage chatId text b
  end.

Definition cancelOperation (chatId : Z) (b : Bot) : Bot :=
  match userSessions b !! chatId with
  | Some _ =>
      sendMessage chatId OperationCancelled
        (mkBot (delete chatId (userSessions b)) (outbox b))
  | None => sendMessage chatId NothingToCancel b
  end.

(** What [fetch] followed by [response.json()] gives: the body of the
    gateway's response, or an exception. *)
Inductive FetchOutcome : Type :=
| Replied (result : Response)
| FetchFailed.

(** The body [submitTask] posts: [JSON.stringify] leaves out a property
    that is undefined. *)
Definition requestBody (taskData : TaskData) : TaskBody :=
  mkTaskBody (td_description taskData) (td_priority taskData) (Some []).

(** [text.substring(0, 500)] followed by an ellipsis for a longer text. *)
Definition preview (text : string) : string :=
  String.substring 0 500 text
  ++ (if Nat.ltb 500 (String.length text) then "..." else EmptyString).

(** [result.error || result.message]. *)
Definition firstTruthy (error message : option string) : option string :=
  match error with
  | Some (String ch rest) => error
  | _ => message
  end.

(** The message by which [submitTask] tells the outcome.  Reading
    [result.data.result.substring] of a response without a text throws
    into the [catch] block, as a failure of [fetch] does. *)
Definition outcomeMessage (taskData : TaskData) (fetched : FetchOutcome) : BotMessage :=
  match fetched with
  | Replied result =>
      match res_success result with
      | Some true =>
          match res_data result with
          | TaskPayload taskId assignedAgent (Some text) =>
              TaskSubmitted taskId assignedAgent (td_priority taskData) (preview text)
          | _ => ConnectionError
          end
      | _ => SubmissionFailed (firstTruthy (res_error result) (res_message result))
      end
  | FetchFailed => ConnectionError
  end.

(** [submitTask]: the announcement, the request, the message that tells
    the outcome, and in every case the removal of the session. *)
Definition submitTask (chatId : Z) (taskData : TaskData) (fetched : FetchOutcome) (b : Bot)
    : Bot :=
  let b1 := sendMessage chatId Submitting b in
  let b2 := sendMessage chatId (outcomeMessage taskData fetched) b1 in
  mkBot (delete chatId (userSessions b2)) (outbox b2).

(** [data.replace('priority_', '')] for a [data] that starts with it. *)
Fixpoint dropChars (n : nat) (s : string) : string :=
  match n, s with
  | O, _ => s
  | S n', String _ rest => dropChars n' rest
  | S _, EmptyString => EmptyString
  end.

(** The session of a chat once it holds a priority button's choice. *)
Definition chosen (session : Session) (data : string) : Session :=
  mkSession (session_state session)
    (mkTaskData (td_description (session_taskData session)) (Some (dropChars 9 data))).

(** The body [handleCallbackQuery] has [submitTask] post, if any. *)
Definition callbackRequest (chatId : Z) (data : string) (b : Bot) : option TaskBody :=
  match userSessions b !! chatId with
  | None => None
  | Some session =>
      if String.prefix "priority_" data
      then Some (requestBody (session_taskData (chosen session data)))
      else None
  end.

(** [handleCallbackQuery] with nothing interleaved at its awaits.
    [answered] tells whether [answerCallbackQuery] was fulfilled; when it
    is rejected the handler ends there, with the priority stored. *)
Definition handleCallbackQuery (chatId : Z) (data : string) (answered : bool)
    (fetched : FetchOutcome) (b : Bot) : Bot :=
  match userSessions b !! chatId with
  | None => b
  | Some session =>
      if String.prefix "priority_" data then
        let b1 := mkBot (<[chatId := chosen session data]> (userSessions b)) (outbox b) in
        if answered
        then submitTask chatId (session_taskData (chosen session data)) fetched b1
        else b1
      else b
  end.

(** * Properties *)

Section Properties.

Context {builtins : Builtins}.


(** ** Selection *)

Lemma orElse_bonus b : orElse (OwnNumber (bonus b)) 0 = Num (bonus b).
Proof. destruct b; reflexivity. Qed.

Lemma calculateRoleScore_plain role taskDescription :
  inheritedName role = false ->
  calculateRoleScore role taskDescription = Num (roleBonus role taskDescription).
Proof.
  intros Hplain. unfold calculateRoleScore, roleBonus, roleKeywords, getMember, roleScores.
  cbn [ownProperty].
  repeat (match goal with
          | |- context [String.eqb ?k role] =>
              destruct (String.eqb k role) eqn:?;
              [ rewrite orElse_bonus; cbn [existsb]; rewrite ?orb_false_r, ?orb_assoc;
                reflexivity | ]
          end).
  rewrite Hplain. reflexivity.
Qed.

Lemma calculateRoleScore_inherited role taskDescription :
  inheritedName role = true ->
  calculateRoleScore role taskDescription = NonNumeric.
Proof.
  intros Hin. unfold calculateRoleScore, getMember.
  assert (Hown : ownProperty (roleScores (toLowerCase taskDescription)) role = None).
  { unfold roleScores. cbn [ownProperty].
    repeat (match goal with
            | |- context [String.eqb ?k role] =>
                destruct (String.eqb k role) eqn:?;
                [ match goal with
                  | H : String.eqb _ role = true |- _ =>
                      apply String.eqb_eq in H; subst role; discriminate Hin
                  end | ]
            end).
    reflexivity. }
  rewrite Hown, Hin. reflexivity.
Qed.

Lemma skillScore_from agent requiredSkills start :
  fold_left (fun score skill => if skillMatches agent skill then score + 10 else score)
    requiredSkills start
  = start + 10 * Z.of_nat (matchedSkills agent requiredSkills).
Proof.
  unfold matchedSkills. revert start.
  induction requiredSkills as [|skill rest IH]; intros start; cbn [fold_left List.filter].
  - cbn. lia.
  - rewrite IH. destruct (skillMatches agent skill); cbn [length]; lia.
Qed.

(** For an agent whose role names no inherited member the score computed
    by [selectBestAgent] is the one the specification words. *)
Lemma scoreAgent_points requiredSkills taskDescription agent :
  inheritedName (role agent) = false ->
  scoreAgent requiredSkills taskDescription agent
  = (agent, Num (points requiredSkills taskDescription agent)).
Proof.
  intros Hplain. unfold scoreAgent, points, skillScore.
  rewrite skillScore_from, (calculateRoleScore_plain _ _ Hplain). reflexivity.
Qed.

Lemma insertSorted_head x l :
  List.head (insertSorted x l)
  = match List.head l with
    | None => Some x
    | Some y => if movesBehind x y then Some y else Some x
    end.
Proof. destruct l as [|y rest]; cbn; [reflexivity|]. destruct (movesBehind x y); reflexivity. Qed.

Lemma sort_head l : List.head (sort l) = firstBest l.
Proof.
  induction l as [|x rest IH]; [reflexivity|].
  cbn [sort fold_right firstBest]. rewrite insertSorted_head.
  fold (sort rest). rewrite IH. reflexivity.
Qed.

Lemma firstBest_In l y : firstBest l = Some y -> In y l.
Proof.
  revert y. induction l as [|x rest IH]; intros y; cbn [firstBest]; [discriminate|].
  destruct (firstBest rest) as [z|].
  - destruct (movesBehind x z); intros [= <-]; [right; apply IH; reflexivity | left; reflexivity].
  - intros [= <-]. left; reflexivity.
Qed.

Lemma firstBest_nonempty x rest : firstBest (x :: rest) <> None.
Proof. cbn. destruct (firstBest rest) as [y|]; [destruct (movesBehind x y)|]; discriminate. Qed.

Lemma movesBehind_numeric (pts : Agent -> Z) a b :
  movesBehind (a, Num (pts a)) (b, Num (pts b)) = (pts a <? pts b).
Proof.
  unfold movesBehind, compareFn. cbn.
  destruct (pts a <? pts b) eqn:H; [apply Z.ltb_lt in H; apply Z.ltb_lt; lia|].
  apply Z.ltb_ge in H. apply Z.ltb_ge. lia.
Qed.

Lemma firstBest_scored_In (pts : Agent -> Z) agents y :
  firstBest (scoredWith pts agents) = Some y ->
  exists a, In a agents /\ y = (a, Num (pts a)).
Proof.
  intros H. apply firstBest_In in H. apply in_map_iff in H as (a & <- & Ha). eauto.
Qed.

(** The first agent of the highest score wins: those before it score
    strictly less, those after it score no more. *)
Lemma firstBest_first_highest (pts : Agent -> Z) before w after :
  (forall a, In a before -> pts a < pts w) ->
  (forall a, In a after -> pts a <= pts w) ->
  firstBest (scoredWith pts (before ++ w :: after)) = Some (w, Num (pts w)).
Proof.
  intros Hbefore Hafter. induction before as [|b before IH].
  - cbn [app scoredWith List.map firstBest].
    destruct (firstBest (List.map _ after)) as [y|] eqn:Hy; [|reflexivity].
    apply (firstBest_scored_In pts) in Hy as (a & Ha & ->).
    rewrite movesBehind_numeric.
    destruct (pts w <? pts a) eqn:Hlt; [|reflexivity].
    apply Z.ltb_lt in Hlt. specialize (Hafter a Ha). lia.
  - cbn [app scoredWith List.map firstBest].
    change (List.map (fun agent => (agent, Num (pts agent))) (before ++ w :: after))
      with (scoredWith pts (before ++ w :: after)).
    rewrite IH by (intros a Ha; apply Hbefore; right; exact Ha).
    rewrite movesBehind_numeric.
    assert (pts b < pts w) as ->%Z.ltb_lt by (apply Hbefore; left; reflexivity).
    reflexivity.
Qed.

(** Every non-empty list has a first agent of the highest score. *)
Lemma first_highest_exists (pts : Agent -> Z) agents :
  agents <> [] ->
  exists before w after,
    agents = (before ++ w :: after)%list /\
    (forall a, In a before -> pts a < pts w) /\
    (forall a, In a after -> pts a <= pts w).
Proof.
  induction agents as [|x rest IH]; [congruence|]. intros _.
  destruct rest as [|y rest'].
  - exists [], x, []. repeat split; intros a [].
  - destruct IH as (before & w & after & Heq & Hb & Ha); [discriminate|].
    destruct (Z.ltb_spec (pts x) (pts w)) as [Hlt|Hge].
    + exists (x :: before), w, after. rewrite Heq. repeat split; [|exact Ha].
      intros a [<-|Hin]; [exact Hlt | apply Hb, Hin].
    + exists [], x, (y :: rest'). repeat split; [intros a []|].
      rewrite Heq. intros a Hin. apply in_app_or in Hin as [Hin|[<-|Hin]].
      * specialize (Hb a Hin). lia.
      * exact Hge.
      * specialize (Ha a Hin). lia.
Qed.

Lemma map_scoreAgent_plain requiredSkills taskDescription agents :
  plainRoles agents ->
  List.map (scoreAgent requiredSkills taskDescription) agents
  = scoredWith (points requiredSkills taskDescription) agents.
Proof.
  induction 1 as [|a rest Ha _ IH]; [reflexivity|].
  cbn [List.map]. rewrite IH, (scoreAgent_points _ _ _ Ha). reflexivity.
Qed.

Lemma selectBestAgent_scoring c requiredSkills taskDescription :
  availableAgents c <> [] ->
  selectBestAgent c requiredSkills taskDescription
  = Normal (option_map fst
              (firstBest (List.map (scoreAgent requiredSkills taskDescription)
                            (availableAgents c)))).
Proof.
  unfold selectBestAgent, availableAgents.
  destruct (List.filter _ (teamAgents c)) as [|a rest] eqn:Hfilter; [congruence|]. intros _.
  pose proof (sort_head (List.map (scoreAgent requiredSkills taskDescription) (a :: rest))) as Hhead.
  destruct (sort _) as [|best sorted].
  - exfalso.
    apply (firstBest_nonempty (scoreAgent requiredSkills taskDescription a)
             (List.map (scoreAgent requiredSkills taskDescription) rest)).
    symmetry. exact Hhead.
  - rewrite <- Hhead. reflexivity.
Qed.

Lemma fold_lessBusy_In rest first :
  In (fold_left lessBusy rest first) (first :: rest).
Proof.
  revert first. induction rest as [|a rest IH]; intros first; cbn [fold_left].
  - left; reflexivity.
  - destruct (IH (lessBusy first a)) as [H|H].
    + rewrite <- H. unfold lessBusy.
      destruct (Nat.ltb _ _); [right; left; reflexivity | left; reflexivity].
    + right; right; exact H.
Qed.

(** Selection throws on an empty registry and otherwise returns a
    registered agent; the falsy result never occurs. *)
Lemma selectBestAgent_cases c requiredSkills taskDescription :
  (teamAgents c = [] /\
   selectBestAgent c requiredSkills taskDescription = Throw reduceEmptyError) \/
  (exists agent, In agent (teamAgents c) /\
   selectBestAgent c requiredSkills taskDescription = Normal (Some agent)).
Proof.
  destruct (availableAgents c) as [|a rest] eqn:Havailable.
  - unfold selectBestAgent. unfold availableAgents in Havailable. rewrite Havailable.
    destruct (teamAgents c) as [|first others]; [left; split; reflexivity|].
    right. eexists; split; [apply fold_lessBusy_In | reflexivity].
  - right. rewrite selectBestAgent_scoring by (rewrite Havailable; discriminate).
    destruct (firstBest _) as [y|] eqn:Hy.
    + exists (fst y). split; [|reflexivity].
      apply firstBest_In in Hy. apply in_map_iff in Hy as (b & <- & Hb).
      unfold availableAgents in Hb. apply filter_In in Hb as [Hb _]. exact Hb.
    + exfalso. rewrite Havailable in Hy. revert Hy. apply firstBest_nonempty.
Qed.

(** Selection has two outcomes: with no agent registered it throws, and
    otherwise it returns a registered agent; it never returns a falsy value. *)
Theorem selectBestAgent_outcomes c requiredSkills taskDescription :
  (teamAgents c = [] /\
   selectBestAgent c requiredSkills taskDescription = Throw reduceEmptyError) \/
  (exists agent, In agent (teamAgents c) /\
   selectBestAgent c requiredSkills taskDescription = Normal (Some agent)).
Proof. apply selectBestAgent_cases. Qed.

Lemma selectBestAgent_nonempty c requiredSkills taskDescription :
  teamAgents c <> [] ->
  exists agent, In agent (teamAgents c) /\
    selectBestAgent c requiredSkills taskDescription = Normal (Some agent).
Proof.
  intros Hteam. destruct (selectBestAgent_cases c requiredSkills taskDescription)
    as [[Hempty _]|H]; [contradiction | exact H].
Qed.

(** For idle agents whose roles name no inherited member, every score is
    the one the specification words, and the agent returned is an idle
    agent of the highest score. *)
Theorem selectBestAgent_highest_score c requiredSkills taskDescription :
  availableAgents c <> [] ->
  plainRoles (availableAgents c) ->
  exists w,
    selectBestAgent c requiredSkills taskDescription = Normal (Some w) /\
    In w (availableAgents c) /\
    forall a, In a (availableAgents c) ->
      snd (scoreAgent requiredSkills taskDescription a)
      = Num (points requiredSkills taskDescription a) /\
      points requiredSkills taskDescription a <= points requiredSkills taskDescription w.
Proof.
  intros Hsome Hplain.
  destruct (first_highest_exists (points requiredSkills taskDescription) _ Hsome)
    as (before & w & after & Hsplit & Hbefore & Hafter).
  exists w. split; [|split].
  - rewrite selectBestAgent_scoring by exact Hsome.
    rewrite (map_scoreAgent_plain _ _ _ Hplain), Hsplit.
    rewrite firstBest_first_highest by assumption. reflexivity.
  - rewrite Hsplit. apply in_elt.
  - intros a Ha. split.
    + rewrite scoreAgent_points; [reflexivity|].
      unfold plainRoles in Hplain. rewrite List.Forall_forall in Hplain. apply Hplain, Ha.
    + rewrite Hsplit in Ha. apply in_app_or in Ha as [Ha|[<-|Ha]].
      * specialize (Hbefore a Ha). lia.
      * lia.
      * apply Hafter, Ha.
Qed.

(** *** The model of [Array.prototype.sort] is the stable sort *)

Lemma insertSorted_Permutation x l : Permutation (insertSorted x l) (x :: l).
Proof.
  induction l as [|y rest IH]; [reflexivity|]. cbn [insertSorted].
  destruct (movesBehind x y); [|reflexivity].
  rewrite IH. apply perm_swap.
Qed.

Lemma sort_Permutation l : Permutation (sort l) l.
Proof.
  induction l as [|x rest IH]; [reflexivity|].
  cbn [sort fold_right]. rewrite insertSorted_Permutation. apply perm_skip, IH.
Qed.

Lemma insertSorted_scored (pts : Agent -> Z) x agents :
  exists agents', insertSorted (x, Num (pts x)) (scoredWith pts agents) = scoredWith pts agents'.
Proof.
  induction agents as [|y rest [agents' IH]]; [exists [x]; reflexivity|].
  cbn [scoredWith List.map insertSorted].
  destruct (movesBehind _ _).
  - exists (y :: agents'). cbn [scoredWith List.map]. f_equal. exact IH.
  - exists (x :: y :: rest). reflexivity.
Qed.

Lemma sort_cons_scored (pts : Agent -> Z) x rest :
  sort (scoredWith pts (x :: rest))
  = insertSorted (x, Num (pts x)) (sort (scoredWith pts rest)).
Proof. reflexivity. Qed.

Lemma sort_scored (pts : Agent -> Z) agents :
  exists agents', sort (scoredWith pts agents) = scoredWith pts agents'.
Proof.
  induction agents as [|x rest [agents' IH]]; [exists []; reflexivity|].
  rewrite sort_cons_scored, IH. apply insertSorted_scored.
Qed.

Lemma insertSorted_descending (pts : Agent -> Z) x agents :
  descending pts (scoredWith pts agents) ->
  descending pts (insertSorted (x, Num (pts x)) (scoredWith pts agents)).
Proof.
  unfold descending. induction agents as [|y rest IH]; intros Hsorted.
  - repeat constructor.
  - cbn [scoredWith List.map insertSorted]. rewrite movesBehind_numeric.
    apply StronglySorted_inv in Hsorted as [Hrest Hy].
    destruct (Z.ltb_spec (pts x) (pts y)) as [Hlt|Hge].
    + constructor; [apply IH, Hrest|].
      apply List.Forall_forall. intros z Hz.
      apply (Permutation_in _ (insertSorted_Permutation _ _)) in Hz as [<-|Hz].
      * cbn. lia.
      * rewrite List.Forall_forall in Hy. apply Hy, Hz.
    + constructor; [constructor; assumption|].
      constructor; [cbn; lia|].
      rewrite List.Forall_forall in *. intros z Hz. specialize (Hy z Hz). cbn in *. lia.
Qed.

Lemma insertSorted_filter (pts : Agent -> Z) v x agents :
  List.filter (fun a => pts (fst a) =? v) (insertSorted (x, Num (pts x)) (scoredWith pts agents))
  = List.filter (fun a => pts (fst a) =? v) ((x, Num (pts x)) :: scoredWith pts agents).
Proof.
  induction agents as [|y rest IH]; [reflexivity|].
  cbn [scoredWith List.map insertSorted]. rewrite movesBehind_numeric.
  destruct (Z.ltb_spec (pts x) (pts y)) as [Hlt|Hge]; [|reflexivity].
  cbn [List.filter fst]. fold (scoredWith pts rest). rewrite IH. cbn [List.filter fst].
  destruct (Z.eqb_spec (pts y) v) as [Hy|Hy]; destruct (Z.eqb_spec (pts x) v) as [Hx|Hx];
    try reflexivity.
  lia.
Qed.

(** On numeric scores [sort] permutes its list, orders it by descending
    score and keeps the agents of one score in their order: it is the
    stable sort by the comparator. *)
Theorem sort_is_stable_sort (pts : Agent -> Z) agents :
  Permutation (sort (scoredWith pts agents)) (scoredWith pts agents) /\
  descending pts (sort (scoredWith pts agents)) /\
  forall v,
    List.filter (fun a => pts (fst a) =? v) (sort (scoredWith pts agents))
    = List.filter (fun a => pts (fst a) =? v) (scoredWith pts agents).
Proof.
  split; [apply sort_Permutation|]. split.
  - induction agents as [|x rest IH]; [constructor|].
    rewrite sort_cons_scored. destruct (sort_scored pts rest) as [agents' Heq].
    rewrite Heq in *. apply insertSorted_descending, IH.
  - intros v. induction agents as [|x rest IH]; [reflexivity|].
    rewrite sort_cons_scored. destruct (sort_scored pts rest) as [agents' Heq].
    rewrite Heq in *. rewrite insertSorted_filter.
    cbn [scoredWith List.map List.filter]. fold (scoredWith pts rest).
    fold (scoredWith pts agents'). rewrite IH. reflexivity.
Qed.

(** *** The fallback when no agent is idle *)

Lemma fold_lessBusy_keeps l acc :
  (forall a, In a l -> (size (currentTasks acc) <= size (currentTasks a))%nat) ->
  fold_left lessBusy l acc = acc.
Proof.
  revert acc. induction l as [|b l IH]; intros acc Hle; [reflexivity|].
  cbn [fold_left]. unfold lessBusy at 2.
  assert (Hb : (size (currentTasks acc) <= size (currentTasks b))%nat)
    by (apply Hle; left; reflexivity).
  apply Nat.ltb_ge in Hb. rewrite Hb.
  apply IH. intros a Ha. apply Hle. right. exact Ha.
Qed.

Lemma fold_lessBusy_first_fewest before w after acc :
  (forall a, In a (acc :: before) -> (size (currentTasks w) < size (currentTasks a))%nat) ->
  (forall a, In a after -> (size (currentTasks w) <= size (currentTasks a))%nat) ->
  fold_left lessBusy (before ++ w :: after) acc = w.
Proof.
  revert acc. induction before as [|b before IH]; intros acc Hbefore Hafter.
  - cbn [app fold_left]. unfold lessBusy at 2.
    assert (Hw : (size (currentTasks w) < size (currentTasks acc))%nat)
      by (apply Hbefore; left; reflexivity).
    apply Nat.ltb_lt in Hw. rewrite Hw. apply fold_lessBusy_keeps, Hafter.
  - cbn [app fold_left]. apply IH; [|exact Hafter].
    intros a [<-|Ha].
    + unfold lessBusy. destruct (Nat.ltb _ _); apply Hbefore; [right; left | left]; reflexivity.
    + apply Hbefore. right. right. exact Ha.
Qed.

(** With agents registered and none idle, the first agent with the fewest
    current tasks is returned, whatever its status. *)
Theorem selectBestAgent_least_busy c requiredSkills taskDescription before w after :
  availableAgents c = [] ->
  teamAgents c = (before ++ w :: after)%list ->
  (forall a, In a before -> (size (currentTasks w) < size (currentTasks a))%nat) ->
  (forall a, In a after -> (size (currentTasks w) <= size (currentTasks a))%nat) ->
  selectBestAgent c requiredSkills taskDescription = Normal (Some w).
Proof.
  intros Hnone Hsplit Hbefore Hafter. unfold selectBestAgent.
  unfold availableAgents in Hnone. rewrite Hnone, Hsplit.
  destruct before as [|first before]; cbn [app]; do 2 f_equal.
  - apply fold_lessBusy_keeps, Hafter.
  - apply fold_lessBusy_first_fewest; [|exact Hafter].
    intros a Ha. apply Hbefore, Ha.
Qed.

(** ** What the two halves of [assignTask] do to the ledger *)

Lemma assignTask_begin_cases env c taskDescription priority requiredSkills :
  (teamAgents c = [] /\
   assignTask_begin env c taskDescription priority requiredSkills
   = Thrown reduceEmptyError) \/
  (exists agent c',
     In agent (teamAgents c) /\
     selectBestAgent c requiredSkills taskDescription = Normal (Some agent) /\
     assignTask_begin env c taskDescription priority requiredSkills
     = Suspended (mkPendingTask (createdTask env taskDescription priority requiredSkills agent)
                    agent None) c' /\
     self c' = self c /\
     activeTasks c'
     = <[env_taskId env := createdTask env taskDescription priority requiredSkills agent]>
         (activeTasks c) /\
     taskHistory c' = taskHistory c /\
     tasksAssigned (performanceMetrics c') = tasksAssigned (performanceMetrics c) + 1 /\
     tasksCompleted (performanceMetrics c') = tasksCompleted (performanceMetrics c) /\
     averageCompletionTime (performanceMetrics c')
     = averageCompletionTime (performanceMetrics c) /\
     successRate (performanceMetrics c') = successRate (performanceMetrics c)).
Proof.
  unfold assignTask_begin.
  destruct (selectBestAgent_cases c requiredSkills taskDescription)
    as [[Hempty ->]|(agent & Hin & ->)].
  - left. split; [exact Hempty | reflexivity].
  - right. exists agent. eexists. split; [exact Hin|]. split; [reflexivity|].
    split; [reflexivity|]. cbn. repeat split; reflexivity.
Qed.

Lemma terminalTask_id task completedAt completion :
  task_id (terminalTask task completedAt completion) = task_id task.
Proof. destruct completion; reflexivity. Qed.

Lemma assignTask_settle_ledger p outcome completionTime c :
  let c' := snd (assignTask_settle p outcome completionTime c) in
  self c' = self c /\ activeTasks c' = activeTasks c /\
  taskHistory c' = taskHistory c /\ performanceMetrics c' = performanceMetrics c.
Proof. repeat split. Qed.

Lemma assignTask_resume_ledger p completion completedAt c :
  let r := fst (assignTask_resume p completion completedAt c) in
  let c' := snd (assignTask_resume p completion completedAt c) in
  sr_taskId r = Some (pendingId p) /\
  self c' = self c /\
  teamAgents c' = teamAgents c /\
  activeTasks c' = delete (pendingId p) (activeTasks c) /\
  taskHistory c'
  = (taskHistory c ++ [terminalTask (pt_task p) completedAt completion])%list.
Proof. unfold assignTask_resume, pendingId. destruct completion; repeat split. Qed.

Lemma rate_bounds (k n : nat) :
  (k <= n)%nat -> (0 < n)%nat -> (0 <= ofNat k / ofNat n * 100 <= 100)%Q.
Proof.
  intros Hk Hn. unfold ofNat. destruct n as [|n]; [lia|].
  assert (Hpos : (0 < inject_Z (Z.of_nat (S n)))%Q).
  { rewrite <- (Zlt_Qlt 0). lia. }
  assert (Hk0 : (0 <= inject_Z (Z.of_nat k))%Q).
  { rewrite <- (Zle_Qle 0). lia. }
  assert (Hkn : (inject_Z (Z.of_nat k) <= inject_Z (Z.of_nat (S n)))%Q).
  { rewrite <- Zle_Qle. lia. }
  split.
  - apply Qmult_le_0_compat; [|discriminate].
    apply Qle_shift_div_l; [exact Hpos|]. rewrite Qmult_0_l. exact Hk0.
  - apply Qle_trans with (1 * 100)%Q; [|discriminate].
    apply Qmult_le_compat_r; [|discriminate].
    apply Qle_shift_div_r; [exact Hpos|]. rewrite Qmult_1_l. exact Hkn.
Qed.

Lemma updatePerformanceMetrics_rate c :
  (0 <= successRate (performanceMetrics (updatePerformanceMetrics c)) <= 100)%Q.
Proof.
  unfold updatePerformanceMetrics. cbn [performanceMetrics successRate].
  destruct (Nat.ltb 0 (length (taskHistory c))) eqn:Hlen.
  - apply Nat.ltb_lt in Hlen. apply rate_bounds; [apply List.filter_length_le | exact Hlen].
  - split; discriminate.
Qed.

Lemma assignTask_resume_rate p completion completedAt c :
  (0 <= successRate (performanceMetrics c) <= 100)%Q ->
  (0 <= successRate (performanceMetrics (snd (assignTask_resume p completion completedAt c)))
   <= 100)%Q.
Proof.
  intros Hrate. unfold assignTask_resume. destruct completion as [result|message].
  - cbn [snd]. apply updatePerformanceMetrics_rate.
  - exact Hrate.
Qed.

(** ** The ledger stays in good order *)

Lemma removeAt_split {A : Type} (l : list A) i x :
  nth_error l i = Some x ->
  exists l1 l2, l = (l1 ++ x :: l2)%list /\ removeAt i l = (l1 ++ l2)%list.
Proof.
  revert i. induction l as [|y l IH]; intros [|i] H; try discriminate.
  - injection H as ->. exists [], l. split; reflexivity.
  - destruct (IH i H) as (l1 & l2 & -> & Hrm).
    exists (y :: l1), l2. split; [reflexivity|].
    unfold removeAt in *. cbn. f_equal. exact Hrm.
Qed.

Lemma replaceAt_split {A : Type} (l : list A) i x y :
  nth_error l i = Some x ->
  exists l1 l2, l = (l1 ++ x :: l2)%list /\ replaceAt i y l = (l1 ++ y :: l2)%list.
Proof.
  revert i. induction l as [|z l IH]; intros [|i] H; try discriminate.
  - injection H as ->. exists [], l. split; reflexivity.
  - destruct (IH i H) as (l1 & l2 & -> & Hrp).
    exists (z :: l1), l2. split; [reflexivity|].
    unfold replaceAt in *. cbn. f_equal. exact Hrp.
Qed.

Lemma ledgerOk_initial : ledgerOk initial.
Proof.
  constructor; cbn.
  - constructor.
  - intros p [].
  - intros taskId t H. rewrite lookup_empty in H. discriminate.
  - intros taskId [].
  - constructor.
  - intros t [].
  - split; discriminate.
Qed.

Lemma ledgerOk_same_ledger s s' :
  ledgerOk s ->
  pendingTasks s' = pendingTasks s ->
  activeTasks (coordinator s') = activeTasks (coordinator s) ->
  taskHistory (coordinator s') = taskHistory (coordinator s) ->
  successRate (performanceMetrics (coordinator s'))
  = successRate (performanceMetrics (coordinator s)) ->
  ledgerOk s'.
Proof.
  intros [H1 H2 H3 H4 H5 H6 H7] Hp Ha Hh Hr.
  constructor; unfold historyIds in *; rewrite ?Hp, ?Ha, ?Hh, ?Hr; assumption.
Qed.

Lemma assign_suspended_ledgerOk s env task agent c' :
  ledgerOk s ->
  freshId (coordinator s) (env_taskId env) ->
  task_id task = env_taskId env ->
  task_status task = assigned ->
  task_result task = None ->
  activeTasks c' = <[env_taskId env := task]> (activeTasks (coordinator s)) ->
  taskHistory c' = taskHistory (coordinator s) ->
  successRate (performanceMetrics c') = successRate (performanceMetrics (coordinator s)) ->
  ledgerOk (mkSystem c' (pendingTasks s ++ [mkPendingTask task agent None])
              (pendingAggregations s)).
Proof.
  intros [H1 H2 H3 H4 H5 H6 H7] [Hfresh Hnew] Hid Hstatus Hresult Ha Hh Hr.
  assert (Hother : forall p, In p (pendingTasks s) -> pendingId p <> env_taskId env).
  { intros p Hp Heq. specialize (H2 p Hp). rewrite Heq, Hfresh in H2. discriminate. }
  constructor; unfold historyIds in *; cbn [coordinator pendingTasks]; rewrite ?Ha, ?Hh, ?Hr.
  - rewrite map_app. cbn [List.map]. apply List.NoDup_app.
    + exact H1.
    + constructor; [intros [] | constructor].
    + intros x Hx Hx'. apply in_map_iff in Hx as (p & <- & Hp).
      destruct Hx' as [Hx'|[]]. unfold pendingId in Hx' at 1. cbn in Hx'.
      apply (Hother p Hp). rewrite <- Hx', Hid. reflexivity.
  - intros p Hp. apply in_app_or in Hp as [Hp|[<-|[]]].
    + rewrite lookup_insert_ne by (intros Heq; apply (Hother p Hp); symmetry; exact Heq).
      apply H2, Hp.
    + unfold pendingId. cbn. rewrite Hid. apply lookup_insert_eq.
  - intros taskId t Ht. apply lookup_insert_Some in Ht as [[<- <-]|[_ Ht]].
    + repeat split; assumption.
    + apply (H3 _ _ Ht).
  - intros taskId Hin. rewrite lookup_insert_ne by (intros <-; contradiction).
    apply H4, Hin.
  - exact H5.
  - exact H6.
  - exact H7.
Qed.

Lemma settle_ledgerOk s i task agent completion c' :
  ledgerOk s ->
  nth_error (pendingTasks s) i = Some (mkPendingTask task agent None) ->
  activeTasks c' = activeTasks (coordinator s) ->
  taskHistory c' = taskHistory (coordinator s) ->
  performanceMetrics c' = performanceMetrics (coordinator s) ->
  ledgerOk (mkSystem c'
              (replaceAt i (mkPendingTask task agent (Some completion)) (pendingTasks s))
              (pendingAggregations s)).
Proof.
  intros [H1 H2 H3 H4 H5 H6 H7] Hnth Ha Hh Hm.
  destruct (replaceAt_split _ _ _ (mkPendingTask task agent (Some completion)) Hnth)
    as (l1 & l2 & Hl & Hrp).
  constructor; unfold historyIds in *; cbn [coordinator pendingTasks];
    rewrite ?Ha, ?Hh, ?Hm, ?Hrp; try assumption.
  - rewrite Hl in H1. rewrite map_app in *. exact H1.
  - intros q Hq. apply in_app_or in Hq as [Hq|[<-|Hq]].
    + apply H2. rewrite Hl. apply in_or_app. left. exact Hq.
    + apply (H2 (mkPendingTask task agent None)). rewrite Hl. apply in_elt.
    + apply H2. rewrite Hl. apply in_or_app. right. right. exact Hq.
Qed.

Lemma resume_ledgerOk s i p completion completedAt :
  ledgerOk s ->
  nth_error (pendingTasks s) i = Some p ->
  ledgerOk (mkSystem (snd (assignTask_resume p completion completedAt (coordinator s)))
              (removeAt i (pendingTasks s)) (pendingAggregations s)).
Proof.
  intros Hok Hnth. pose proof Hok as [H1 H2 H3 H4 H5 H6 H7].
  destruct (assignTask_resume_ledger p completion completedAt (coordinator s))
    as (_ & _ & _ & Ha & Hh).
  pose proof (assignTask_resume_rate p completion completedAt (coordinator s) H7) as Hr.
  destruct (removeAt_split _ _ _ Hnth) as (l1 & l2 & Hl & Hrm).
  assert (Hp : In p (pendingTasks s)) by (rewrite Hl; apply in_elt).
  pose proof (H2 p Hp) as Hactive.
  destruct (H3 _ _ Hactive) as (Hid & Hstatus & Hresult).
  assert (Hothers : forall q, In q (l1 ++ l2)%list -> pendingId q <> pendingId p).
  { intros q Hq Heq. rewrite Hl, map_app in H1. cbn [List.map] in H1.
    apply NoDup_remove_2 in H1. apply H1. rewrite <- map_app, <- Heq.
    apply in_map, Hq. }
  constructor; unfold historyIds in *; cbn [coordinator pendingTasks]; rewrite ?Ha, ?Hh, ?Hrm.
  - rewrite Hl, map_app in H1. cbn [List.map] in H1. apply NoDup_remove_1 in H1.
    rewrite map_app. exact H1.
  - intros q Hq. rewrite lookup_delete_ne by (intros Heq; apply (Hothers q Hq); symmetry; exact Heq).
    apply H2. rewrite Hl. apply in_app_or in Hq as [Hq|Hq]; apply in_or_app;
      [left | right; right]; exact Hq.
  - intros taskId t Ht. apply lookup_delete_Some in Ht as [_ Ht]. apply (H3 _ _ Ht).
  - intros taskId Hin. rewrite map_app in Hin. apply in_app_or in Hin as [Hin|[<-|[]]].
    + rewrite lookup_delete_ne; [apply H4, Hin|].
      intros <-. specialize (H4 _ Hin). rewrite Hactive in H4. discriminate.
    + rewrite terminalTask_id. apply lookup_delete_eq.
  - rewrite map_app. apply List.NoDup_app.
    + exact H5.
    + constructor; [intros [] | constructor].
    + intros x Hx [<-|[]]. rewrite terminalTask_id in Hx.
      specialize (H4 _ Hx). unfold pendingId in Hactive. rewrite Hactive in H4. discriminate.
  - intros t Ht. apply in_app_or in Ht as [Ht|[<-|[]]]; [apply H6, Ht|].
    unfold terminalTask, succeeded.
    destruct completion as [result|message]; cbn.
    + destruct (pr_success result); split; try discriminate; try reflexivity.
    + rewrite Hresult. split; discriminate.
  - exact Hr.
Qed.

Lemma step_ledgerOk s op : ledgerOk s -> admissible s op -> ledgerOk (fst (step s op)).
Proof.
  intros Hok Hadm.
  destruct op as [agent|env d pr rs|i outcome time|i completedAt|env ids ty|i outcome time|i];
    cbn [step].
  - apply (ledgerOk_same_ledger s); [exact Hok | reflexivity..].
  - cbn in Hadm.
    destruct (assignTask_begin_cases env (coordinator s) d pr rs)
      as [[_ ->]|(agent & c' & _ & _ & -> & _ & Ha & Hh & _ & _ & _ & Hr)].
    + exact Hok.
    + cbn [fst]. apply (assign_suspended_ledgerOk s env); try assumption; reflexivity.
  - destruct (nth_error (pendingTasks s) i) as [[task agent [completion|]]|] eqn:Hnth;
      try exact Hok.
    cbn [fst]. apply settle_ledgerOk; try assumption; reflexivity.
  - destruct (nth_error (pendingTasks s) i) as [[task agent [completion|]]|] eqn:Hnth;
      try exact Hok.
    pose proof (resume_ledgerOk s i _ completion completedAt Hok Hnth) as H.
    destruct (assignTask_resume _ completion completedAt (coordinator s)) as [r c']. exact H.
  - unfold aggregateResults_begin.
    destruct (List.filter _ _); cbn [fst]; apply (ledgerOk_same_ledger s); try exact Hok;
      reflexivity.
  - destruct (nth_error (pendingAggregations s) i) as [[? ? ? ? ? [completion|]]|];
      try exact Hok.
    cbn [fst]. apply (ledgerOk_same_ledger s); try exact Hok; reflexivity.
  - destruct (nth_error (pendingAggregations s) i) as [[? ? ? ? ? [completion|]]|];
      try exact Hok.
    cbn [fst]. apply (ledgerOk_same_ledger s); try exact Hok; reflexivity.
Qed.

Lemma reaches_ledgerOk s s' : ledgerOk s -> reaches s s' -> ledgerOk s'.
Proof.
  intros Hok Hreach. induction Hreach as [s|s op s' Hadm _ IH]; [exact Hok|].
  apply IH, step_ledgerOk; assumption.
Qed.

Lemma reachable_ledgerOk s : reachable s -> ledgerOk s.
Proof. apply reaches_ledgerOk, ledgerOk_initial. Qed.

Lemma reaches_trans s1 s2 s3 : reaches s1 s2 -> reaches s2 s3 -> reaches s1 s3.
Proof.
  intros H12 H23. induction H12 as [s|s op s' Hadm _ IH]; [exact H23|].
  eapply reaches_step; [exact Hadm | apply IH, H23].
Qed.

(** ** A task is in exactly one of the two sets *)

Lemma count_one {A : Type} (f : A -> string) (l : list A) (x : string) :
  List.NoDup (List.map f l) -> In x (List.map f l) ->
  length (List.filter (fun t => String.eqb (f t) x) l) = 1%nat.
Proof.
  induction l as [|t l IH]; intros Hnd Hin; [destruct Hin|].
  cbn [List.map] in Hnd. inversion Hnd as [|? ? Hnot Hnd']; subst.
  cbn [List.filter]. destruct (String.eqb (f t) x) eqn:Heq.
  - apply String.eqb_eq in Heq. subst x. cbn [length]. f_equal.
    clear IH Hin Hnd Hnd'. induction l as [|u l IH]; [reflexivity|].
    cbn [List.filter]. destruct (String.eqb (f u) (f t)) eqn:Hu.
    + apply String.eqb_eq in Hu. exfalso. apply Hnot. left. exact Hu.
    + apply IH. intros H. apply Hnot. right. exact H.
  - apply String.eqb_neq in Heq. destruct Hin as [Hin|Hin]; [contradiction|].
    apply IH; assumption.
Qed.

Lemma archived_found c taskId :
  archived c taskId -> found (getTaskStatus c taskId) = true.
Proof.
  intros [Hactive Hin]. unfold getTaskStatus. rewrite Hactive.
  destruct (List.find _ (taskHistory c)) as [t|] eqn:Hfind; [reflexivity|].
  exfalso. unfold historyIds in Hin. apply in_map_iff in Hin as (t & Hid & Ht).
  apply (find_none _ _ Hfind) in Ht. rewrite Hid, String.eqb_refl in Ht. discriminate.
Qed.

Lemma archived_step s op taskId :
  admissible s op -> archived (coordinator s) taskId ->
  archived (coordinator (fst (step s op))) taskId.
Proof.
  intros Hadm [Hactive Hin].
  destruct op as [agent|env d pr rs|i outcome time|i completedAt|env ids ty|i outcome time|i];
    cbn [step].
  - split; assumption.
  - destruct (assignTask_begin_cases env (coordinator s) d pr rs)
      as [[_ ->]|(agent & c' & _ & _ & -> & _ & Ha & Hh & _)].
    + split; assumption.
    + cbn [fst coordinator]. destruct Hadm as [_ Hnew]. unfold archived, historyIds in *.
      rewrite Ha, Hh. split; [|exact Hin].
      rewrite lookup_insert_ne; [exact Hactive|]. intros Heq. apply Hnew. rewrite Heq. exact Hin.
  - destruct (nth_error (pendingTasks s) i) as [[task agent [completion|]]|];
      split; assumption.
  - destruct (nth_error (pendingTasks s) i) as [[task agent [completion|]]|];
      try (split; assumption).
    destruct (assignTask_resume_ledger (mkPendingTask task agent (Some completion))
                completion completedAt (coordinator s)) as (_ & _ & _ & Ha & Hh).
    destruct (assignTask_resume _ completion completedAt (coordinator s)) as [r c'].
    cbn [fst snd coordinator] in *. unfold archived, historyIds in *. rewrite Ha, Hh. split.
    + apply lookup_delete_None. right. exact Hactive.
    + rewrite map_app. apply in_or_app. left. exact Hin.
  - unfold aggregateResults_begin. destruct (List.filter _ _); split; assumption.
  - destruct (nth_error (pendingAggregations s) i) as [[? ? ? ? ? [completion|]]|];
      split; assumption.
  - destruct (nth_error (pendingAggregations s) i) as [[? ? ? ? ? [completion|]]|];
      split; assumption.
Qed.

Lemma archived_reaches s s' taskId :
  reaches s s' -> archived (coordinator s) taskId -> archived (coordinator s') taskId.
Proof.
  intros Hreach. induction Hreach as [s|s op s' Hadm _ IH]; intros H; [exact H|].
  apply IH, archived_step; assumption.
Qed.

(** Only the continuation of a suspended [assignTask] hands a result to the
    caller of [assignTask]. *)
Lemma submitted_by_resume s op r :
  snd (step s op) = Submitted r ->
  exists i completedAt p completion,
    op = ResumeAssignTask i completedAt /\
    nth_error (pendingTasks s) i = Some p /\
    pt_settled p = Some completion /\
    r = fst (assignTask_resume p completion completedAt (coordinator s)) /\
    fst (step s op)
    = mkSystem (snd (assignTask_resume p completion completedAt (coordinator s)))
        (removeAt i (pendingTasks s)) (pendingAggregations s).
Proof.
  destruct op as [agent|env d pr rs|i outcome time|i completedAt|env ids ty|i outcome time|i];
    cbn [step].
  - discriminate.
  - destruct (assignTask_begin_cases env (coordinator s) d pr rs)
      as [[_ ->]|(agent & c' & _ & _ & -> & _)]; discriminate.
  - destruct (nth_error (pendingTasks s) i) as [[task agent [completion|]]|]; discriminate.
  - destruct (nth_error (pendingTasks s) i) as [[task agent [completion|]]|] eqn:Hnth;
      try discriminate.
    destruct (assignTask_resume _ completion completedAt (coordinator s)) as [r' c'] eqn:Hres.
    cbn. intros [= <-].
    exists i, completedAt, (mkPendingTask task agent (Some completion)), completion.
    rewrite Hres. repeat split; first [reflexivity | assumption].
  - unfold aggregateResults_begin. destruct (List.filter _ _); discriminate.
  - destruct (nth_error (pendingAggregations s) i) as [[? ? ? ? ? [completion|]]|];
      discriminate.
  - destruct (nth_error (pendingAggregations s) i) as [[? ? ? ? ? [completion|]]|];
      discriminate.
Qed.

(** C5. Once [assignTask] has returned a task id, at every later point of
    every run of admissible operations the task is in the history, exactly
    once, and not in the active map, and [getTaskStatus] finds it; until
    the call returned it was in the active map and not in the history, so
    it moved exactly once.  Every task of a call still suspended is in the
    active map, not in the history, and found. *)
Theorem task_in_exactly_one_set s op r taskId s' :
  reachable s -> admissible s op ->
  snd (step s op) = Submitted r -> sr_taskId r = Some taskId ->
  reaches (fst (step s op)) s' ->
  (is_Some (activeTasks (coordinator s) !! taskId) /\
   ~ In taskId (historyIds (coordinator s))) /\
  (activeTasks (coordinator s') !! taskId = None /\
   historyCount (coordinator s') taskId = 1%nat /\
   found (getTaskStatus (coordinator s') taskId) = true) /\
  (forall p, In p (pendingTasks s') ->
     is_Some (activeTasks (coordinator s') !! pendingId p) /\
     historyCount (coordinator s') (pendingId p) = 0%nat /\
     found (getTaskStatus (coordinator s') (pendingId p)) = true).
Proof.
  intros Hreach Hadm Hout Hid Hlater.
  pose proof (reachable_ledgerOk s Hreach) as Hok.
  pose proof (step_ledgerOk s op Hok Hadm) as Hok1.
  pose proof (reaches_ledgerOk _ _ Hok1 Hlater) as Hok'.
  destruct (submitted_by_resume s op r Hout)
    as (i & completedAt & p & completion & -> & Hnth & _ & -> & Hstep).
  destruct (assignTask_resume_ledger p completion completedAt (coordinator s))
    as (Hr & _ & _ & Ha & Hh).
  cbn zeta in Hr. rewrite Hr in Hid. injection Hid as <-.
  assert (Hp : In p (pendingTasks s)) by (eapply nth_error_In; exact Hnth).
  pose proof (ok_pending_active s Hok p Hp) as Hactive.
  assert (Harchived : archived (coordinator (fst (step s (ResumeAssignTask i completedAt))))
                        (pendingId p)).
  { rewrite Hstep. cbn [coordinator]. unfold archived, historyIds. rewrite Ha, Hh. split.
    - apply lookup_delete_eq.
    - rewrite map_app. apply in_or_app. right. left. apply terminalTask_id. }
  apply (archived_reaches _ _ _ Hlater) in Harchived.
  split; [|split].
  - split; [rewrite Hactive; eexists; reflexivity|].
    intros Hin. apply (ok_disjoint s Hok) in Hin. rewrite Hactive in Hin. discriminate.
  - destruct Harchived as [Hnone Hin]. split; [exact Hnone|]. split.
    + apply count_one; [apply (ok_history_distinct s' Hok') | exact Hin].
    + apply archived_found. split; assumption.
  - intros q Hq. pose proof (ok_pending_active s' Hok' q Hq) as Hq'.
    split; [rewrite Hq'; eexists; reflexivity|]. split.
    + unfold historyCount. apply length_zero_iff_nil.
      destruct (List.filter _ _) as [|t ts] eqn:Hfilter; [reflexivity|]. exfalso.
      assert (Ht : In t (List.filter (fun t => String.eqb (task_id t) (pendingId q))
                            (taskHistory (coordinator s'))))
        by (rewrite Hfilter; left; reflexivity).
      apply filter_In in Ht as [Ht Heq]. apply String.eqb_eq in Heq.
      assert (Hin : In (pendingId q) (historyIds (coordinator s')))
        by (unfold historyIds; rewrite <- Heq; apply in_map, Ht).
      apply (ok_disjoint s' Hok') in Hin. rewrite Hq' in Hin. discriminate.
    + unfold getTaskStatus. rewrite Hq'. reflexivity.
Qed.

(** ** Submitting a task *)

(** With an agent registered [assignTask] returns a result, which carries
    the task id, whatever the completion service does. *)
Theorem assignTask_returns benv renv c taskDescription priority requiredSkills :
  teamAgents c <> [] ->
  exists r c',
    assignTask benv renv c taskDescription priority requiredSkills = Normal (r, c') /\
    sr_taskId r = Some (env_taskId benv).
Proof.
  intros Hteam. unfold assignTask.
  destruct (assignTask_begin_cases benv c taskDescription priority requiredSkills)
    as [[Hempty _]|(agent & c1 & _ & _ & -> & _)]; [contradiction|].
  set (p := mkPendingTask (createdTask benv taskDescription priority requiredSkills agent)
              agent None).
  destruct (assignTask_settle p _ _ c1) as [completion c2].
  destruct (assignTask_resume_ledger p completion (env_completedAt renv) c2) as (Hid & _).
  destruct (assignTask_resume p completion (env_completedAt renv) c2) as [r c3].
  exists r, c3. split; [reflexivity | exact Hid].
Qed.

(** The call run without interleaving is the three operations in a row. *)
Lemma assignTask_as_steps s benv renv taskDescription priority requiredSkills :
  let i := length (pendingTasks s) in
  let s1 := fst (step s (AssignTask benv taskDescription priority requiredSkills)) in
  let s2 := fst (step s1 (SettleAssignTask i (env_outcome renv) (env_completionTime renv))) in
  match assignTask benv renv (coordinator s) taskDescription priority requiredSkills with
  | Throw message =>
      step s (AssignTask benv taskDescription priority requiredSkills) = (s, Raised message)
  | Normal (r, c') =>
      step s2 (ResumeAssignTask i (env_completedAt renv))
      = (mkSystem c' (pendingTasks s) (pendingAggregations s), Submitted r)
  end.
Proof.
  intros i s1 s2. subst s1 s2 i. unfold assignTask. cbn [step].
  destruct (assignTask_begin_cases benv (coordinator s) taskDescription priority requiredSkills)
    as [[_ ->]|(agent & c1 & _ & _ & -> & _)]; [reflexivity|].
  cbn [fst step coordinator pendingTasks pendingAggregations].
  set (task := createdTask benv taskDescription priority requiredSkills agent).
  assert (Hnth : forall (o : option (Completion ProcessResult)),
            nth_error (pendingTasks s ++ [mkPendingTask task agent o]) (length (pendingTasks s))
            = Some (mkPendingTask task agent o)).
  { intros o. rewrite nth_error_app2 by lia. rewrite Nat.sub_diag. reflexivity. }
  rewrite Hnth.
  destruct (assignTask_settle _ _ _ c1) as [completion c2].
  cbn [fst coordinator pendingTasks pendingAggregations].
  assert (Hreplace : replaceAt (length (pendingTasks s))
                       (mkPendingTask task agent (Some completion))
                       (pendingTasks s ++ [mkPendingTask task agent None])
                     = (pendingTasks s ++ [mkPendingTask task agent (Some completion)])%list).
  { unfold replaceAt. rewrite firstn_app, Nat.sub_diag, firstn_all, skipn_all2
      by (rewrite length_app; cbn; lia). cbn. rewrite app_nil_r. reflexivity. }
  rewrite Hreplace, Hnth.
  assert (Hremove : removeAt (length (pendingTasks s))
                      (pendingTasks s ++ [mkPendingTask task agent (Some completion)])
                    = pendingTasks s).
  { unfold removeAt. rewrite firstn_app, Nat.sub_diag, firstn_all, skipn_all2
      by (rewrite length_app; cbn; lia). cbn. rewrite !app_nil_r. reflexivity. }
  rewrite Hremove.
  change (assignTask_resume (mkPendingTask task agent (Some completion)) completion
            (env_completedAt renv) c2)
    with (assignTask_resume (mkPendingTask task agent None) completion
            (env_completedAt renv) c2).
  destruct (assignTask_resume _ completion (env_completedAt renv) c2) as [r c3].
  reflexivity.
Qed.

(** C3. The claim that [assignTask] always returns a result and never
    throws fails on the code: with no team agent registered, as in
    test/test_ceo.js, [selectBestAgent] reduces an empty array without an
    initial value, and the [TypeError] leaves [assignTask]. *)
Theorem assignTask_throws_without_agents benv renv taskDescription priority requiredSkills :
  assignTask benv renv newCEO taskDescription priority requiredSkills
  = Throw reduceEmptyError.
Proof. reflexivity. Qed.

(** C1, as the code has it.  [assignTask] checks no priority: for every
    priority string and every registry with an agent it selects an agent,
    files the task under the priority as given, counts it as assigned,
    awaits the agent, and returns a result that carries the task id, the
    task ending in the history. *)
Theorem assignTask_accepts_any_priority benv renv c taskDescription priority requiredSkills :
  teamAgents c <> [] ->
  exists agent p c1 r c2 t,
    In agent (teamAgents c) /\
    assignTask_begin benv c taskDescription priority requiredSkills = Suspended p c1 /\
    pt_agent p = agent /\
    activeTasks c1 !! env_taskId benv = Some (pt_task p) /\
    task_priority (pt_task p) = priority /\
    tasksAssigned (performanceMetrics c1) = tasksAssigned (performanceMetrics c) + 1 /\
    assignTask benv renv c taskDescription priority requiredSkills = Normal (r, c2) /\
    sr_taskId r = Some (env_taskId benv) /\
    taskHistory c2 = (taskHistory c ++ [t])%list /\
    task_id t = env_taskId benv /\
    task_priority t = priority.
Proof.
  intros Hteam. unfold assignTask.
  destruct (assignTask_begin_cases benv c taskDescription priority requiredSkills)
    as [[Hempty _]|(agent & c1 & Hin & _ & -> & _ & Ha & Hh & Hassigned & _)];
    [contradiction|].
  set (p := mkPendingTask (createdTask benv taskDescription priority requiredSkills agent)
              agent None).
  destruct (assignTask_settle_ledger p (env_outcome renv) (env_completionTime renv) c1)
    as (_ & _ & Hh1 & _).
  destruct (assignTask_settle p (env_outcome renv) (env_completionTime renv) c1)
    as [completion c2].
  destruct (assignTask_resume_ledger p completion (env_completedAt renv) c2)
    as (Hid & _ & _ & _ & Hh2).
  destruct (assignTask_resume p completion (env_completedAt renv) c2) as [r c3].
  cbn [fst snd] in *.
  exists agent, p, c1, r, c3, (terminalTask (pt_task p) (env_completedAt renv) completion).
  repeat split; try reflexivity; try assumption.
  - rewrite Ha. apply lookup_insert_eq.
  - rewrite Hh2, Hh1, Hh. reflexivity.
  - apply terminalTask_id.
  - destruct completion; reflexivity.
Qed.

(** C2. The claim that a call for which selection finds no worker returns
    the failure [No suitable agent available] fails on the code.
    Selection is left without a worker only when no agent is registered,
    and there it throws, so that [assignTask] throws with it instead of
    returning a failure.  With an agent registered selection
    always returns one, never a falsy value, and the call goes on to that
    agent: the guard after the selection is never taken, and no call
    returns before it has awaited an agent. *)
Theorem assignTask_never_reports_no_agent benv renv c taskDescription priority
    requiredSkills :
  (selectBestAgent c requiredSkills taskDescription = Throw reduceEmptyError
   <-> teamAgents c = []) /\
  selectBestAgent c requiredSkills taskDescription <> Normal None /\
  (teamAgents c = [] ->
   assignTask benv renv c taskDescription priority requiredSkills = Throw reduceEmptyError) /\
  (forall r c',
     assignTask_begin benv c taskDescription priority requiredSkills <> Returned r c').
Proof.
  split; [|split; [|split]].
  - destruct (selectBestAgent_cases c requiredSkills taskDescription)
      as [[Hempty ->]|(agent & Hin & ->)].
    + split; intros _; [exact Hempty | reflexivity].
    + split; [discriminate|]. intros Hempty. rewrite Hempty in Hin. destruct Hin.
  - destruct (selectBestAgent_cases c requiredSkills taskDescription)
      as [[_ ->]|(agent & _ & ->)]; discriminate.
  - intros Hempty. unfold assignTask.
    destruct (assignTask_begin_cases benv c taskDescription priority requiredSkills)
      as [[_ ->]|(agent & c1 & Hin & _)]; [reflexivity|].
    rewrite Hempty in Hin. destruct Hin.
  - intros r c'.
    destruct (assignTask_begin_cases benv c taskDescription priority requiredSkills)
      as [[_ ->]|(agent & c1 & _ & _ & -> & _)]; discriminate.
Qed.

(** ** Deadlines *)

(** For the three recognised priorities, and for every other string that
    names no inherited member, the deadline is the clock reading plus 2, 24
    or 72 hours, the default being 24. *)
Theorem calculateDeadline_table priority now :
  inheritedName priority = false ->
  calculateDeadline priority now
  = Time (now + (if String.eqb priority "high" then 2
                 else if String.eqb priority "low" then 72
                 else 24) * 3600000).
Proof.
  intros Hplain. unfold calculateDeadline, getMember, deadlineHours. cbn [ownProperty].
  rewrite (String.eqb_sym priority "high"), (String.eqb_sym priority "low").
  destruct (String.eqb "high" priority); [cbn; f_equal; try lia|].
  destruct (String.eqb "medium" priority) eqn:Hmedium.
  - apply String.eqb_eq in Hmedium. subst priority. cbn. f_equal; try lia.
  - destruct (String.eqb "low" priority); [cbn; f_equal; try lia|].
    rewrite Hplain. cbn. f_equal; try lia.
Qed.

(** C10. The fallback to 24 hours fails on the code for a priority that
    names a member every object literal inherits: [deadlineHours[priority]]
    is then a function, the default is not taken, the product is [NaN] and
    the deadline is the invalid date. *)
Theorem calculateDeadline_of_inherited_name now :
  calculateDeadline "constructor" now = InvalidDate.
Proof. reflexivity. Qed.

(** ** Scores *)

(** C6. The scoring rule fails on the code for an agent whose role names a
    member every object literal inherits: [roleScores[role]] is then a
    function, and adding it to the score gives a string, not the number of
    the rule. *)
Theorem scoreAgent_of_inherited_role requiredSkills taskDescription :
  snd (scoreAgent requiredSkills taskDescription (newAgent "lil_Helper" "constructor" []))
  = NonNumeric.
Proof.
  unfold scoreAgent, newAgent. cbn [snd role].
  rewrite (calculateRoleScore_inherited "constructor" taskDescription eq_refl). reflexivity.
Qed.

(** C7. Selection reads nothing but the registry and its two arguments, so
    two calls on the same registry snapshot return the same agent; and
    among the idle agents, whose roles name no inherited member, the first
    of the highest score is returned: the agents registered before it score
    strictly less, those after it no more. *)
Theorem selectBestAgent_deterministic c requiredSkills taskDescription :
  (forall c', teamAgents c' = teamAgents c ->
     selectBestAgent c' requiredSkills taskDescription
     = selectBestAgent c requiredSkills taskDescription) /\
  (forall before w after,
     availableAgents c = (before ++ w :: after)%list ->
     plainRoles (availableAgents c) ->
     (forall a, In a before ->
        points requiredSkills taskDescription a < points requiredSkills taskDescription w) ->
     (forall a, In a after ->
        points requiredSkills taskDescription a <= points requiredSkills taskDescription w) ->
     selectBestAgent c requiredSkills taskDescription = Normal (Some w)).
Proof.
  split.
  - intros c' Hsame. unfold selectBestAgent. rewrite Hsame. reflexivity.
  - intros before w after Hsplit Hplain Hbefore Hafter.
    rewrite selectBestAgent_scoring by (rewrite Hsplit; destruct before; discriminate).
    rewrite (map_scoreAgent_plain _ _ _ Hplain), Hsplit.
    rewrite (firstBest_first_highest (points requiredSkills taskDescription))
      by assumption.
    reflexivity.
Qed.

(** ** Metrics *)

Lemma updatePerformanceMetrics_idempotent c :
  updatePerformanceMetrics (updatePerformanceMetrics c) = updatePerformanceMetrics c.
Proof.
  unfold updatePerformanceMetrics.
  cbn [self teamAgents activeTasks taskHistory performanceMetrics
       tasksCompleted tasksAssigned averageCompletionTime successRate].
  f_equal. f_equal.
  destruct (Nat.ltb 0 (length (List.filter isCompleted (taskHistory c)))); reflexivity.
Qed.

(** On the [try] path the stored metrics are those recomputed from the history. *)
Lemma assignTask_resume_fresh p result completedAt c :
  metricsFresh (snd (assignTask_resume p (Normal result) completedAt c)).
Proof.
  unfold assignTask_resume, metricsFresh. cbn [snd].
  rewrite updatePerformanceMetrics_idempotent. reflexivity.
Qed.

(** On the [catch] path the history grows and the metrics are not touched. *)
Lemma assignTask_resume_catch p message completedAt c :
  performanceMetrics (snd (assignTask_resume p (Throw message) completedAt c))
  = performanceMetrics c.
Proof. reflexivity. Qed.

(** Whenever the agent's [processTask] returns, which with the base
    [Agent] it does unless the completion is rejected with [null] or
    [undefined], the metrics stored when [assignTask] returns are those
    recomputed from the history. *)
Theorem assignTask_metrics_fresh benv renv c taskDescription priority requiredSkills :
  teamAgents c <> [] ->
  env_outcome renv <> Rejected Nullish ->
  exists r c',
    assignTask benv renv c taskDescription priority requiredSkills = Normal (r, c') /\
    metricsFresh c'.
Proof.
  intros Hteam Houtcome. unfold assignTask.
  destruct (assignTask_begin_cases benv c taskDescription priority requiredSkills)
    as [[Hempty _]|(agent & c1 & _ & _ & -> & _)]; [contradiction|].
  unfold assignTask_settle, processTask_resume.
  destruct (env_outcome renv) as [text|[message|]]; [| |congruence];
    repeat (match goal with |- context [match ?x with _ => _ end] => destruct x end);
    cbn [fst]; eexists; eexists; (split; [reflexivity | apply assignTask_resume_fresh]).
Qed.

(** ** System health *)

Lemma share_bounds (k n : nat) :
  (k <= n)%nat -> (0 < n)%nat -> (0 <= ofNat k / ofNat n * 50 <= 50)%Q.
Proof.
  intros Hk Hn. unfold ofNat. destruct n as [|n]; [lia|].
  assert (Hpos : (0 < inject_Z (Z.of_nat (S n)))%Q).
  { rewrite <- (Zlt_Qlt 0). lia. }
  assert (Hk0 : (0 <= inject_Z (Z.of_nat k))%Q).
  { rewrite <- (Zle_Qle 0). lia. }
  assert (Hkn : (inject_Z (Z.of_nat k) <= inject_Z (Z.of_nat (S n)))%Q).
  { rewrite <- Zle_Qle. lia. }
  split.
  - apply Qmult_le_0_compat; [|discriminate].
    apply Qle_shift_div_l; [exact Hpos|]. rewrite Qmult_0_l. exact Hk0.
  - apply Qle_trans with (1 * 50)%Q; [|discriminate].
    apply Qmult_le_compat_r; [|discriminate].
    apply Qle_shift_div_r; [exact Hpos|]. rewrite Qmult_1_l. exact Hkn.
Qed.

Lemma mathMin_bounds (x : Q) : (0 <= x)%Q -> (0 <= mathMin x 50 <= 50)%Q.
Proof.
  intros Hx. unfold mathMin. destruct (Qle_bool x 50) eqn:Hle.
  - apply Qle_bool_iff in Hle. split; assumption.
  - split; [discriminate | apply Qle_refl].
Qed.

Lemma mathMin_comp (x y : Q) : (x == y)%Q -> (mathMin x 50 == mathMin y 50)%Q.
Proof.
  intros Heq. unfold mathMin. rewrite (Qleb_comp x y Heq 50%Q 50%Q (Qeq_refl 50%Q)).
  destruct (Qle_bool y 50); [exact Heq | reflexivity].
Qed.

Lemma mathRound_comp (x y : Q) : (x == y)%Q -> mathRound x = mathRound y.
Proof. intros Heq. unfold mathRound. apply Qfloor_comp. rewrite Heq. reflexivity. Qed.

Lemma mathRound_bounds (x : Q) : (0 <= x <= 100)%Q -> 0 <= mathRound x <= 100.
Proof.
  intros [Hlow Hhigh]. unfold mathRound. split.
  - change 0 with (Qfloor 0). apply Qfloor_resp_le.
    apply Qle_trans with x; [exact Hlow|].
    rewrite <- (Qplus_0_r x) at 1. apply Qplus_le_r. discriminate.
  - change 100 with (Qfloor (100 + (1 # 2))). apply Qfloor_resp_le.
    apply Qplus_le_l. exact Hhigh.
Qed.

(** *** Rounding to the nearest double *)

Lemma roundHalfEven_lower (a : Z) (y : Q) :
  (inject_Z a <= y)%Q -> a <= roundHalfEven y.
Proof.
  intros Hlow. unfold roundHalfEven.
  assert (Ha : a <= Qfloor y).
  { rewrite <- (Qfloor_Z a). apply Qfloor_resp_le, Hlow. }
  destruct (Qcompare _ _); [destruct (Z.even _)| |]; lia.
Qed.

Lemma roundHalfEven_upper (b : Z) (y : Q) :
  (y <= inject_Z b)%Q -> roundHalfEven y <= b.
Proof.
  intros Hhigh. unfold roundHalfEven.
  assert (Hb : Qfloor y <= b).
  { rewrite <- (Qfloor_Z b). apply Qfloor_resp_le, Hhigh. }
  assert (Hup : (inject_Z (Qfloor y) < y)%Q -> Qfloor y + 1 <= b).
  { intros Hlt.
    assert (H : (inject_Z (Qfloor y) < inject_Z b)%Q)
      by (eapply Qlt_le_trans; eassumption).
    rewrite <- Zlt_Qlt in H. lia. }
  destruct (Qcompare_spec (y - inject_Z (Qfloor y)) (1 # 2)) as [Heq|Hlt|Hgt].
  - destruct (Z.even _); [lia|]. apply Hup.
    apply Qlt_minus_iff. unfold Qminus in Heq. rewrite Heq. reflexivity.
  - lia.
  - apply Hup. apply Qlt_minus_iff. eapply Qlt_trans; [|exact Hgt]. reflexivity.
Qed.

(** The integer chosen is within one half of the argument, and even at a tie. *)
Lemma roundHalfEven_nearest (y : Q) :
  (- (1 # 2) <= inject_Z (roundHalfEven y) - y <= 1 # 2)%Q /\
  ((inject_Z (roundHalfEven y) - y == 1 # 2)%Q \/
   (inject_Z (roundHalfEven y) - y == - (1 # 2))%Q -> Z.even (roundHalfEven y) = true).
Proof.
  unfold roundHalfEven.
  pose proof (Qfloor_le y) as Hle. pose proof (Qlt_floor y) as Hlt.
  set (f := Qfloor y) in *.
  assert (Hsucc : (inject_Z (f + 1) == inject_Z f + 1)%Q) by (rewrite inject_Z_plus; reflexivity).
  rewrite Hsucc in Hlt.
  destruct (Qcompare_spec (y - inject_Z f) (1 # 2)) as [Heq|Hless|Hmore].
  - destruct (Z.even f) eqn:Heven.
    + split; [lra | intros _; exact Heven].
    + rewrite Hsucc. split; [lra|].
      intros _. rewrite Z.even_add, Heven. reflexivity.
  - split; [lra|]. intros [H|H]; exfalso; lra.
  - rewrite Hsucc. split; [lra|]. intros [H|H]; exfalso; lra.
Qed.

Lemma Qpower2_pos (e : Z) : (0 < 2 ^ e)%Q.
Proof. apply Qpower_0_lt. reflexivity. Qed.

Lemma Qpower2_sub (a b : Z) :
  0 <= a -> 0 <= b -> (2 ^ (a - b) == inject_Z (2 ^ a) / inject_Z (2 ^ b))%Q.
Proof.
  intros Ha Hb. rewrite !Zpower_Qpower by assumption.
  change (inject_Z 2) with 2%Q. unfold Z.sub.
  rewrite Qpower_plus by (intros H; discriminate H).
  rewrite Qpower_opp. reflexivity.
Qed.

Lemma Qpower2_le (n m : Z) : n <= m -> (2 ^ n <= 2 ^ m)%Q.
Proof. intros H. apply Qpower_le_compat_l; [exact H | discriminate]. Qed.

(** [floorLog2] is the binary exponent of a positive rational. *)
Lemma floorLog2_spec (x : Q) :
  (0 < x)%Q -> (2 ^ floorLog2 x <= x < 2 ^ (floorLog2 x + 1))%Q.
Proof.
  destruct x as [p q]. intros Hpos.
  assert (Hp : 0 < p) by (unfold Qlt in Hpos; cbn in Hpos; lia).
  pose proof (Z.log2_spec p Hp) as [Hp1 Hp2].
  pose proof (Z.log2_spec (Zpos q) eq_refl) as [Hq1 Hq2].
  pose proof (Z.log2_nonneg p) as Hlp. pose proof (Z.log2_nonneg (Zpos q)) as Hlq.
  unfold Z.succ in Hp2, Hq2.
  assert (Ha : 0 < 2 ^ Z.log2 p) by (apply Z.pow_pos_nonneg; lia).
  assert (Hb : 0 < 2 ^ Z.log2 (Zpos q)) by (apply Z.pow_pos_nonneg; lia).
  assert (Habove : (p # q < 2 ^ (Z.log2 p - Z.log2 (Zpos q) + 1))%Q).
  { replace (Z.log2 p - Z.log2 (Zpos q) + 1) with (Z.log2 p + 1 - Z.log2 (Zpos q)) by lia.
    rewrite Qpower2_sub by lia.
    apply Qlt_shift_div_l; [rewrite <- (Zlt_Qlt 0); exact Hb|].
    unfold Qlt, Qmult, inject_Z. cbn [Qnum Qden].
    rewrite Pos.mul_1_r, Z.mul_1_r. nia. }
  assert (Hbelow : (2 ^ (Z.log2 p - Z.log2 (Zpos q) - 1) < p # q)%Q).
  { replace (Z.log2 p - Z.log2 (Zpos q) - 1) with (Z.log2 p - (Z.log2 (Zpos q) + 1)) by lia.
    rewrite Qpower2_sub by lia.
    apply Qlt_shift_div_r; [rewrite <- (Zlt_Qlt 0); lia|].
    unfold Qlt, Qmult, inject_Z. cbn [Qnum Qden].
    rewrite Pos.mul_1_r, Z.mul_1_r. nia. }
  unfold floorLog2. cbn [Qnum Qden].
  destruct (Qle_bool _ _) eqn:Htest.
  - apply Qle_bool_iff in Htest. split; assumption.
  - split; [apply Qlt_le_weak, Hbelow|].
    replace (Z.log2 p - Z.log2 (Zpos q) - 1 + 1) with (Z.log2 p - Z.log2 (Zpos q)) by lia.
    apply Qnot_le_lt. intros H. apply Qle_bool_iff in H. congruence.
Qed.

Lemma floorLog2_unique (x : Q) (k : Z) :
  (2 ^ k <= x < 2 ^ (k + 1))%Q -> floorLog2 x = k.
Proof.
  intros [Hlow Hhigh].
  assert (Hpos : (0 < x)%Q) by (eapply Qlt_le_trans; [apply (Qpower2_pos k) | exact Hlow]).
  destruct (floorLog2_spec x Hpos) as [Hlow' Hhigh'].
  destruct (Z.lt_trichotomy (floorLog2 x) k) as [H|[H|H]]; [exfalso|exact H|exfalso].
  - apply (Qlt_irrefl x). eapply Qlt_le_trans; [exact Hhigh'|].
    eapply Qle_trans; [|exact Hlow]. apply Qpower2_le. lia.
  - apply (Qlt_irrefl x). eapply Qlt_le_trans; [exact Hhigh|].
    eapply Qle_trans; [|exact Hlow']. apply Qpower2_le. lia.
Qed.

Lemma double_comp (x y : Q) : (x == y)%Q -> double x = double y.
Proof. intros H. unfold double. rewrite (Qred_complete x y H). reflexivity. Qed.

Lemma double_positive (x : Q) : (0 < x)%Q -> double x = doubleOfPositive (Qred x).
Proof.
  intros Hpos. unfold double. rewrite <- (Qred_correct x) in Hpos.
  destruct (Qred x) as [p q]. unfold Qlt in Hpos. cbn in Hpos.
  destruct p; cbn; try reflexivity; lia.
Qed.

Lemma double_zero (x : Q) : (x == 0)%Q -> double x = 0%Q.
Proof. intros H. rewrite (double_comp x 0 H). reflexivity. Qed.

Lemma doubleOfPositive_nonneg (x : Q) : (0 <= x)%Q -> (0 <= doubleOfPositive x)%Q.
Proof.
  intros Hx. unfold doubleOfPositive. rewrite Qred_correct.
  apply Qmult_le_0_compat; [|apply Qlt_le_weak, Qpower2_pos].
  rewrite <- (Zle_Qle 0). apply roundHalfEven_lower.
  apply Qle_shift_div_l; [apply Qpower2_pos|]. rewrite Qmult_0_l. exact Hx.
Qed.

Lemma double_nonneg (x : Q) : (0 <= x)%Q -> (0 <= double x)%Q.
Proof.
  intros Hx. destruct (Qlt_le_dec 0 x) as [Hpos|Hle].
  - rewrite double_positive by exact Hpos. apply doubleOfPositive_nonneg.
    rewrite Qred_correct. exact Hx.
  - rewrite double_zero; [apply Qle_refl | apply Qle_antisym; assumption].
Qed.

(** Rounding never crosses an integer below 2^53: such an integer is a
    double. *)
Lemma double_le (x : Q) (B : Z) :
  (0 <= x)%Q -> (x <= inject_Z B)%Q -> B < 2 ^ 53 -> (double x <= inject_Z B)%Q.
Proof.
  intros Hx HB Hsmall. destruct (Qlt_le_dec 0 x) as [Hpos|Hle].
  - rewrite double_positive by exact Hpos.
    assert (Hpos' : (0 < Qred x)%Q) by (rewrite Qred_correct; exact Hpos).
    assert (HB' : (Qred x <= inject_Z B)%Q) by (rewrite Qred_correct; exact HB).
    generalize dependent (Qred x). clear x Hx HB Hpos. intros x' Hpos HB.
    destruct (floorLog2_spec x' Hpos) as [Hlow _].
    assert (Hlog : floorLog2 x' <= 52).
    { destruct (Z.le_gt_cases (floorLog2 x') 52) as [H|H]; [exact H|exfalso].
      apply (Qlt_irrefl (inject_Z (2 ^ 53))).
      eapply Qle_lt_trans; [|rewrite <- Zlt_Qlt; exact Hsmall].
      eapply Qle_trans; [|exact HB]. eapply Qle_trans; [|exact Hlow].
      rewrite Zpower_Qpower by lia. apply Qpower2_le. lia. }
    unfold doubleOfPositive. rewrite Qred_correct.
    set (e := Z.max (floorLog2 x' - 52) (-1074)).
    assert (He : e <= 0) by (unfold e; lia).
    pose proof (Qpower2_pos e) as Hpow.
    assert (Hscale : (inject_Z (B * 2 ^ (- e)) * 2 ^ e == inject_Z B)%Q).
    { rewrite inject_Z_mult, Zpower_Qpower by lia. change (inject_Z 2) with 2%Q.
      rewrite Qpower_opp. field. intros H. rewrite H in Hpow. revert Hpow. apply Qlt_irrefl. }
    rewrite <- Hscale. apply Qmult_le_compat_r; [|apply Qlt_le_weak, Hpow].
    rewrite <- Zle_Qle. apply roundHalfEven_upper.
    apply Qle_shift_div_r; [exact Hpow|]. rewrite Hscale. exact HB.
  - rewrite double_zero by (apply Qle_antisym; assumption).
    eapply Qle_trans; eassumption.
Qed.

Lemma doubleOfPositive_nearest (x : Q) (k : Z) :
  (2 ^ k <= x < 2 ^ (k + 1))%Q -> -1022 <= k ->
  exists m : Z,
    (doubleOfPositive x == inject_Z m * 2 ^ (k - 52))%Q /\
    2 ^ 52 <= m <= 2 ^ 53 /\
    (- (1 # 2) <= inject_Z m - x / 2 ^ (k - 52) <= 1 # 2)%Q /\
    ((inject_Z m - x / 2 ^ (k - 52) == 1 # 2)%Q \/
     (inject_Z m - x / 2 ^ (k - 52) == - (1 # 2))%Q -> Z.even m = true).
Proof.
  intros [Hlow Hhigh] Hk.
  unfold doubleOfPositive. rewrite (floorLog2_unique x k) by (split; assumption).
  rewrite Z.max_l by lia.
  pose proof (Qpower2_pos (k - 52)) as Hpow.
  exists (roundHalfEven (x / 2 ^ (k - 52))).
  split; [apply Qred_correct|].
  split; [|apply roundHalfEven_nearest].
  assert (Hunit : forall n, k - 52 <= n ->
            (2 ^ n == inject_Z (2 ^ (n - (k - 52))) * 2 ^ (k - 52))%Q).
  { intros n H. rewrite Zpower_Qpower by lia. change (inject_Z 2) with 2%Q.
    rewrite <- Qpower_plus by (intros H0; discriminate H0).
    replace (n - (k - 52) + (k - 52)) with n by lia. reflexivity. }
  split.
  - apply roundHalfEven_lower. apply Qle_shift_div_l; [exact Hpow|].
    pose proof (Hunit k ltac:(lia)) as H.
    replace (k - (k - 52)) with 52 in H by lia. rewrite <- H. exact Hlow.
  - apply roundHalfEven_upper. apply Qle_shift_div_r; [exact Hpow|].
    pose proof (Hunit (k + 1) ltac:(lia)) as H.
    replace (k + 1 - (k - 52)) with 53 in H by lia. rewrite <- H.
    apply Qlt_le_weak, Hhigh.
Qed.

(** In the normal range the result is a 53-bit significand at the exponent
    of the argument, within half a unit in the last place of it, and even
    at a tie. *)
Lemma double_nearest (x : Q) (k : Z) :
  (2 ^ k <= x < 2 ^ (k + 1))%Q -> -1022 <= k ->
  exists m : Z,
    (double x == inject_Z m * 2 ^ (k - 52))%Q /\
    2 ^ 52 <= m <= 2 ^ 53 /\
    (- (1 # 2) <= inject_Z m - x / 2 ^ (k - 52) <= 1 # 2)%Q /\
    ((inject_Z m - x / 2 ^ (k - 52) == 1 # 2)%Q \/
     (inject_Z m - x / 2 ^ (k - 52) == - (1 # 2))%Q -> Z.even m = true).
Proof.
  intros Hx Hk.
  assert (Hpos : (0 < x)%Q)
    by (eapply Qlt_le_trans; [apply (Qpower2_pos k) | apply Hx]).
  rewrite (double_positive x Hpos).
  destruct (doubleOfPositive_nearest (Qred x) k) as (m & Hm & Hrange & Hnear & Htie);
    [rewrite Qred_correct; exact Hx | exact Hk |].
  exists m. split; [exact Hm|]. split; [exact Hrange|].
  assert (Hquot : (inject_Z m - Qred x / 2 ^ (k - 52) == inject_Z m - x / 2 ^ (k - 52))%Q)
    by (rewrite Qred_correct; reflexivity).
  rewrite Hquot in Hnear, Htie. split; assumption.
Qed.

(** [double] gives the nearest double. *)
Lemma double_nearestDouble (x : Q) : (0 <= x)%Q -> nearestDouble x (double x).
Proof.
  intros Hx. destruct (Qlt_le_dec 0 x) as [Hpos|Hle].
  - right. exists (floorLog2 x).
    pose proof (floorLog2_spec x Hpos) as Hk.
    assert (Hk' : (2 ^ floorLog2 x <= Qred x < 2 ^ (floorLog2 x + 1))%Q).
    { destruct Hk as [Hlow Hhigh]. split.
      - eapply Qle_trans; [exact Hlow|]. apply Qle_lteq. right. symmetry. apply Qred_correct.
      - eapply Qle_lt_trans; [|exact Hhigh]. apply Qle_lteq. right. apply Qred_correct. }
    rewrite (double_positive x Hpos). unfold doubleOfPositive.
    rewrite (floorLog2_unique (Qred x) (floorLog2 x) Hk').
    set (e := Z.max (floorLog2 x - 52) (-1074)).
    exists (roundHalfEven (Qred x / 2 ^ e)).
    split; [exact Hk|]. cbn zeta. fold e.
    split; [apply Qred_correct|].
    assert (Hquot : (x / 2 ^ e == Qred x / 2 ^ e)%Q)
      by (apply Qmult_comp; [symmetry; apply Qred_correct | reflexivity]).
    rewrite !Hquot. apply roundHalfEven_nearest.
  - left. assert (H0 : (x == 0)%Q) by (apply Qle_antisym; assumption).
    split; [exact H0|]. rewrite (double_zero x H0). reflexivity.
Qed.

(** *** The score in double precision *)

Lemma quotient_bounds (k n : nat) :
  (k <= n)%nat -> (0 < n)%nat -> (0 <= ofNat k / ofNat n <= 1)%Q.
Proof.
  intros Hk Hn. unfold ofNat.
  assert (Hpos : (0 < inject_Z (Z.of_nat n))%Q) by (rewrite <- (Zlt_Qlt 0); lia).
  assert (Hk0 : (0 <= inject_Z (Z.of_nat k))%Q) by (rewrite <- (Zle_Qle 0); lia).
  assert (Hkn : (inject_Z (Z.of_nat k) <= inject_Z (Z.of_nat n))%Q)
    by (rewrite <- Zle_Qle; lia).
  split.
  - apply Qle_shift_div_l; [exact Hpos|]. rewrite Qmult_0_l. exact Hk0.
  - apply Qle_shift_div_r; [exact Hpos|]. rewrite Qmult_1_l. exact Hkn.
Qed.

(** A quotient of counts times an integer factor below 2^53, each
    operation rounded, stays between 0 and the factor. *)
Lemma scaled_quotient_bounds (k n : nat) (factor : Z) :
  (k <= n)%nat -> (0 < n)%nat -> 0 <= factor < 2 ^ 53 ->
  (0 <= double (double (ofNat k / ofNat n) * inject_Z factor) <= inject_Z factor)%Q.
Proof.
  intros Hk Hn [Hf0 Hf]. destruct (quotient_bounds k n Hk Hn) as [Hq0 Hq1].
  pose proof (double_nonneg _ Hq0) as Hd0.
  pose proof (double_le _ 1 Hq0 Hq1 eq_refl) as Hd1.
  assert (Hfactor : (0 <= inject_Z factor)%Q) by (rewrite <- (Zle_Qle 0); exact Hf0).
  assert (Hprod0 : (0 <= double (ofNat k / ofNat n) * inject_Z factor)%Q)
    by (apply Qmult_le_0_compat; assumption).
  assert (Hprod1 : (double (ofNat k / ofNat n) * inject_Z factor <= inject_Z factor)%Q).
  { rewrite <- (Qmult_1_l (inject_Z factor)) at 2.
    apply Qmult_le_compat_r; assumption. }
  split; [apply double_nonneg | apply double_le]; assumption.
Qed.

(** The stored rate lies between 0 and 100. *)
Lemma successRate_double_bounds (taskHistory : list Task) :
  (0 <= successRate_double taskHistory <= 100)%Q.
Proof.
  unfold successRate_double.
  destruct (Nat.ltb 0 (length taskHistory)) eqn:Htotal; [|split; discriminate].
  apply Nat.ltb_lt in Htotal.
  apply (scaled_quotient_bounds _ _ 100); [apply List.filter_length_le | exact Htotal | lia].
Qed.

(** C8, as the code has it.  With at least one agent registered and a
    stored rate that is not negative, the health score is computed in
    double precision: the share of idle agents, its product with 50, half
    the rate and the sum of the two parts are each the nearest double of
    the exact result; the performance part is half the rate up to 50 and
    50 above; and the score is the integer nearest to the sum, a tie going
    upwards.  With 2 of 4 agents idle and a rate of 80 it is 65, and it
    always lies between 0 and 100. *)
Theorem calculateSystemHealth_in_doubles (c : CEO) :
  teamAgents c <> [] ->
  (0 <= successRate (performanceMetrics c))%Q ->
  let idleWorkers := ofNat (length (availableAgents c)) in
  let totalWorkers := ofNat (length (teamAgents c)) in
  exists share availability half performance sum : Q,
    nearestDouble (idleWorkers / totalWorkers) share /\
    nearestDouble (share * 50) availability /\
    nearestDouble (successRate (performanceMetrics c) / 2) half /\
    ((half <= 50)%Q /\ performance = half \/ (50 < half)%Q /\ performance = 50%Q) /\
    nearestDouble (availability + performance) sum /\
    (inject_Z (calculateSystemHealth_double c) - (1 # 2) <= sum
     < inject_Z (calculateSystemHealth_double c) + (1 # 2))%Q /\
    0 <= calculateSystemHealth_double c <= 100 /\
    (length (teamAgents c) = 4%nat -> length (availableAgents c) = 2%nat ->
     (successRate (performanceMetrics c) == 80)%Q ->
     calculateSystemHealth_double c = 65).
Proof.
  intros Hteam Hrate idleWorkers totalWorkers.
  assert (Htotal : (0 < length (teamAgents c))%nat).
  { destruct (teamAgents c) eqn:H; [contradiction | cbn; lia]. }
  set (share := double (idleWorkers / totalWorkers)).
  set (availability := double (share * 50)).
  set (half := double (successRate (performanceMetrics c) / 2)).
  set (sum := double (availability + mathMin half 50)).
  assert (Hvalue : calculateSystemHealth_double c = mathRound sum).
  { unfold calculateSystemHealth_double.
    apply Nat.ltb_lt in Htotal. rewrite Htotal. reflexivity. }
  destruct (quotient_bounds (length (availableAgents c)) (length (teamAgents c)))
    as [Hq0 Hq1]; [apply List.filter_length_le | exact Htotal |].
  fold idleWorkers totalWorkers in Hq0, Hq1.
  destruct (scaled_quotient_bounds (length (availableAgents c)) (length (teamAgents c)) 50)
    as [Ha0 Ha50]; [apply List.filter_length_le | exact Htotal | lia |].
  change (inject_Z 50) with 50%Q in Ha0, Ha50.
  fold idleWorkers totalWorkers share availability in Ha0, Ha50.
  assert (Hshare : (0 <= share)%Q) by (apply double_nonneg; exact Hq0).
  assert (Hrate2 : (0 <= successRate (performanceMetrics c) / 2)%Q).
  { apply Qle_shift_div_l; [reflexivity|]. rewrite Qmult_0_l. exact Hrate. }
  assert (Hhalf : (0 <= half)%Q) by (apply double_nonneg; exact Hrate2).
  destruct (mathMin_bounds half Hhalf) as [Hp0 Hp50].
  exists share, availability, half, (mathMin half 50), sum.
  split; [apply double_nearestDouble; exact Hq0|].
  split; [apply double_nearestDouble; lra|].
  split; [apply double_nearestDouble; exact Hrate2|].
  split.
  { unfold mathMin. destruct (Qle_bool half 50) eqn:Hle.
    - left. split; [apply Qle_bool_iff, Hle | reflexivity].
    - right. split; [|reflexivity]. apply Qnot_le_lt. intros H.
      apply Qle_bool_iff in H. congruence. }
  split; [apply double_nearestDouble; lra|].
  split.
  { rewrite Hvalue. unfold mathRound.
    pose proof (Qfloor_le (sum + (1 # 2))) as Hfloor.
    pose proof (Qlt_floor (sum + (1 # 2))) as Hnext.
    rewrite inject_Z_plus in Hnext. change (inject_Z 1) with 1%Q in Hnext.
    split; lra. }
  split.
  { rewrite Hvalue. apply mathRound_bounds.
    split; [apply double_nonneg | apply (double_le _ 100); [| |reflexivity]];
      try (change (inject_Z 100) with 100%Q); lra. }
  intros H4 H2 H80. rewrite Hvalue.
  unfold sum, availability, share, half, idleWorkers, totalWorkers. rewrite H4, H2.
  rewrite (double_comp (successRate (performanceMetrics c) / 2) (80 / 2))
    by (rewrite H80; reflexivity).
  vm_compute. reflexivity.
Qed.

(** ** Aggregation *)

(** In a ledger in good order the tasks [aggregateResults] keeps are the
    successful history entries among the ids. *)
Lemma completedTasks_succeededHistory s taskIds :
  ledgerOk s ->
  List.filter (fun t => isCompleted t && succeeded t)
    (flat_map (fun taskId => reportedTask (getTaskStatus (coordinator s) taskId)) taskIds)
  = succeededHistory (coordinator s) taskIds.
Proof.
  intros Hok. unfold succeededHistory.
  induction taskIds as [|taskId rest IH]; [reflexivity|].
  cbn [flat_map]. rewrite List.filter_app, IH. f_equal.
  unfold getTaskStatus.
  destruct (activeTasks (coordinator s) !! taskId) as [t|] eqn:Hactive.
  - destruct (ok_active_shape s Hok _ _ Hactive) as (_ & Hstatus & _).
    cbn. unfold isCompleted. rewrite Hstatus. cbn.
    destruct (List.find _ _) as [t'|] eqn:Hfind; [|reflexivity].
    apply find_some in Hfind as [Hin Heq]. apply String.eqb_eq in Heq.
    assert (Hid : In taskId (historyIds (coordinator s)))
      by (unfold historyIds; rewrite <- Heq; apply in_map, Hin).
    apply (ok_disjoint s Hok) in Hid. rewrite Hactive in Hid. discriminate.
  - destruct (List.find _ _) as [t|] eqn:Hfind; [|reflexivity].
    apply find_some in Hfind as [Hin _].
    destruct (ok_history_shape s Hok t Hin) as [_ Hdone].
    cbn. destruct (succeeded t) eqn:Hs.
    + unfold isCompleted. rewrite (Hdone eq_refl). reflexivity.
    + rewrite andb_false_r. reflexivity.
Qed.





(** When some id names a successful history entry and the completion
    service fails, [aggregateResults] still reports success, without a
    text, if the service failed with an error object; it reports a failure
    with the raw data if the completion was rejected with [null] or
    [undefined]. *)
Theorem aggregateResults_on_service_error s env time taskIds aggregationType :
  reachable s ->
  succeededHistory (coordinator s) taskIds <> [] ->
  (forall message,
     let r := fst (aggregateResults env (Rejected (ErrorObject message)) time (coordinator s)
                     taskIds aggregationType) in
     ar_success r = true /\ ar_aggregated_result r = None /\
     ar_agents_involved r
     = Some (distinct [] (List.map task_assignedAgent
                            (succeededHistory (coordinator s) taskIds)))) /\
  (let r := fst (aggregateResults env (Rejected Nullish) time (coordinator s)
                   taskIds aggregationType) in
   ar_success r = false /\ ar_error r = Some nullishMessageError /\
   ar_aggregated_result r = None /\ is_Some (ar_raw_data r)).
Proof.
  intros Hreach Hsome. pose proof (reachable_ledgerOk s Hreach) as Hok.
  pose proof (completedTasks_succeededHistory s taskIds Hok) as Hfilter.
  split; [intros message r | intros r]; subst r;
    unfold aggregateResults, aggregateResults_begin; rewrite Hfilter;
    remember (distinct [] (List.map task_assignedAgent
                             (succeededHistory (coordinator s) taskIds)))
      as names eqn:Hnames;
    destruct (succeededHistory (coordinator s) taskIds) as [|t ts]; try congruence;
    unfold aggregateResults_settle, aggregateResults_resume, processTask_resume,
      processTask_begin;
    cbn -[distinct]; rewrite ?lookup_insert_eq; cbn -[distinct]; subst names;
    repeat split; eexists; reflexivity.
Qed.

End Properties.

(** * Properties of the code around the coordinator *)

(** ** Housekeeping and reports of an agent *)

Lemma fold_delete_lookup (l : list (string * LocalTask)) (m : gmap string LocalTask) id :
  fold_left (fun tasks entry => delete (fst entry) tasks) l m !! id
  = if existsb (fun entry => String.eqb (fst entry) id) l then None else m !! id.
Proof.
  revert m. induction l as [|[k t] l IH]; intros m; [reflexivity|].
  cbn [fold_left existsb fst]. rewrite IH.
  destruct (String.eqb_spec k id) as [->|Hne]; cbn [orb].
  - destruct (existsb _ l); [reflexivity | apply lookup_delete_eq].
  - destruct (existsb _ l); [reflexivity | apply lookup_delete_ne, Hne].
Qed.

Lemma clearCompletedTasks_lookup a id :
  currentTasks (clearCompletedTasks a) !! id
  = match currentTasks a !! id with
    | Some t => if isProcessing t then Some t else None
    | None => None
    end.
Proof.
  unfold clearCompletedTasks. cbn [currentTasks]. rewrite fold_delete_lookup.
  destruct (existsb _ _) eqn:Hex.
  - apply existsb_exists in Hex as ([k t] & Hin & Hk). cbn in Hk.
    apply String.eqb_eq in Hk. subst k.
    apply filter_In in Hin as [Hin Hdone]. cbn [snd] in Hdone.
    apply list_elem_of_In, elem_of_map_to_list in Hin. rewrite Hin.
    unfold isProcessing, isLocalCompleted, isLocalFailed in *.
    destruct (lt_status t); [discriminate | reflexivity | reflexivity].
  - destruct (currentTasks a !! id) as [t|] eqn:Hlook; [|reflexivity].
    destruct (isProcessing t) eqn:Hproc; [reflexivity|].
    exfalso. apply Bool.not_true_iff_false in Hex. apply Hex.
    apply existsb_exists. exists (id, t). split; [|apply String.eqb_refl].
    apply filter_In. split.
    + apply list_elem_of_In, elem_of_map_to_list, Hlook.
    + cbn [snd]. unfold isProcessing, isLocalCompleted, isLocalFailed in *.
      destruct (lt_status t); [discriminate | reflexivity | reflexivity].
Qed.

Lemma filter_none {A : Type} (f : A -> bool) (l : list A) :
  (forall x, In x l -> f x = false) -> List.filter f l = [].
Proof.
  induction l as [|x l IH]; intros H; [reflexivity|].
  cbn. rewrite (H x (or_introl eq_refl)). apply IH. intros y Hy. apply H. right. exact Hy.
Qed.

Lemma currentValues_In a t :
  In t (currentValues a) <-> exists id, currentTasks a !! id = Some t.
Proof.
  unfold currentValues, currentEntries. rewrite in_map_iff. split.
  - intros ([id t'] & <- & Hin). exists id.
    apply list_elem_of_In, elem_of_map_to_list in Hin. exact Hin.
  - intros (id & Hid). exists (id, t). split; [reflexivity|].
    apply list_elem_of_In, elem_of_map_to_list, Hid.
Qed.

Lemma status_partition (l : list LocalTask) :
  length l
  = (length (List.filter isLocalCompleted l) + length (List.filter isLocalFailed l)
     + length (List.filter isProcessing l))%nat.
Proof.
  induction l as [|t l IH]; [reflexivity|].
  cbn [List.filter length]. unfold isLocalCompleted, isLocalFailed, isProcessing in *.
  destruct (lt_status t); cbn [length]; lia.
Qed.

(** [clearCompletedTasks] removes exactly the local tasks that are
    completed or failed.  A task still being processed keeps its entry
    unchanged, and its completion afterwards is reported as it would have
    been without the cleanup.  The agent's name, role, skills and status
    are not touched; [getStatus] then counts no completed task and no more
    tasks than before; a second cleanup changes nothing. *)
Theorem clearCompletedTasks_keeps_processing (a : Agent) :
  let a' := clearCompletedTasks a in
  (forall id,
     currentTasks a' !! id
     = match currentTasks a !! id with
       | Some t => if isProcessing t then Some t else None
       | None => None
       end) /\
  (name a' = name a /\ role a' = role a /\ specialKnowledge a' = specialKnowledge a /\
   status a' = status a) /\
  rep_completed_tasks (getStatus a') = 0%nat /\
  (rep_current_tasks (getStatus a') <= rep_current_tasks (getStatus a))%nat /\
  clearCompletedTasks a' = a' /\
  (forall id t outcome completionTime,
     currentTasks a !! id = Some t -> isProcessing t = true ->
     fst (processTask_resume id outcome completionTime a')
     = fst (processTask_resume id outcome completionTime a)).
Proof.
  intros a'. subst a'.
  assert (Hkept : forall id t, currentTasks (clearCompletedTasks a) !! id = Some t ->
                    currentTasks a !! id = Some t /\ isProcessing t = true).
  { intros id t. rewrite clearCompletedTasks_lookup.
    destruct (currentTasks a !! id) as [t'|]; [|discriminate].
    destruct (isProcessing t') eqn:Hp; [|discriminate].
    intros [= <-]. split; [reflexivity | exact Hp]. }
  split; [apply clearCompletedTasks_lookup|].
  split; [repeat split|]. split; [|split; [|split]].
  - unfold getStatus. cbn [rep_completed_tasks]. rewrite filter_none; [reflexivity|].
    intros t Ht. apply currentValues_In in Ht as (id & Hid).
    destruct (Hkept id t Hid) as [_ Hp].
    unfold isProcessing, isLocalCompleted in *. destruct (lt_status t); congruence.
  - unfold getStatus. cbn [rep_current_tasks]. apply map_subseteq_size.
    apply map_subseteq_spec. intros id t Hid. apply (Hkept id t Hid).
  - assert (Hmap : currentTasks (clearCompletedTasks (clearCompletedTasks a))
                   = currentTasks (clearCompletedTasks a)).
    { apply map_eq. intros id. rewrite (clearCompletedTasks_lookup (clearCompletedTasks a)).
      destruct (currentTasks (clearCompletedTasks a) !! id) as [t|] eqn:Hid; [|reflexivity].
      destruct (Hkept id t Hid) as [_ ->]. reflexivity. }
    unfold clearCompletedTasks at 1. unfold clearCompletedTasks at 1 in Hmap.
    cbn [currentTasks] in Hmap. rewrite Hmap.
    unfold clearCompletedTasks. reflexivity.
  - intros id t outcome completionTime Hid Hp.
    assert (Hid' : currentTasks (clearCompletedTasks a) !! id = Some t).
    { rewrite clearCompletedTasks_lookup, Hid, Hp. reflexivity. }
    unfold processTask_resume. rewrite Hid, Hid'.
    destruct outcome as [text|[message|]]; reflexivity.
Qed.

Lemma omap_lookup_nil (m : gmap string LocalTask) (ids : list string) :
  omap (fun id => m !! id) ids = [] <-> forall id, In id ids -> m !! id = None.
Proof.
  induction ids as [|id ids IH]; cbn [omap list_omap].
  - split; [intros _ id [] | reflexivity].
  - destruct (m !! id) eqn:Hid.
    + split; [discriminate|]. intros H. specialize (H id (or_introl eq_refl)). congruence.
    + rewrite IH. split.
      * intros H id' [<-|Hin]; [exact Hid | apply H, Hin].
      * intros H id' Hin. apply H. right. exact Hin.
Qed.

(** [generateReport] answers with the error [No tasks available for report
    generation] exactly when it finds no task: with no id given, when the
    agent has no local task at all; with ids given, when none of them is
    the id of a local task.  Otherwise the report data, whether or not the
    insights could be generated and saved, list one summary per task
    found, and the tasks analysed are the successful ones, the failed ones
    and those still being processed; with no id given the counts are those
    of [getStatus]. *)
Theorem generateReport_counts generatedAt outcome saved (a : Agent) taskIds reportType :
  let report := generateReport generatedAt outcome saved a taskIds reportType in
  (report = ReportError "No tasks available for report generation" <->
   match taskIds with
   | [] => currentTasks a = ∅
   | _ :: _ => forall id, In id taskIds -> currentTasks a !! id = None
   end) /\
  (reportedData report = None <->
   report = ReportError "No tasks available for report generation") /\
  (forall data, reportedData report = Some data ->
     rd_tasks_analyzed data
     = (rd_successful_tasks data + rd_failed_tasks data
        + length (List.filter isProcessing (reportTasks a taskIds)))%nat /\
     length (rd_tasks data) = rd_tasks_analyzed data /\
     (taskIds = [] ->
      rd_tasks_analyzed data = rep_current_tasks (getStatus a) /\
      rd_successful_tasks data = rep_completed_tasks (getStatus a))).
Proof.
  intros report. subst report. unfold generateReport.
  assert (Hnone : reportTasks a taskIds = [] <->
                  match taskIds with
                  | [] => currentTasks a = ∅
                  | _ :: _ => forall id, In id taskIds -> currentTasks a !! id = None
                  end).
  { destruct taskIds as [|id ids].
    - cbn [reportTasks]. unfold currentValues, currentEntries.
      rewrite <- map_to_list_empty_iff. split; [|intros ->; reflexivity].
      intros H. destruct (map_to_list (currentTasks a)); [reflexivity | discriminate].
    - unfold reportTasks. apply omap_lookup_nil. }
  rewrite <- Hnone.
  destruct (reportTasks a taskIds) as [|t tasks] eqn:Htasks.
  - split; [split; reflexivity|]. split; [split; reflexivity|]. intros data [=].
  - split; [|split].
    + split; [|discriminate]. destruct outcome as [text|e]; [destruct saved|]; discriminate.
    + destruct outcome as [text|e]; [destruct saved|]; split; discriminate.
    + intros data Hdata.
      assert (Heq : data
                    = mkReportData (name a) (role a) reportType generatedAt
                        (length (t :: tasks))
                        (length (List.filter isLocalCompleted (t :: tasks)))
                        (length (List.filter isLocalFailed (t :: tasks)))
                        (List.map summarize (t :: tasks))).
      { destruct outcome as [text|e]; [destruct saved|]; cbn [reportedData] in Hdata;
          injection Hdata as <-; reflexivity. }
      subst data. cbn [rd_tasks_analyzed rd_successful_tasks rd_failed_tasks rd_tasks].
      split; [apply status_partition|]. split; [apply length_map|].
      intros ->. cbn [reportTasks] in Htasks. unfold getStatus.
      cbn [rep_current_tasks rep_completed_tasks]. rewrite Htasks. split; [|reflexivity].
      rewrite <- Htasks. unfold currentValues, currentEntries.
      rewrite length_map. apply length_map_to_list.
Qed.

(** ** Counters, registry and agents of the coordinator *)

Section CoordinatorProperties.

Context {builtins : Builtins}.

Lemma countersOk_initial : countersOk initial.
Proof.
  constructor; cbn; try reflexivity.
  - intros t [].
  - discriminate.
Qed.

Lemma countersOk_same s s' :
  countersOk s ->
  length (pendingTasks s') = length (pendingTasks s) ->
  activeTasks (coordinator s') = activeTasks (coordinator s) ->
  taskHistory (coordinator s') = taskHistory (coordinator s) ->
  performanceMetrics (coordinator s') = performanceMetrics (coordinator s) ->
  countersOk s'.
Proof.
  intros [H1 H2 H3 H4 H5] Hp Ha Hh Hm.
  constructor; rewrite ?Hp, ?Ha, ?Hh, ?Hm; assumption.
Qed.

Lemma totalTime_from (l : list Task) (start : Z) :
  (forall t, In t l -> is_Some (task_completedAt t)) ->
  is_Some (fold_left (fun sum t =>
                        match sum, elapsed t with
                        | Some s, Some e => Some (s + e)
                        | _, _ => None
                        end) l (Some start)).
Proof.
  revert start. induction l as [|t l IH]; intros start H; [eexists; reflexivity|].
  cbn [fold_left]. destruct (H t (or_introl eq_refl)) as [finish Hfinish].
  unfold elapsed at 2. rewrite Hfinish. apply IH. intros t' Ht'. apply H. right. exact Ht'.
Qed.

Lemma updatePerformanceMetrics_average c :
  (forall t, In t (taskHistory c) -> is_Some (task_completedAt t)) ->
  averageCompletionTime (performanceMetrics c) <> NaN ->
  averageCompletionTime (performanceMetrics (updatePerformanceMetrics c)) <> NaN.
Proof.
  intros Hfinished Haverage. unfold updatePerformanceMetrics.
  cbn [performanceMetrics averageCompletionTime].
  destruct (Nat.ltb 0 _); [|exact Haverage].
  destruct (totalTime_from (List.filter isCompleted (taskHistory c)) 0) as [total Htotal].
  { intros t Ht. apply filter_In in Ht as [Ht _]. apply Hfinished, Ht. }
  unfold totalTime. rewrite Htotal. discriminate.
Qed.

Lemma terminalTask_completedAt task completedAt completion :
  task_completedAt (terminalTask task completedAt completion) = Some completedAt.
Proof. destruct completion; reflexivity. Qed.

Lemma terminalTask_isCompleted task completedAt completion :
  isCompleted (terminalTask task completedAt completion)
  = match completion with Normal result => pr_success result | Throw _ => false end.
Proof.
  destruct completion as [result|message]; [|reflexivity].
  unfold isCompleted. cbn. destruct (pr_success result); reflexivity.
Qed.

Lemma resume_countersOk s i p completion completedAt :
  ledgerOk s -> countersOk s ->
  nth_error (pendingTasks s) i = Some p ->
  countersOk (mkSystem (snd (assignTask_resume p completion completedAt (coordinator s)))
                (removeAt i (pendingTasks s)) (pendingAggregations s)).
Proof.
  intros Hok [H1 H2 H3 H4 H5] Hnth.
  destruct (removeAt_split _ _ _ Hnth) as (l1 & l2 & Hl & Hrm).
  assert (Hp : In p (pendingTasks s)) by (rewrite Hl; apply in_elt).
  pose proof (ok_pending_active s Hok p Hp) as Hactive.
  assert (Hsize : size (activeTasks (coordinator s))
                  = S (size (delete (pendingId p) (activeTasks (coordinator s))))).
  { rewrite map_size_delete_Some by (eexists; exact Hactive).
    assert (size (activeTasks (coordinator s)) <> 0%nat); [|lia].
    apply map_size_non_empty_iff. intros Hempty. rewrite Hempty, lookup_empty in Hactive.
    discriminate. }
  assert (Hfinished : forall t,
            In t (taskHistory (coordinator s)
                  ++ [terminalTask (pt_task p) completedAt completion])%list ->
            is_Some (task_completedAt t)).
  { intros t Ht. apply in_app_or in Ht as [Ht|[<-|[]]]; [apply H4, Ht|].
    rewrite terminalTask_completedAt. eexists; reflexivity. }
  assert (Hcount : length (List.filter isCompleted
                             (taskHistory (coordinator s)
                              ++ [terminalTask (pt_task p) completedAt completion])%list)
                   = (length (List.filter isCompleted (taskHistory (coordinator s)))
                      + if isCompleted (terminalTask (pt_task p) completedAt completion)
                        then 1 else 0)%nat).
  { rewrite List.filter_app, length_app. cbn [List.filter].
    destruct (isCompleted _); reflexivity. }
  rewrite terminalTask_isCompleted in Hcount.
  unfold assignTask_resume. fold (pendingId p).
  destruct completion as [result|message]; cbn [snd].
  - constructor; cbn [coordinator pendingTasks].
    + cbn [updatePerformanceMetrics performanceMetrics activeTasks taskHistory
           tasksAssigned].
      rewrite H1, Hsize, length_app. cbn [length]. lia.
    + cbn [updatePerformanceMetrics performanceMetrics taskHistory tasksCompleted].
      rewrite Hcount, H2. destruct (pr_success result); lia.
    + cbn [updatePerformanceMetrics activeTasks].
      rewrite Hrm, length_app. rewrite Hl, length_app in H3. cbn [length] in H3. lia.
    + exact Hfinished.
    + apply updatePerformanceMetrics_average; [exact Hfinished | exact H5].
  - constructor; cbn [coordinator pendingTasks performanceMetrics activeTasks taskHistory].
    + rewrite H1, Hsize, length_app. cbn [length]. lia.
    + rewrite Hcount, H2. lia.
    + rewrite Hrm, length_app. rewrite Hl, length_app in H3. cbn [length] in H3. lia.
    + exact Hfinished.
    + exact H5.
Qed.

Lemma replaceAt_length {A : Type} (l : list A) i x y :
  nth_error l i = Some x -> length (replaceAt i y l) = length l.
Proof.
  intros Hnth. destruct (replaceAt_split _ _ _ y Hnth) as (l1 & l2 & -> & ->).
  rewrite !length_app. reflexivity.
Qed.

Lemma step_countersOk s op :
  ledgerOk s -> countersOk s -> admissible s op -> countersOk (fst (step s op)).
Proof.
  intros Hok Hc Hadm.
  destruct op as [agent|env d pr rs|i outcome time|i completedAt|env ids ty|i outcome time|i];
    cbn [step].
  - apply (countersOk_same s); [exact Hc | reflexivity..].
  - cbn in Hadm. destruct Hadm as [Hfresh _].
    destruct (assignTask_begin_cases env (coordinator s) d pr rs)
      as [[_ ->]|(agent & c' & _ & _ & -> & _ & Ha & Hh & Hassigned & Hcompleted & Hav & _)].
    + exact Hc.
    + cbn [fst]. destruct Hc as [H1 H2 H3 H4 H5].
      constructor; cbn [coordinator pendingTasks];
        rewrite ?Ha, ?Hh, ?Hassigned, ?Hcompleted, ?Hav; try assumption.
      * rewrite map_size_insert_None by exact Hfresh. rewrite H1. lia.
      * rewrite map_size_insert_None by exact Hfresh. rewrite length_app, H3. cbn [length]. lia.
  - destruct (nth_error (pendingTasks s) i) as [[task agent [completion|]]|] eqn:Hnth;
      try exact Hc.
    cbn [fst]. apply (countersOk_same s); try exact Hc; try reflexivity.
    cbn [pendingTasks]. eapply replaceAt_length. exact Hnth.
  - destruct (nth_error (pendingTasks s) i) as [[task agent [completion|]]|] eqn:Hnth;
      try exact Hc.
    pose proof (resume_countersOk s i _ completion completedAt Hok Hc Hnth) as H.
    destruct (assignTask_resume _ completion completedAt (coordinator s)) as [r c']. exact H.
  - unfold aggregateResults_begin.
    destruct (List.filter _ _); cbn [fst]; apply (countersOk_same s); try exact Hc;
      reflexivity.
  - destruct (nth_error (pendingAggregations s) i) as [[? ? ? ? ? [completion|]]|];
      try exact Hc.
    cbn [fst]. apply (countersOk_same s); try exact Hc; reflexivity.
  - destruct (nth_error (pendingAggregations s) i) as [[? ? ? ? ? [completion|]]|];
      try exact Hc.
    cbn [fst]. apply (countersOk_same s); try exact Hc; reflexivity.
Qed.

Lemma reaches_countersOk s s' :
  ledgerOk s -> countersOk s -> reaches s s' -> countersOk s'.
Proof.
  intros Hok Hc Hreach. induction Hreach as [s|s op s' Hadm _ IH]; [exact Hc|].
  apply IH; [apply step_ledgerOk | apply step_countersOk]; assumption.
Qed.

Lemma reachable_countersOk s : reachable s -> countersOk s.
Proof. apply reaches_countersOk; [apply ledgerOk_initial | apply countersOk_initial]. Qed.

Lemma history_partition (l : list Task) :
  (forall t, In t l -> task_status t <> assigned) ->
  length l = (length (List.filter isCompleted l) + length (List.filter isFailed l))%nat.
Proof.
  induction l as [|t l IH]; intros H; [reflexivity|].
  cbn [List.filter length]. unfold isCompleted, isFailed in *.
  pose proof (H t (or_introl eq_refl)) as Ht.
  rewrite (IH (fun t' Ht' => H t' (or_intror Ht'))).
  destruct (task_status t); cbn [length]; try lia. contradiction.
Qed.

(** In every state the system can reach, the statistics of
    [generateTeamReport] and of [getSystemStatus] add up: the counter of
    assigned tasks is the number of active tasks plus those of completed
    and of failed tasks, the counter of completed tasks is the number of
    completed tasks in the history, there are as many active tasks as
    [assignTask] calls still in flight, there is one status per agent, the
    success rate lies between 0 and 100 and the average completion time is
    a number. *)
Theorem teamStats_add_up s :
  reachable s ->
  let st := teamStats (coordinator s) in
  let m := st_performance_metrics st in
  tasksAssigned m
  = Z.of_nat (st_active_tasks st + st_completed_tasks st + st_failed_tasks st) /\
  tasksCompleted m = Z.of_nat (st_completed_tasks st) /\
  st_active_tasks st = length (pendingTasks s) /\
  length (st_agent_status st) = st_total_agents st /\
  (0 <= successRate m <= 100)%Q /\
  (exists minutes, averageCompletionTime m = Minutes minutes) /\
  ss_active_tasks (getSystemStatus (coordinator s)) = st_active_tasks st /\
  ss_performance_metrics (getSystemStatus (coordinator s)) = m /\
  ss_team_agents (getSystemStatus (coordinator s)) = st_agent_status st.
Proof.
  intros Hreach st m. subst st m.
  pose proof (reachable_ledgerOk s Hreach) as Hok.
  destruct (reachable_countersOk s Hreach) as [H1 H2 H3 H4 H5].
  unfold teamStats, getSystemStatus.
  cbn [st_performance_metrics st_active_tasks st_completed_tasks st_failed_tasks
       st_agent_status st_total_agents ss_active_tasks ss_performance_metrics ss_team_agents].
  repeat split; try reflexivity.
  - rewrite H1, <- Nat.add_assoc, <- history_partition; [lia|].
    intros t Ht. apply (ok_history_shape s Hok t Ht).
  - exact H2.
  - exact H3.
  - apply length_map.
  - apply (ok_rate s Hok).
  - apply (ok_rate s Hok).
  - destruct (averageCompletionTime (performanceMetrics (coordinator s))) as [q|];
      [exists q; reflexivity | contradiction].
Qed.

(** *** The registry *)

Lemma mapSet_names agent m :
  List.map name (mapSet agent m)
  = if existsb (fun n => String.eqb n (name agent)) (List.map name m)
    then List.map name m
    else (List.map name m ++ [name agent])%list.
Proof.
  induction m as [|b m IH]; [reflexivity|].
  cbn [mapSet List.map existsb]. destruct (String.eqb_spec (name b) (name agent)) as [Heq|Hne].
  - cbn [List.map orb]. rewrite Heq. reflexivity.
  - cbn [List.map orb]. rewrite IH. destruct (existsb _ _); reflexivity.
Qed.

Lemma getAgent_mapSet agent m n :
  getAgent n (mapSet agent m)
  = if String.eqb (name agent) n then Some agent else getAgent n m.
Proof.
  unfold getAgent. induction m as [|b m IH].
  - cbn. destruct (String.eqb (name agent) n); reflexivity.
  - cbn [mapSet]. destruct (String.eqb_spec (name b) (name agent)) as [Heq|Hne].
    + cbn [List.find]. rewrite Heq. destruct (String.eqb (name agent) n); reflexivity.
    + cbn [List.find]. rewrite IH. destruct (String.eqb_spec (name b) n) as [Hb|Hb];
        [|reflexivity].
      destruct (String.eqb_spec (name agent) n) as [Ha|Ha]; [congruence | reflexivity].
Qed.

Lemma updateAgent_names n f m :
  (forall b, name (f b) = name b) -> List.map name (updateAgent n f m) = List.map name m.
Proof.
  intros Hf. unfold updateAgent. rewrite List.map_map. apply List.map_ext.
  intros b. destruct (String.eqb (name b) n); [apply Hf | reflexivity].
Qed.

Lemma getAgent_updateAgent n f m n' :
  (forall b, name (f b) = name b) ->
  getAgent n' (updateAgent n f m)
  = (if String.eqb n' n then f else fun b => b) <$> getAgent n' m.
Proof.
  intros Hf. unfold getAgent, updateAgent. induction m as [|b m IH]; [reflexivity|].
  cbn [List.map List.find].
  assert (Hname : name (if String.eqb (name b) n then f b else b) = name b).
  { destruct (String.eqb (name b) n); [apply Hf | reflexivity]. }
  rewrite Hname. destruct (String.eqb_spec (name b) n') as [Hb|Hb]; [|exact IH].
  cbn. subst n'. destruct (String.eqb (name b) n); reflexivity.
Qed.

Lemma getAgent_In agent m :
  List.NoDup (List.map name m) -> In agent m -> getAgent (name agent) m = Some agent.
Proof.
  unfold getAgent. induction m as [|b m IH]; intros Hnd Hin; [destruct Hin|].
  cbn [List.map] in Hnd. inversion Hnd as [|? ? Hnot Hnd']; subst.
  cbn [List.find]. destruct Hin as [->|Hin].
  - rewrite String.eqb_refl. reflexivity.
  - destruct (String.eqb_spec (name b) (name agent)) as [Heq|Hne]; [|apply IH; assumption].
    exfalso. apply Hnot. rewrite Heq. apply in_map, Hin.
Qed.

Lemma processTask_begin_name taskId d context startTime a :
  name (processTask_begin taskId d context startTime a) = name a.
Proof. reflexivity. Qed.

Lemma processTask_resume_name taskId outcome completionTime a :
  name (snd (processTask_resume taskId outcome completionTime a)) = name a.
Proof.
  unfold processTask_resume.
  destruct outcome as [text|[message|]]; try destruct (currentTasks a !! taskId); reflexivity.
Qed.

Lemma registry_step s op :
  List.NoDup (List.map name (teamAgents (coordinator s))) ->
  List.NoDup (List.map name (teamAgents (coordinator (fst (step s op))))).
Proof.
  intros Hnd.
  destruct op as [agent|env d pr rs|i outcome time|i completedAt|env ids ty|i outcome time|i];
    cbn [step].
  - cbn [fst coordinator registerTeamAgent teamAgents]. rewrite mapSet_names.
    destruct (existsb _ _) eqn:Hex; [exact Hnd|].
    apply List.NoDup_app; [exact Hnd | constructor; [intros [] | constructor] |].
    intros n Hn [<-|[]]. apply Bool.not_true_iff_false in Hex. apply Hex.
    apply existsb_exists. exists (name agent). split; [exact Hn | apply String.eqb_refl].
  - unfold assignTask_begin.
    destruct (selectBestAgent (coordinator s) rs d) as [[agent|]|message]; cbn; try exact Hnd.
    rewrite updateAgent_names; [exact Hnd | reflexivity].
  - destruct (nth_error (pendingTasks s) i) as [[task agent [completion|]]|]; try exact Hnd.
    cbn. rewrite updateAgent_names; [exact Hnd|]. intros b. apply processTask_resume_name.
  - destruct (nth_error (pendingTasks s) i) as [[task agent [completion|]]|] eqn:Hnth;
      try exact Hnd.
    destruct (assignTask_resume_ledger (mkPendingTask task agent (Some completion))
                completion completedAt (coordinator s)) as (_ & _ & Hteam & _).
    destruct (assignTask_resume _ completion completedAt (coordinator s)) as [r c'].
    cbn in *. rewrite Hteam. exact Hnd.
  - unfold aggregateResults_begin. destruct (List.filter _ _); exact Hnd.
  - destruct (nth_error (pendingAggregations s) i) as [[? ? ? ? ? [completion|]]|];
      exact Hnd.
  - destruct (nth_error (pendingAggregations s) i) as [[? ? ? ? ? [completion|]]|];
      exact Hnd.
Qed.

Lemma reaches_registry s s' :
  List.NoDup (List.map name (teamAgents (coordinator s))) -> reaches s s' ->
  List.NoDup (List.map name (teamAgents (coordinator s'))).
Proof.
  intros Hnd Hreach. induction Hreach as [s|s op s' _ _ IH]; [exact Hnd|].
  apply IH, registry_step, Hnd.
Qed.

(** The registry holds one agent per name in every state the system can
    reach.  Registering an agent makes it the agent of its name and leaves
    those of other names as they are; under a name in use it takes the
    place of the agent registered before, so that the size of the registry
    and the order of its names stay, and under a new name it goes last. *)
Theorem registerTeamAgent_one_per_name agent :
  (forall s, reachable s -> List.NoDup (List.map name (teamAgents (coordinator s)))) /\
  (forall c n,
     getAgent n (teamAgents (registerTeamAgent agent c))
     = if String.eqb (name agent) n then Some agent else getAgent n (teamAgents c)) /\
  (forall c,
     List.map name (teamAgents (registerTeamAgent agent c))
     = if existsb (fun n => String.eqb n (name agent)) (List.map name (teamAgents c))
       then List.map name (teamAgents c)
       else (List.map name (teamAgents c) ++ [name agent])%list) /\
  (forall c,
     self (registerTeamAgent agent c) = self c /\
     activeTasks (registerTeamAgent agent c) = activeTasks c /\
     taskHistory (registerTeamAgent agent c) = taskHistory c /\
     performanceMetrics (registerTeamAgent agent c) = performanceMetrics c).
Proof.
  split; [|split; [|split]].
  - intros s Hreach. apply (reaches_registry initial); [constructor | exact Hreach].
  - intros c n. apply getAgent_mapSet.
  - intros c. apply mapSet_names.
  - intros c. repeat split.
Qed.

(** *** Agents while the coordinator serves calls *)

Lemma size_alter (f : LocalTask -> LocalTask) (taskId : string) (m : gmap string LocalTask) :
  size (alter f taskId m) = size m.
Proof.
  rewrite <- (size_dom (D := gset string) (alter f taskId m)).
  rewrite <- (size_dom (D := gset string) m). rewrite dom_alter_L. reflexivity.
Qed.

Lemma grownFrom_refl a : grownFrom a a.
Proof. unfold grownFrom. do 3 (split; [reflexivity|]). lia. Qed.

Lemma grownFrom_trans a b c : grownFrom a b -> grownFrom b c -> grownFrom a c.
Proof.
  intros (H1 & H2 & H3 & H4) (H1' & H2' & H3' & H4').
  repeat split; [congruence.. | lia].
Qed.

Lemma processTask_begin_grows taskId d context startTime a :
  grownFrom a (processTask_begin taskId d context startTime a).
Proof.
  repeat split. cbn [processTask_begin currentTasks]. rewrite map_size_insert.
  destruct (currentTasks a !! taskId); cbn; lia.
Qed.

Lemma processTask_resume_grows taskId outcome completionTime a :
  grownFrom a (snd (processTask_resume taskId outcome completionTime a)).
Proof.
  unfold processTask_resume.
  destruct outcome as [text|[message|]]; try destruct (currentTasks a !! taskId);
    repeat split; cbn [snd setStatus updateLocal currentTasks]; rewrite ?size_alter; lia.
Qed.

Lemma Forall2_grownFrom_refl m : Forall2 grownFrom m m.
Proof. induction m; constructor; [apply grownFrom_refl | assumption]. Qed.

Lemma Forall2_grownFrom_trans m1 m2 m3 :
  Forall2 grownFrom m1 m2 -> Forall2 grownFrom m2 m3 -> Forall2 grownFrom m1 m3.
Proof.
  intros H12. revert m3. induction H12 as [|a b m1 m2 Hab _ IH]; intros m3 H23.
  - inversion H23. constructor.
  - inversion H23 as [|? c ? m3' Hbc H23']; subst. constructor.
    + apply (grownFrom_trans a b c); assumption.
    + apply IH, H23'.
Qed.

Lemma updateAgent_grows n f m :
  (forall b, grownFrom b (f b)) -> Forall2 grownFrom m (updateAgent n f m).
Proof.
  intros Hf. unfold updateAgent. induction m as [|b m IH]; constructor; [|exact IH].
  destruct (String.eqb (name b) n); [apply Hf | apply grownFrom_refl].
Qed.

Lemma step_grows s op :
  isCall op = true ->
  Forall2 grownFrom (teamAgents (coordinator s)) (teamAgents (coordinator (fst (step s op)))).
Proof.
  intros Hcall.
  destruct op as [agent|env d pr rs|i outcome time|i completedAt|env ids ty|i outcome time|i];
    cbn [step]; try discriminate.
  - unfold assignTask_begin.
    destruct (selectBestAgent (coordinator s) rs d) as [[agent|]|message]; cbn;
      try apply Forall2_grownFrom_refl.
    apply updateAgent_grows. intros b. apply processTask_begin_grows.
  - destruct (nth_error (pendingTasks s) i) as [[task agent [completion|]]|];
      try apply Forall2_grownFrom_refl.
    cbn. apply updateAgent_grows. intros b. apply processTask_resume_grows.
  - destruct (nth_error (pendingTasks s) i) as [[task agent [completion|]]|] eqn:Hnth;
      try apply Forall2_grownFrom_refl.
    destruct (assignTask_resume_ledger (mkPendingTask task agent (Some completion))
                completion completedAt (coordinator s)) as (_ & _ & Hteam & _).
    destruct (assignTask_resume _ completion completedAt (coordinator s)) as [r c'].
    cbn in *. rewrite Hteam. apply Forall2_grownFrom_refl.
  - unfold aggregateResults_begin. destruct (List.filter _ _); apply Forall2_grownFrom_refl.
  - destruct (nth_error (pendingAggregations s) i) as [[? ? ? ? ? [completion|]]|];
      apply Forall2_grownFrom_refl.
  - destruct (nth_error (pendingAggregations s) i) as [[? ? ? ? ? [completion|]]|];
      apply Forall2_grownFrom_refl.
Qed.

Lemma serves_grows s s' :
  serves s s' ->
  Forall2 grownFrom (teamAgents (coordinator s)) (teamAgents (coordinator s')).
Proof.
  intros Hserves. induction Hserves as [s|s op s' Hcall _ _ IH].
  - apply Forall2_grownFrom_refl.
  - apply (Forall2_grownFrom_trans _ _ _ (step_grows s op Hcall) IH).
Qed.

Lemma serves_reaches s s' : serves s s' -> reaches s s'.
Proof.
  intros Hserves. induction Hserves as [s|s op s' _ Hadm _ IH]; [apply reaches_here|].
  apply (reaches_step s op); assumption.
Qed.

(** While the coordinator serves [assignTask] and [aggregateResults]
    calls, however they interleave, the registry keeps its agents, in
    their order, with their names, roles and skills, and no agent ever has
    fewer local tasks than before: the coordinator never clears them, so
    an agent's count of current tasks is the count of all tasks it ever
    received. *)
Theorem serving_keeps_agents s s' :
  serves s s' ->
  Forall2 grownFrom (teamAgents (coordinator s)) (teamAgents (coordinator s')) /\
  List.map name (teamAgents (coordinator s')) = List.map name (teamAgents (coordinator s)) /\
  List.map role (teamAgents (coordinator s')) = List.map role (teamAgents (coordinator s)) /\
  (forall a', In a' (teamAgents (coordinator s')) ->
     exists a, In a (teamAgents (coordinator s)) /\ name a = name a' /\
       (rep_current_tasks (getStatus a) <= rep_current_tasks (getStatus a'))%nat).
Proof.
  intros Hserves. pose proof (serves_grows s s' Hserves) as Hgrown.
  split; [exact Hgrown|].
  induction Hgrown as [|a a' m m' (Hname & Hrole & _ & Hsize) _ (IHn & IHr & IHa)].
  - repeat split. intros a' [].
  - cbn [List.map]. rewrite Hname, Hrole, IHn, IHr. repeat split.
    intros b [<-|Hb].
    + exists a. split; [left; reflexivity|]. split; [symmetry; exact Hname | exact Hsize].
    + destruct (IHa b Hb) as (b0 & Hb0 & Hrest). exists b0. split; [right; exact Hb0 | exact Hrest].
Qed.

(** *** The agent after a task *)

Lemma processTask_resume_found taskId outcome completionTime a localTask :
  currentTasks a !! taskId = Some localTask ->
  processTask_resume taskId outcome completionTime a
  = match outcome with
    | Resolved text =>
        (Normal (mkProcessResult true (Some text) None (name a) taskId),
         setStatus idle
           (updateLocal taskId (fun t =>
              mkLocalTask (lt_description t) (lt_startTime t) localCompleted (lt_context t)
                (Some text) (lt_error t) (Some completionTime)) a))
    | Rejected (ErrorObject message) =>
        (Normal (mkProcessResult false None message (name a) taskId),
         setStatus idle
           (updateLocal taskId (fun t =>
              mkLocalTask (lt_description t) (lt_startTime t) localFailed (lt_context t)
                (lt_result t) message (Some completionTime)) a))
    | Rejected Nullish =>
        (Throw nullishMessageError,
         updateLocal taskId (fun t =>
           mkLocalTask (lt_description t) (lt_startTime t) localFailed (lt_context t)
             (lt_result t) (lt_error t) (lt_completionTime t)) a)
    end.
Proof.
  intros Hlocal. unfold processTask_resume. rewrite Hlocal.
  destruct outcome as [text|[message|]]; reflexivity.
Qed.

Lemma getAgent_some agent m :
  In agent m -> exists b, getAgent (name agent) m = Some b /\ name b = name agent.
Proof.
  unfold getAgent. induction m as [|x m IH]; intros Hin; [destruct Hin|].
  cbn [List.find]. destruct (String.eqb_spec (name x) (name agent)) as [Heq|Hne].
  - exists x. split; [reflexivity | exact Heq].
  - destruct Hin as [->|Hin]; [contradiction | apply IH, Hin].
Qed.

Lemma assignTask_run benv renv c taskDescription priority requiredSkills agent b :
  selectBestAgent c requiredSkills taskDescription = Normal (Some agent) ->
  getAgent (name agent) (teamAgents c) = Some b ->
  let working :=
    processTask_begin (env_taskId benv) taskDescription
      (AssignmentContext priority (name (self c))
         (calculateDeadline priority (env_deadlineNow benv)))
      (env_startTime benv) b in
  let settled :=
    processTask_resume (env_taskId benv) (env_outcome renv) (env_completionTime renv)
      working in
  exists c1 c2,
    assignTask_begin benv c taskDescription priority requiredSkills
    = Suspended (mkPendingTask (createdTask benv taskDescription priority requiredSkills agent)
                   agent None) c1 /\
    assignTask benv renv c taskDescription priority requiredSkills
    = Normal (assignTask_resume
                (mkPendingTask (createdTask benv taskDescription priority requiredSkills agent)
                   agent None)
                (fst settled) (env_completedAt renv) c2) /\
    getAgent (name agent) (teamAgents c2) = Some (snd settled) /\
    activeTasks c2
    = <[env_taskId benv := createdTask benv taskDescription priority requiredSkills agent]>
        (activeTasks c) /\
    taskHistory c2 = taskHistory c.
Proof.
  intros Hselect Hget working settled.
  unfold assignTask, assignTask_begin. rewrite Hselect.
  unfold assignTask_dispatch, assignTask_settle. cbn [pt_task pt_agent task_id teamAgents].
  rewrite getAgent_updateAgent by reflexivity. rewrite Hget, String.eqb_refl.
  eexists. eexists. split; [reflexivity|]. split; [reflexivity|].
  split; [|split; reflexivity].
  cbn [teamAgents]. rewrite getAgent_updateAgent by (intros x; apply processTask_resume_name).
  rewrite getAgent_updateAgent by reflexivity. rewrite Hget, String.eqb_refl. reflexivity.
Qed.

(** When [assignTask] has returned, the local task of the selected agent
    and the entry of the history agree with the result: completed with the
    text of the completion service, or failed with the message of its
    error.  The agent is idle again, except when the completion was
    rejected with [null] or [undefined]: then [processTask] threw before
    resetting the status, the result names no agent, and the agent stays
    busy. *)
Theorem assignTask_leaves_agent benv renv c taskDescription priority requiredSkills :
  teamAgents c <> [] ->
  List.NoDup (List.map name (teamAgents c)) ->
  exists agent r c' agent' localTask task,
    selectBestAgent c requiredSkills taskDescription = Normal (Some agent) /\
    assignTask benv renv c taskDescription priority requiredSkills = Normal (r, c') /\
    getAgent (name agent) (teamAgents c') = Some agent' /\
    currentTasks agent' !! env_taskId benv = Some localTask /\
    taskHistory c' = (taskHistory c ++ [task])%list /\
    task_id task = env_taskId benv /\
    match env_outcome renv with
    | Resolved text =>
        sr_success r = true /\ sr_result r = Some text /\
        sr_assignedAgent r = Some (name agent) /\
        task_status task = completed /\
        lt_status localTask = localCompleted /\ lt_result localTask = Some text /\
        status agent' = idle
    | Rejected (ErrorObject message) =>
        sr_success r = false /\ sr_error r = message /\
        sr_assignedAgent r = Some (name agent) /\
        task_status task = failed /\
        lt_status localTask = localFailed /\ lt_error localTask = message /\
        status agent' = idle
    | Rejected Nullish =>
        sr_success r = false /\ sr_error r = Some nullishMessageError /\
        sr_assignedAgent r = None /\
        task_status task = failed /\
        lt_status localTask = localFailed /\
        status agent' = busy
    end.
Proof.
  intros Hteam Hnd.
  destruct (selectBestAgent_cases c requiredSkills taskDescription)
    as [[Hempty _]|(agent & Hin & Hselect)]; [contradiction|].
  pose proof (getAgent_In agent (teamAgents c) Hnd Hin) as Hget.
  destruct (assignTask_run benv renv c taskDescription priority requiredSkills agent agent
              Hselect Hget) as (c1 & c2 & _ & Hrun & Hget2 & _ & Hhistory).
  set (working := processTask_begin _ _ _ _ agent) in *.
  set (p := mkPendingTask _ agent None) in *.
  assert (Hlocal : currentTasks working !! env_taskId benv
                   = Some (mkLocalTask taskDescription (env_startTime benv) processing
                             (AssignmentContext priority (name (self c))
                                (calculateDeadline priority (env_deadlineNow benv)))
                             None None None)).
  { subst working. cbn [processTask_begin currentTasks]. apply lookup_insert_eq. }
  destruct (assignTask_resume_ledger p
              (fst (processTask_resume (env_taskId benv) (env_outcome renv)
                      (env_completionTime renv) working))
              (env_completedAt renv) c2) as (_ & _ & Hteam2 & _ & Hhistory2).
  rewrite (processTask_resume_found _ _ _ _ _ Hlocal) in Hrun, Hget2, Hteam2, Hhistory2.
  rewrite Hhistory in Hhistory2.
  destruct (env_outcome renv) as [text|[message|]];
    cbn [fst snd] in Hrun, Hget2, Hteam2, Hhistory2;
    exists agent; eexists; eexists; eexists; eexists; eexists;
    (split; [exact Hselect|]);
    (split; [rewrite Hrun; apply f_equal, surjective_pairing|]);
    (split; [rewrite Hteam2; exact Hget2|]);
    cbn [setStatus updateLocal currentTasks status];
    (split; [rewrite lookup_alter_eq, Hlocal; reflexivity|]);
    (split; [exact Hhistory2|]); repeat split.
Qed.

End CoordinatorProperties.

(** ** The gateway *)

Section GatewayProperties.

Context {builtins : Builtins}.

Lemma postTask_check_accepted c body description priority :
  acceptedBody body description priority ->
  postTask_check (Some c) body
  = inr (c, description, priority, default [] (body_requiredSkills body)).
Proof.
  intros (Hd & Hne & Hp & Hvalid). unfold postTask_check. rewrite Hd, <- Hp.
  destruct description as [|ch rest]; [contradiction|].
  assert (Hex : existsb (String.eqb priority) validPriorities = true).
  { apply existsb_exists. exists priority. split; [exact Hvalid | apply String.eqb_refl]. }
  rewrite Hex. reflexivity.
Qed.

Lemma postTask_check_rejected c body :
  (forall description priority, ~ acceptedBody body description priority) ->
  exists error,
    postTask_check (Some c) body
    = inl (mkResponse 400 (Some false) (Some error) None None NoPayload None) /\
    error = match body_description body with
            | None | Some EmptyString => "Task description is required"
            | Some _ => "Priority must be one of: high, medium, low"
            end.
Proof.
  intros Hnot. unfold postTask_check.
  destruct (body_description body) as [[|ch rest]|] eqn:Hd;
    try (eexists; split; reflexivity).
  destruct (existsb _ validPriorities) eqn:Hex; [|eexists; split; reflexivity].
  exfalso. apply existsb_exists in Hex as (x & Hin & Hx). apply String.eqb_eq in Hx.
  subst x. apply (Hnot (String ch rest) (default "medium" (body_priority body))).
  split; [exact Hd|]. split; [discriminate|]. split; [reflexivity | exact Hin].
Qed.

(** [POST /task] answers 400, without calling the coordinator and leaving
    it as it is, exactly when the description is absent or empty or the
    priority is given and is not high, medium or low; the error text names
    the description first.  Before initialisation it answers 503. *)
Theorem postTask_validation c body benv renv now :
  let answer := postTask (Some c) body benv renv now in
  (res_status (fst answer) = 400 <->
   forall description priority, ~ acceptedBody body description priority) /\
  (res_status (fst answer) = 400 ->
   snd answer = Some c /\ res_success (fst answer) = Some false /\
   res_data (fst answer) = NoPayload /\
   res_error (fst answer)
   = Some match body_description body with
          | None | Some EmptyString => "Task description is required"
          | Some _ => "Priority must be one of: high, medium, low"
          end) /\
  postTask None body benv renv now = (notInitialized, None).
Proof.
  intros answer. subst answer.
  assert (Hcases : (forall description priority, ~ acceptedBody body description priority) \/
                   exists description priority, acceptedBody body description priority).
  { unfold acceptedBody. destruct (body_description body) as [[|ch rest]|].
    - left. intros d p (Hd & Hne & _). injection Hd as <-. contradiction.
    - destruct (existsb (String.eqb (default "medium" (body_priority body))) validPriorities)
        eqn:Hex.
      + right. apply existsb_exists in Hex as (x & Hin & Hx). apply String.eqb_eq in Hx.
        subst x. eexists. eexists. split; [reflexivity|]. split; [discriminate|].
        split; [reflexivity | exact Hin].
      + left. intros d p (_ & _ & -> & Hin). apply Bool.not_true_iff_false in Hex. apply Hex.
        apply existsb_exists. eexists. split; [exact Hin | apply String.eqb_refl].
    - left. intros d p (Hd & _). discriminate. }
  assert (Hserved : forall description priority, acceptedBody body description priority ->
            res_status (fst (postTask (Some c) body benv renv now)) <> 400).
  { intros description priority Hacc. unfold postTask.
    rewrite (postTask_check_accepted c body description priority Hacc).
    destruct (assignTask _ _ _ _ _ _) as [[r c']|message]; cbn [fst postTask_respond];
      [destruct (sr_success r)|]; discriminate. }
  split; [|split; [|reflexivity]].
  - split.
    + intros H400 description priority Hacc. apply (Hserved _ _ Hacc H400).
    + intros Hnot. unfold postTask.
      destruct (postTask_check_rejected c body Hnot) as (error & -> & _). reflexivity.
  - intros H400. destruct Hcases as [Hnot|(description & priority & Hacc)].
    + unfold postTask. destruct (postTask_check_rejected c body Hnot) as (error & -> & ->).
      repeat split.
    + exfalso. apply (Hserved _ _ Hacc H400).
Qed.

Lemma calculateDeadline_accepted priority now :
  In priority validPriorities ->
  calculateDeadline priority now = Time (now + hoursOf priority * 3600000).
Proof.
  intros [<-|[<-|[<-|[]]]]; cbn; f_equal; lia.
Qed.

Lemma postTask_accepted c body description priority benv renv now :
  acceptedBody body description priority ->
  let requiredSkills := default [] (body_requiredSkills body) in
  let answer := postTask (Some c) body benv renv now in
  (teamAgents c = [] ->
   answer = (mkResponse 500 (Some false) (Some "Internal server error")
               (Some reduceEmptyError) None NoPayload None, Some c)) /\
  (teamAgents c <> [] ->
   exists agent c' task,
     In agent (teamAgents c) /\
     selectBestAgent c requiredSkills description = Normal (Some agent) /\
     snd answer = Some c' /\
     taskHistory c' = (taskHistory c ++ [task])%list /\
     task_id task = env_taskId benv /\
     task_description task = description /\
     task_priority task = priority /\
     task_status task
     = match env_outcome renv with Resolved _ => completed | Rejected _ => failed end /\
     calculateDeadline priority (env_deadlineNow benv)
     = Time (env_deadlineNow benv + hoursOf priority * 3600000) /\
     fst answer
     = match env_outcome renv with
       | Resolved text =>
           mkResponse 201 (Some true) None (Some "Task assigned successfully") None
             (TaskPayload (Some (env_taskId benv)) (Some (name agent)) (Some text))
             (Some now)
       | Rejected (ErrorObject message) =>
           mkResponse 500 (Some false) (Some "Task assignment failed") message
             (Some (env_taskId benv)) NoPayload None
       | Rejected Nullish =>
           mkResponse 500 (Some false) (Some "Task assignment failed")
             (Some nullishMessageError) (Some (env_taskId benv)) NoPayload None
       end).
Proof.
  intros Hacc requiredSkills answer. subst answer. unfold postTask.
  rewrite (postTask_check_accepted c body description priority Hacc). fold requiredSkills.
  destruct (selectBestAgent_cases c requiredSkills description)
    as [[Hempty Hthrow]|(agent & Hin & Hselect)].
  - split; [|intros Hteam; contradiction]. intros _.
    unfold assignTask, assignTask_begin. rewrite Hthrow. reflexivity.
  - split; [intros Hempty; rewrite Hempty in Hin; destruct Hin|]. intros _.
    destruct (getAgent_some agent (teamAgents c) Hin) as (b & Hget & Hname).
    destruct (assignTask_run benv renv c description priority requiredSkills agent b
                Hselect Hget) as (c1 & c2 & _ & Hrun & _ & _ & Hhistory).
    set (working := processTask_begin _ _ _ _ b) in *.
    assert (Hlocal : is_Some (currentTasks working !! env_taskId benv)).
    { subst working. cbn [processTask_begin currentTasks]. rewrite lookup_insert_eq.
      eexists; reflexivity. }
    destruct Hlocal as [localTask Hlocal].
    rewrite (processTask_resume_found _ _ _ _ _ Hlocal) in Hrun.
    destruct Hacc as (_ & _ & _ & Hvalid).
    rewrite Hrun. exists agent.
    destruct (env_outcome renv) as [text|[message|]];
      cbn [fst snd assignTask_resume pr_success pr_result pr_error postTask_respond
           sr_success sr_taskId sr_assignedAgent sr_result sr_error pt_task pt_agent
           task_id createdTask];
      eexists; eexists;
      (split; [exact Hin|]); (split; [exact Hselect|]); (split; [reflexivity|]);
      cbn [updatePerformanceMetrics taskHistory]; rewrite Hhistory;
      (split; [reflexivity|]);
      repeat split; apply calculateDeadline_accepted, Hvalid.
Qed.


Lemma find_appended (l : list Task) (t : Task) taskId :
  ~ In taskId (List.map task_id l) ->
  List.find (fun t' => String.eqb (task_id t') taskId) (l ++ [t])
  = if String.eqb (task_id t) taskId then Some t else None.
Proof.
  induction l as [|x l IH]; intros Hnot; [reflexivity|].
  cbn [app List.find]. destruct (String.eqb_spec (task_id x) taskId) as [Heq|Hne].
  - exfalso. apply Hnot. left. exact Heq.
  - apply IH. intros Hl. apply Hnot. right. exact Hl.
Qed.

(** After [POST /task] has filed a task under a new id, [GET /status]
    answers 200 for that id with the task as filed, completed exactly when
    the submission was answered 201 and failed otherwise, never with the
    status assigned or active; for an id that is neither active nor in the
    history it answers 404. *)
Theorem getStatusRoute_after_postTask c body description priority benv renv now later :
  acceptedBody body description priority ->
  teamAgents c <> [] ->
  freshId c (env_taskId benv) ->
  let answer := postTask (Some c) body benv renv now in
  (exists task,
     getStatusRoute (snd answer) (env_taskId benv) later
     = mkResponse 200 (Some true) None None None (StatusPayload task) (Some later) /\
     task_id task = env_taskId benv /\
     task_description task = description /\
     task_priority task = priority /\
     (task_status task = completed <-> res_status (fst answer) = 201) /\
     (task_status task = failed <-> res_status (fst answer) = 500)) /\
  (forall taskId,
     taskId <> env_taskId benv -> freshId c taskId ->
     getStatusRoute (snd answer) taskId later
     = mkResponse 404 (Some false) (Some "Task not found") None (Some taskId) NoPayload None).
Proof.
  intros Hacc Hteam [Hactive Hhistory] answer. subst answer. unfold postTask.
  rewrite (postTask_check_accepted c body description priority Hacc).
  set (requiredSkills := default [] (body_requiredSkills body)).
  destruct (selectBestAgent_cases c requiredSkills description)
    as [[Hempty _]|(agent & Hin & Hselect)]; [contradiction|].
  destruct (getAgent_some agent (teamAgents c) Hin) as (b & Hget & Hname).
  destruct (assignTask_run benv renv c description priority requiredSkills agent b
              Hselect Hget) as (c1 & c2 & _ & Hrun & _ & Hactive2 & Hhistory2).
  set (settled := processTask_resume _ _ _ _) in *.
  set (p := mkPendingTask _ agent None) in *.
  destruct (assignTask_resume_ledger p (fst settled) (env_completedAt renv) c2)
    as (_ & _ & _ & Ha & Hh).
  rewrite Hrun.
  destruct (assignTask_resume p (fst settled) (env_completedAt renv) c2) as [r c'] eqn:Hres.
  cbn [fst snd] in *. unfold getStatusRoute, getTaskStatus.
  assert (Hid : pendingId p = env_taskId benv) by reflexivity.
  rewrite Ha, Hh, Hid, Hactive2, Hhistory2.
  assert (Hfind : forall taskId, ~ In taskId (historyIds c) ->
            List.find (fun t => String.eqb (task_id t) taskId)
              (taskHistory c ++ [terminalTask (pt_task p) (env_completedAt renv) (fst settled)])
            = if String.eqb (env_taskId benv) taskId
              then Some (terminalTask (pt_task p) (env_completedAt renv) (fst settled))
              else None).
  { intros taskId Hnot. rewrite (find_appended _ _ _ Hnot), terminalTask_id. reflexivity. }
  split.
  - rewrite lookup_delete_eq, (Hfind _ Hhistory), String.eqb_refl.
    eexists. split; [reflexivity|]. rewrite terminalTask_id.
    assert (Hr : sr_success r = match fst settled with
                                | Normal result => pr_success result
                                | Throw _ => false
                                end).
    { unfold assignTask_resume in Hres. destruct (fst settled); injection Hres as <- _;
        reflexivity. }
    unfold postTask_respond. rewrite Hr.
    destruct (fst settled) as [result|message]; cbn [terminalTask task_status task_description
      task_priority pt_task p createdTask];
      [destruct (pr_success result)|]; cbn [res_status];
      repeat split; intros; try reflexivity; try discriminate.
  - intros taskId Hne [Hactive' Hhistory'].
    rewrite lookup_delete_ne by congruence. rewrite lookup_insert_ne by congruence.
    rewrite Hactive', (Hfind _ Hhistory').
    destruct (String.eqb_spec (env_taskId benv) taskId) as [Heq|_]; [congruence | reflexivity].
Qed.

(** *** Behind the gateway *)

Lemma reaches_registrations configs c :
  reaches (mkSystem c [] [])
    (mkSystem
       (fold_left (fun ceoAgent config =>
                     registerTeamAgent
                       (newAgent (fst (fst config)) (snd (fst config)) (snd config)) ceoAgent)
          configs c)
       [] []).
Proof.
  revert c. induction configs as [|config configs IH]; intros c; [apply reaches_here|].
  cbn [fold_left].
  apply (reaches_step _ (RegisterTeamAgent
                           (newAgent (fst (fst config)) (snd (fst config)) (snd config))));
    [exact I|].
  cbn [step fst coordinator pendingTasks pendingAggregations]. apply IH.
Qed.

Lemma gatewaySystem_reachable : reachable gatewaySystem.
Proof. apply reaches_registrations. Qed.

Lemma plainRoles_of_roles agents agents' :
  List.map role agents' = List.map role agents -> plainRoles agents -> plainRoles agents'.
Proof.
  unfold plainRoles. revert agents'.
  induction agents as [|a agents IH]; intros [|a' agents'] Hroles Hplain;
    try discriminate; [constructor|].
  cbn [List.map] in Hroles. injection Hroles as Hrole Hrest.
  inversion Hplain as [|? ? Ha Hothers]; subst. constructor.
  - rewrite Hrole. exact Ha.
  - apply IH; assumption.
Qed.

(** Behind the gateway, whatever requests it has served and however their
    calls interleave, the registry holds the seven configured agents, in
    the configured order and under distinct names.  So [assignTask] finds
    an agent and does not throw; a request that [POST /task] lets through
    and whose fields have the types of [TaskBody], a string as
    description, a string as priority and an array of strings as required
    skills, is answered from the result of [assignTask], which carries the
    task id, and not with [Internal server error]; and, no role being a
    name that objects inherit, every agent's score is the number of the
    scoring rule.  A body whose description or required skills are of
    another type passes the two checks of the handler as well; it is
    outside [TaskBody] and outside this statement. *)
Theorem gateway_serves_with_seven_agents s :
  serves gatewaySystem s ->
  reachable s /\
  List.map name (teamAgents (coordinator s))
  = List.map (fun config => fst (fst config)) agentConfigs /\
  List.map role (teamAgents (coordinator s))
  = List.map (fun config => snd (fst config)) agentConfigs /\
  List.NoDup (List.map name (teamAgents (coordinator s))) /\
  plainRoles (teamAgents (coordinator s)) /\
  (forall requiredSkills taskDescription agent,
     In agent (teamAgents (coordinator s)) ->
     scoreAgent requiredSkills taskDescription agent
     = (agent, Num (points requiredSkills taskDescription agent))) /\
  (forall body description priority benv renv now,
     acceptedBody body description priority ->
     exists result c',
       assignTask benv renv (coordinator s) description priority
         (default [] (body_requiredSkills body)) = Normal (result, c') /\
       postTask (Some (coordinator s)) body benv renv now
       = (postTask_respond (Normal result) now, Some c') /\
       sr_taskId result = Some (env_taskId benv)).
Proof.
  intros Hserves.
  assert (Hreach : reachable s).
  { apply (reaches_trans _ gatewaySystem); [apply gatewaySystem_reachable|].
    apply serves_reaches, Hserves. }
  pose proof (serves_grows gatewaySystem s Hserves) as Hgrown.
  assert (Hnames : List.map name (teamAgents (coordinator s))
                   = List.map name (teamAgents (coordinator gatewaySystem)) /\
                   List.map role (teamAgents (coordinator s))
                   = List.map role (teamAgents (coordinator gatewaySystem))).
  { induction Hgrown as [|a a' m m' (Hname & Hrole & _) _ [IHn IHr]]; [split; reflexivity|].
    cbn [List.map]. rewrite Hname, Hrole, IHn, IHr. split; reflexivity. }
  destruct Hnames as [Hnames Hroles].
  assert (Hplain : plainRoles (teamAgents (coordinator s))).
  { apply (plainRoles_of_roles _ _ Hroles). unfold plainRoles.
    repeat (constructor; [reflexivity|]). constructor. }
  assert (Hteam : teamAgents (coordinator s) <> []).
  { intros Hempty. rewrite Hempty in Hnames. discriminate. }
  split; [exact Hreach|]. split; [exact Hnames|]. split; [exact Hroles|].
  split; [apply (reaches_registry initial); [constructor | exact Hreach]|].
  split; [exact Hplain|]. split.
  - intros requiredSkills taskDescription agent Hin. apply scoreAgent_points.
    unfold plainRoles in Hplain. rewrite List.Forall_forall in Hplain. apply Hplain, Hin.
  - intros body description priority benv renv now Hacc. unfold postTask.
    rewrite (postTask_check_accepted _ body description priority Hacc).
    unfold assignTask.
    destruct (assignTask_begin_cases benv (coordinator s) description priority
                (default [] (body_requiredSkills body)))
      as [[Hempty _]|(agent & c1 & _ & _ & -> & _)]; [contradiction|].
    set (p := mkPendingTask _ agent None).
    destruct (assignTask_settle p _ _ c1) as [completion c2].
    destruct (assignTask_resume_ledger p completion (env_completedAt renv) c2) as (Hid & _).
    destruct (assignTask_resume p completion (env_completedAt renv) c2) as [r c3].
    exists r, c3. repeat split. exact Hid.
Qed.

(** *** Aggregation through the gateway *)

(** [POST /aggregate] in a state the system can reach.  Without ids it
    answers 400 and does not call the coordinator.  When no id names a
    task of the history with a successful result it answers 400 with
    [Aggregation failed] and the coordinator is as before.  Otherwise it
    answers 200 with the result of the coordinator, also when the
    completion service failed with an error object and the result has no
    text; only a rejection with [null] or [undefined] is answered 400,
    with the raw data. *)
Theorem postAggregate_answers s body env outcome completionTime now :
  reachable s ->
  let c := coordinator s in
  let aggregationType := default "summary" (body_aggregationType body) in
  let answer := postAggregate (Some c) body env outcome completionTime now in
  match body_taskIds body with
  | None | Some [] =>
      answer = (mkResponse 400 (Some false)
                  (Some "taskIds array is required and must not be empty") None None
                  NoPayload None, Some c)
  | Some taskIds =>
      match succeededHistory c taskIds with
      | [] =>
          answer = (mkResponse 400 (Some false) (Some "Aggregation failed")
                      (Some "No completed tasks found for aggregation") None
                      (RawPayload None) None, Some c)
      | completedTasks =>
          let names := distinct [] (List.map task_assignedAgent completedTasks) in
          match outcome with
          | Resolved text =>
              fst answer
              = mkResponse 200 (Some true) None None None
                  (AggregatePayload
                     (mkAggregateResult true None (Some text) (Some taskIds) (Some names)
                        (Some aggregationType) None))
                  (Some now)
          | Rejected (ErrorObject message) =>
              fst answer
              = mkResponse 200 (Some true) None None None
                  (AggregatePayload
                     (mkAggregateResult true None None (Some taskIds) (Some names)
                        (Some aggregationType) None))
                  (Some now)
          | Rejected Nullish =>
              res_status (fst answer) = 400 /\
              res_error (fst answer) = Some "Aggregation failed" /\
              res_message (fst answer) = Some nullishMessageError /\
              exists raw_data, res_data (fst answer) = RawPayload (Some raw_data)
          end
      end
  end.
Proof.
  intros Hreach c aggregationType answer. subst answer. unfold postAggregate.
  destruct (body_taskIds body) as [[|taskId taskIds]|]; try reflexivity.
  pose proof (completedTasks_succeededHistory s (taskId :: taskIds)
                (reachable_ledgerOk s Hreach)) as Hfilter.
  fold c in Hfilter. fold aggregationType.
  unfold aggregateResults, aggregateResults_begin. rewrite Hfilter.
  remember (distinct [] (List.map task_assignedAgent (succeededHistory c (taskId :: taskIds))))
    as names eqn:Hnames.
  destruct (succeededHistory c (taskId :: taskIds)) as [|t ts]; [reflexivity|].
  unfold aggregateResults_settle, aggregateResults_resume, processTask_resume,
    processTask_begin.
  cbn -[distinct]. rewrite ?lookup_insert_eq.
  destruct outcome as [text|[message|]]; cbn -[distinct]; subst names;
    try reflexivity.
  repeat split. eexists. reflexivity.
Qed.

End GatewayProperties.

(** ** Recomputing the metrics *)



(** ** The dialogue of the bot *)

Section BotProperties.

Context {builtins : Builtins}.

Lemma prefix_priority priority : String.prefix "priority_" ("priority_" ++ priority) = true.
Proof. cbn. destruct priority; reflexivity. Qed.

Lemma submitTask_result chatId taskData fetched b :
  userSessions (submitTask chatId taskData fetched b) = delete chatId (userSessions b) /\
  outbox (submitTask chatId taskData fetched b)
  = (outbox b ++ [(chatId, Submitting); (chatId, outcomeMessage taskData fetched)])%list.
Proof.
  unfold submitTask, sendMessage. cbn [userSessions outbox]. rewrite <- app_assoc.
  split; reflexivity.
Qed.

Lemma handleCallbackQuery_chosen chatId data answered fetched b session :
  userSessions b !! chatId = Some session ->
  String.prefix "priority_" data = true ->
  callbackRequest chatId data b = Some (requestBody (session_taskData (chosen session data))) /\
  handleCallbackQuery chatId data answered fetched b
  = let b1 := mkBot (<[chatId := chosen session data]> (userSessions b)) (outbox b) in
    if answered
    then submitTask chatId (session_taskData (chosen session data)) fetched b1
    else b1.
Proof.
  intros Hsession Hprefix. unfold callbackRequest, handleCallbackQuery.
  rewrite Hsession, Hprefix. split; reflexivity.
Qed.

Lemma postTask_without_description c priority requiredSkills benv renv now :
  postTask (Some c) (mkTaskBody None priority requiredSkills) benv renv now
  = (mkResponse 400 (Some false) (Some "Task description is required") None None NoPayload
       None, Some c).
Proof. reflexivity. Qed.

(** The dialogue of the bot against the gateway.  A task started with
    [/task], described by a text message that mentions no command, so that
    the [message] listener is the one handler that runs on it, and given a
    priority by one of the three buttons is posted with that description
    and priority, which the gateway lets through: with an agent registered
    the answer is not 400, and the bot reports the task as submitted or
    the assignment as failed.  A priority button pressed before any
    description was sent posts a body without description, which the
    gateway answers 400, and the bot reports that the description is
    required.  Either way the session of the chat is gone afterwards. *)
Theorem dialogue_meets_validation b chatId text priority c benv renv now :
  text <> EmptyString -> String.prefix "/" text = false ->
  mentionsCommand text = false ->
  In priority validPriorities -> teamAgents c <> [] ->
  let data := "priority_" ++ priority in
  let started := initiateTaskSubmission chatId b in
  let described := onMessage chatId (Some text) started in
  let body := mkTaskBody (Some text) (Some priority) (Some []) in
  let answer := fst (postTask (Some c) body benv renv now) in
  let submitted := handleCallbackQuery chatId data true (Replied answer) described in
  let early := mkTaskBody None (Some priority) (Some []) in
  let refusal := fst (postTask (Some c) early benv renv now) in
  let refused := handleCallbackQuery chatId data true (Replied refusal) started in
  (callbackRequest chatId data described = Some body /\
   acceptedBody body text priority /\
   res_status answer <> 400 /\
   userSessions submitted !! chatId = None /\
   exists message,
     outbox submitted
     = (outbox b ++ [ (chatId, AskDescription); (chatId, AskPriority);
                      (chatId, Submitting); (chatId, message) ])%list /\
     match env_outcome renv with
     | Resolved result =>
         exists agent,
           In agent (teamAgents c) /\
           message = TaskSubmitted (Some (env_taskId benv)) (Some (name agent))
                       (Some priority) (preview result)
     | Rejected _ => message = SubmissionFailed (Some "Task assignment failed")
     end) /\
  (callbackRequest chatId data started = Some early /\
   res_status refusal = 400 /\
   userSessions refused !! chatId = None /\
   outbox refused
   = (outbox b ++ [ (chatId, AskDescription); (chatId, Submitting);
                    (chatId, SubmissionFailed (Some "Task description is required")) ])%list).
Proof.
  intros Htext Hslash Hquiet Hvalid Hteam data started described body answer submitted
    early refusal refused.
  assert (Hacc : acceptedBody body text priority).
  { split; [reflexivity|]. split; [exact Htext|]. split; [reflexivity | exact Hvalid]. }
  assert (Hstarted : userSessions started !! chatId
                     = Some (mkSession awaiting_task_description (mkTaskData None None)) /\
                     outbox started = (outbox b ++ [(chatId, AskDescription)])%list).
  { subst started. unfold initiateTaskSubmission, sendMessage. cbn [userSessions outbox].
    split; [apply lookup_insert_eq | reflexivity]. }
  destruct Hstarted as [Hstarted Hstarted_out].
  assert (Hdescribed : userSessions described !! chatId
                       = Some (mkSession selecting_priority (mkTaskData (Some text) None)) /\
                       outbox described
                       = (outbox b ++ [(chatId, AskDescription); (chatId, AskPriority)])%list).
  { subst described. unfold onMessage.
    destruct text as [|ch rest]; [contradiction|]. rewrite Hslash.
    unfold handleTextMessage. rewrite Hstarted. unfold sendMessage.
    cbn [session_state session_taskData td_priority userSessions outbox].
    rewrite Hstarted_out, <- app_assoc. split; [apply lookup_insert_eq | reflexivity]. }
  destruct Hdescribed as [Hdescribed Hdescribed_out].
  pose proof (prefix_priority priority) as Hprefix. fold data in Hprefix.
  assert (Hdrop : dropChars 9 data = priority) by reflexivity.
  destruct (postTask_accepted c body text priority benv renv now Hacc) as [_ Hserved].
  destruct (Hserved Hteam)
    as (agent & c' & task & Hin & _ & _ & _ & _ & _ & _ & _ & _ & Hanswer).
  fold answer in Hanswer.
  destruct (handleCallbackQuery_chosen chatId data true (Replied answer) described _
              Hdescribed Hprefix) as [Hrequest Hsubmitted].
  fold submitted in Hsubmitted. cbn zeta in Hsubmitted.
  destruct (submitTask_result chatId
              (session_taskData (chosen (mkSession selecting_priority
                                           (mkTaskData (Some text) None)) data))
              (Replied answer)
              (mkBot (<[chatId := chosen (mkSession selecting_priority
                                            (mkTaskData (Some text) None)) data]>
                        (userSessions described)) (outbox described)))
    as [Hsessions Hout].
  rewrite <- Hsubmitted in Hsessions, Hout.
  destruct (handleCallbackQuery_chosen chatId data true (Replied refusal) started _
              Hstarted Hprefix) as [Hrequest' Hrefused].
  fold refused in Hrefused. cbn zeta in Hrefused.
  destruct (submitTask_result chatId
              (session_taskData (chosen (mkSession awaiting_task_description
                                           (mkTaskData None None)) data))
              (Replied refusal)
              (mkBot (<[chatId := chosen (mkSession awaiting_task_description
                                            (mkTaskData None None)) data]>
                        (userSessions started)) (outbox started)))
    as [Hsessions' Hout'].
  rewrite <- Hrefused in Hsessions', Hout'.
  unfold chosen, requestBody in Hrequest, Hrequest', Hout, Hout'.
  cbn [session_taskData session_state td_description td_priority userSessions outbox]
    in Hrequest, Hrequest', Hout, Hout', Hsessions, Hsessions'.
  rewrite Hdrop in Hrequest, Hrequest', Hout, Hout'.
  split; [split; [|split; [|split; [|split]]] | split; [|split; [|split]]].
  - exact Hrequest.
  - exact Hacc.
  - rewrite Hanswer. destruct (env_outcome renv) as [result|[message|]]; discriminate.
  - rewrite Hsessions. apply lookup_delete_eq.
  - eexists. split.
    + rewrite Hout, Hdescribed_out, <- app_assoc. reflexivity.
    + unfold outcomeMessage. rewrite Hanswer.
      destruct (env_outcome renv) as [result|[message|]];
        cbn [res_success res_data res_error res_message firstTruthy td_priority];
        [exists agent; split; [exact Hin | reflexivity] | reflexivity | reflexivity].
  - exact Hrequest'.
  - reflexivity.
  - rewrite Hsessions'. apply lookup_delete_eq.
  - rewrite Hout', Hstarted_out, <- app_assoc. reflexivity.
Qed.

(** The sessions of the bot.  Only [/task] opens a session, and it opens
    one afresh whatever the chat had.  A text or a button of a chat
    without a session changes no session, and a button that is no
    priority button changes nothing at all.  A submission removes the
    session of its chat whatever the gateway answers, also when it cannot
    be reached; when [answerCallbackQuery] is rejected nothing is
    submitted and the session stays, with the priority stored.  No handler
    touches the session of another chat. *)
Theorem sessions_of_the_bot b chatId :
  (userSessions (initiateTaskSubmission chatId b) !! chatId
   = Some (mkSession awaiting_task_description (mkTaskData None None))) /\
  (userSessions b !! chatId = None ->
   (forall text, userSessions (onMessage chatId text b) = userSessions b) /\
   (forall data answered fetched, handleCallbackQuery chatId data answered fetched b = b) /\
   userSessions (cancelOperation chatId b) = userSessions b) /\
  (forall data answered fetched,
     String.prefix "priority_" data = false ->
     handleCallbackQuery chatId data answered fetched b = b) /\
  (forall taskData fetched,
     userSessions (submitTask chatId taskData fetched b) !! chatId = None) /\
  (forall data fetched session,
     userSessions b !! chatId = Some session ->
     String.prefix "priority_" data = true ->
     userSessions (handleCallbackQuery chatId data true fetched b) !! chatId = None /\
     userSessions (handleCallbackQuery chatId data false fetched b) !! chatId
     = Some (chosen session data) /\
     outbox (handleCallbackQuery chatId data false fetched b) = outbox b) /\
  userSessions (cancelOperation chatId b) !! chatId = None /\
  (forall other,
     other <> chatId ->
     userSessions (initiateTaskSubmission chatId b) !! other = userSessions b !! other /\
     (forall text, userSessions (onMessage chatId text b) !! other = userSessions b !! other) /\
     (forall data answered fetched,
        userSessions (handleCallbackQuery chatId data answered fetched b) !! other
        = userSessions b !! other) /\
     userSessions (cancelOperation chatId b) !! other = userSessions b !! other).
Proof.
  split; [apply lookup_insert_eq|].
  split; [|split; [|split; [|split; [|split; [|]]]]].
  - intros Hnone. split; [|split].
    + intros [[|ch rest]|]; try reflexivity. unfold onMessage.
      destruct (String.prefix "/" _); [reflexivity|].
      unfold handleTextMessage. rewrite Hnone. reflexivity.
    + intros data answered fetched. unfold handleCallbackQuery. rewrite Hnone. reflexivity.
    + unfold cancelOperation. rewrite Hnone. reflexivity.
  - intros data answered fetched Hprefix. unfold handleCallbackQuery.
    destruct (userSessions b !! chatId); [rewrite Hprefix|]; reflexivity.
  - intros taskData fetched.
    destruct (submitTask_result chatId taskData fetched b) as [-> _]. apply lookup_delete_eq.
  - intros data fetched session Hsession Hprefix.
    destruct (handleCallbackQuery_chosen chatId data true fetched b session Hsession Hprefix)
      as [_ ->].
    destruct (handleCallbackQuery_chosen chatId data false fetched b session Hsession Hprefix)
      as [_ ->].
    cbn zeta. cbn [userSessions outbox].
    destruct (submitTask_result chatId (session_taskData (chosen session data)) fetched
                (mkBot (<[chatId := chosen session data]> (userSessions b)) (outbox b)))
      as [-> _].
    split; [apply lookup_delete_eq|]. split; [apply lookup_insert_eq | reflexivity].
  - unfold cancelOperation. destruct (userSessions b !! chatId) eqn:Hsession.
    + apply lookup_delete_eq.
    + exact Hsession.
  - intros other Hother. split; [|split; [|split]].
    + apply lookup_insert_ne. congruence.
    + intros [[|ch rest]|]; try reflexivity. unfold onMessage.
      destruct (String.prefix "/" _); [reflexivity|].
      unfold handleTextMessage. destruct (userSessions b !! chatId) as [session|];
        [|reflexivity].
      destruct (session_state session); [|reflexivity].
      apply lookup_insert_ne. congruence.
    + intros data answered fetched. unfold handleCallbackQuery.
      destruct (userSessions b !! chatId) as [session|]; [|reflexivity].
      destruct (String.prefix "priority_" data); [|reflexivity].
      destruct answered.
      * destruct (submitTask_result chatId (session_taskData (chosen session data)) fetched
                    (mkBot (<[chatId := chosen session data]> (userSessions b)) (outbox b)))
          as [-> _].
        cbn [userSessions]. rewrite lookup_delete_ne by congruence.
        apply lookup_insert_ne. congruence.
      * apply lookup_insert_ne. congruence.
    + unfold cancelOperation. destruct (userSessions b !! chatId); [|reflexivity].
      apply lookup_delete_ne. congruence.
Qed.

End BotProperties.

(** ** Selection while an agent is idle *)

Section SelectionProperties.

Context {builtins : Builtins}.

(** As long as some registered agent is idle, [selectBestAgent] returns an
    idle agent of the registry, whatever the roles, the skills and the
    description are: an agent that is busy or offline is selected only
    when no agent is idle. *)
Theorem selectBestAgent_prefers_idle c requiredSkills taskDescription :
  availableAgents c <> [] ->
  exists agent,
    selectBestAgent c requiredSkills taskDescription = Normal (Some agent) /\
    In agent (teamAgents c) /\ status agent = idle.
Proof.
  intros Hsome. rewrite selectBestAgent_scoring by exact Hsome.
  destruct (firstBest _) as [y|] eqn:Hy.
  - exists (fst y). split; [reflexivity|].
    apply firstBest_In in Hy. apply in_map_iff in Hy as (b & <- & Hb).
    unfold availableAgents in Hb. apply filter_In in Hb as [Hb Hidle].
    split; [exact Hb|]. cbn [fst scoreAgent]. destruct (status b); try discriminate.
    reflexivity.
  - exfalso. destruct (availableAgents c) as [|a rest]; [congruence|].
    revert Hy. apply firstBest_nonempty.
Qed.

End SelectionProperties.

(** ** Idle and at work *)

(** When a task of an agent ends, with a text or with an error object,
    [processTask] sets the agent idle whatever else the agent is doing:
    every other local task stays as it is, also one that is still being
    processed, so that an agent can be idle with work in flight. *)
Theorem processTask_resume_sets_idle taskId outcome completionTime (a : Agent) :
  outcome <> Rejected Nullish ->
  let a' := snd (processTask_resume taskId outcome completionTime a) in
  status a' = idle /\
  forall other, other <> taskId -> currentTasks a' !! other = currentTasks a !! other.
Proof.
  intros Houtcome a'. subst a'. unfold processTask_resume.
  destruct outcome as [text|[message|]]; [| |congruence];
    try destruct (currentTasks a !! taskId);
    cbn [snd setStatus updateLocal status currentTasks];
    (split; [reflexivity|]); intros other Hother;
    try reflexivity; apply lookup_alter_ne; congruence.
Qed.

(** ** The health score as a function of its inputs *)




(** * The theorems at concrete inputs *)

Lemma agentRegistered_reachable : reachable (builtins := asciiBuiltins) agentRegistered.
Proof.
  apply (reaches_step _ (RegisterTeamAgent financeAgent)); [exact I | apply reaches_here].
Qed.

Lemma taskSuspended_reachable : reachable (builtins := asciiBuiltins) taskSuspended.
Proof.
  apply (reaches_trans _ agentRegistered); [apply agentRegistered_reachable|].
  apply (reaches_step _ (AssignTask firstBegin "Estimate the budget" "high" ["Budget"]));
    [split; [reflexivity | intros []] | apply reaches_here].
Qed.

Lemma taskSettled_reachable : reachable (builtins := asciiBuiltins) taskSettled.
Proof.
  apply (reaches_trans _ taskSuspended); [apply taskSuspended_reachable|].
  apply (reaches_step _ (SettleAssignTask 0 (Resolved "Budget estimate") 61000));
    [exact I | apply reaches_here].
Qed.

Lemma taskReturned_reachable : reachable (builtins := asciiBuiltins) taskReturned.
Proof.
  apply (reaches_trans _ taskSettled); [apply taskSettled_reachable|].
  apply (reaches_step _ (ResumeAssignTask 0 61001)); [exact I | apply reaches_here].
Qed.

(** The run of C5: the task returned by the first call is, after the
    second submission, in the history once, not active, and found. *)
Lemma task_in_exactly_one_set_witness :
  activeTasks (coordinator secondSuspended) !! "task-1" = None /\
  historyCount (coordinator secondSuspended) "task-1" = 1%nat /\
  found (getTaskStatus (coordinator secondSuspended) "task-1") = true.
Proof.
  destruct (task_in_exactly_one_set (builtins := asciiBuiltins)
              taskSettled (ResumeAssignTask 0 61001)
              (mkSubmitResult true (Some "task-1") (Some "lil_Finance_Analyst")
                 (Some "Budget estimate") None)
              "task-1" secondSuspended)
    as (_ & Hlater & _).
  - apply taskSettled_reachable.
  - exact I.
  - reflexivity.
  - reflexivity.
  - apply (reaches_step _ (AssignTask secondBegin "Estimate the cost" "low" []));
      [split; [reflexivity | intros [H|[]]; discriminate H] | apply reaches_here].
  - exact Hlater.
Defined.

(** C1 fails as stated: submitted with the priority "urgent", a task is
    accepted, executed and filed, and the call returns its id with success. *)
Lemma urgent_priority_is_accepted :
  exists r c',
    assignTask (builtins := asciiBuiltins) firstBegin firstResume team
      "Estimate the budget" "urgent" [] = Normal (r, c') /\
    sr_success r = true /\
    sr_taskId r = Some "task-1" /\
    sr_assignedAgent r = Some "lil_Finance_Analyst" /\
    sr_error r = None /\
    List.map task_priority (taskHistory c') = ["urgent"] /\
    List.map task_status (taskHistory c') = [completed] /\
    tasksAssigned (performanceMetrics c') = 1.
Proof. eexists. eexists. split; [reflexivity|]. repeat split. Qed.

Lemma assignTask_accepts_any_priority_witness :
  exists r c',
    assignTask (builtins := asciiBuiltins) firstBegin firstResume team
      "Estimate the budget" "urgent" [] = Normal (r, c') /\
    sr_taskId r = Some "task-1".
Proof.
  destruct (assignTask_accepts_any_priority (builtins := asciiBuiltins)
              firstBegin firstResume team "Estimate the budget" "urgent" [])
    as (agent & p & c1 & r & c2 & t & _ & _ & _ & _ & _ & _ & Hcall & Hid & _).
  - cbn. discriminate.
  - exists r, c2. split; [exact Hcall | exact Hid].
Defined.

(** C4. The claim that the stored metrics are never stale fails on the
    code where the agent's [processTask] throws: after a first task that
    succeeds and a second whose completion is rejected with [undefined], the
    history holds a completed and a failed task, the stored success rate is
    still 100, and recomputing it from the history gives 100/2. *)
Theorem catch_path_leaves_metrics_stale :
  exists r1 c1 r2 c2,
    assignTask (builtins := asciiBuiltins) firstBegin firstResume team
      "Estimate the budget" "high" [] = Normal (r1, c1) /\
    assignTask (builtins := asciiBuiltins) secondBegin secondResume c1
      "Estimate the cost" "high" [] = Normal (r2, c2) /\
    sr_success r2 = false /\
    sr_error r2 = Some nullishMessageError /\
    List.map task_status (taskHistory c2) = [completed; failed] /\
    successRate (performanceMetrics c2) = 100%Q /\
    successRate (performanceMetrics (updatePerformanceMetrics c2)) = (100 # 2)%Q.
Proof.
  eexists. eexists. eexists. eexists.
  split; [reflexivity|]. split; [reflexivity|]. repeat split.
Qed.

(** The tie of C7: for a budget of a market entry the finance and the
    market analyst both score 15 and the SEO specialist 0; the finance
    analyst, registered first of the two, is returned. *)
Lemma selectBestAgent_deterministic_witness :
  selectBestAgent (builtins := asciiBuiltins) team [] "Budget of the market entry"
  = Normal (Some financeAgent).
Proof.
  apply (proj2 (selectBestAgent_deterministic (builtins := asciiBuiltins)
                  team [] "Budget of the market entry")
           [seoAgent] financeAgent [marketAgent]).
  - reflexivity.
  - repeat constructor.
  - intros a [<-|[]]. vm_compute. reflexivity.
  - intros a [<-|[]]. vm_compute. discriminate.
Defined.

(** The instances of C8.  After four tasks completed out of five the
    stored rate is 80, and with 2 of 4 agents idle the score is 65; with 1
    of 3 agents idle after eleven tasks completed out of twelve it lies in
    the range. *)
Lemma calculateSystemHealth_in_doubles_witness :
  (successRate (performanceMetrics (teamAfter (teamAgents halfIdleTeam) 4 5)) == 80)%Q /\
  calculateSystemHealth_double (teamAfter (teamAgents halfIdleTeam) 4 5) = 65 /\
  0 <= calculateSystemHealth_double (teamAfter oneIdleOfThree 11 12) <= 100.
Proof.
  split; [vm_compute; reflexivity|]. split.
  - destruct (calculateSystemHealth_in_doubles (teamAfter (teamAgents halfIdleTeam) 4 5))
      as (share & availability & half & performance & sum
          & _ & _ & _ & _ & _ & _ & _ & Hexample).
    + discriminate.
    + exact (proj1 (successRate_double_bounds (pastTasks 4 5))).
    + apply Hexample; vm_compute; reflexivity.
  - destruct (calculateSystemHealth_in_doubles (teamAfter oneIdleOfThree 11 12))
      as (share & availability & half & performance & sum
          & _ & _ & _ & _ & _ & _ & Hrange & _).
    + discriminate.
    + exact (proj1 (successRate_double_bounds (pastTasks 11 12))).
    + exact Hrange.
Defined.

(** C8 fails as stated, the formula being read in exact arithmetic.  With
    1 of 3 agents idle and one task completed out of sixty, the metrics
    hold the rate the code has stored and the code returns 17; the formula
    at that rate lies strictly between 17.5 and 18.5, and at the exact
    quotient 100/60 it is 17.5, so that its rounding is 18.  With 1 of 3
    agents idle and eleven tasks completed out of twelve the code returns
    62, where the formula at the exact quotient is 62.5 and rounds to 63. *)
Lemma calculateSystemHealth_off_the_exact_formula :
  successRate (performanceMetrics (teamAfter oneIdleOfThree 1 60))
  = successRate_double (taskHistory (teamAfter oneIdleOfThree 1 60)) /\
  calculateSystemHealth_double (teamAfter oneIdleOfThree 1 60) = 17 /\
  (18 - (1 # 2) < healthFormula (teamAfter oneIdleOfThree 1 60) < 18 + (1 # 2))%Q /\
  (healthFormula (updatePerformanceMetrics (teamAfter oneIdleOfThree 1 60))
   == 17 + (1 # 2))%Q /\
  calculateSystemHealth (updatePerformanceMetrics (teamAfter oneIdleOfThree 1 60)) = 18 /\
  calculateSystemHealth_double (teamAfter oneIdleOfThree 11 12) = 62 /\
  (healthFormula (updatePerformanceMetrics (teamAfter oneIdleOfThree 11 12))
   == 62 + (1 # 2))%Q /\
  calculateSystemHealth (updatePerformanceMetrics (teamAfter oneIdleOfThree 11 12)) = 63.
Proof.
  split; [vm_compute; reflexivity|]. split; [vm_compute; reflexivity|].
  split; [split; vm_compute; reflexivity|].
  repeat (split; [vm_compute; reflexivity|]). vm_compute. reflexivity.
Qed.


(** The table of deadlines at the priority "urgent": 24 hours. *)
Lemma calculateDeadline_table_witness :
  calculateDeadline "urgent" 1000 = Time 86401000.
Proof. apply (calculateDeadline_table "urgent" 1000). reflexivity. Defined.

(** With the three agents idle, the finance analyst has the highest score
    for a budget of a market entry and is returned. *)
Lemma selectBestAgent_highest_score_witness :
  exists w,
    selectBestAgent (builtins := asciiBuiltins) team ["Budget"] "Budget of the market entry"
    = Normal (Some w) /\
    In w (availableAgents team).
Proof.
  destruct (selectBestAgent_highest_score (builtins := asciiBuiltins) team ["Budget"]
              "Budget of the market entry") as (w & Hselect & Hin & _).
  - cbn. discriminate.
  - repeat constructor.
  - exists w. split; assumption.
Defined.

(** With the market analyst busy on two tasks and the finance analyst on
    one, and nobody idle, the finance analyst is returned. *)
Lemma selectBestAgent_least_busy_witness :
  selectBestAgent (builtins := asciiBuiltins)
    (mkCEO (self newCEO)
       [ processTask_begin "task-2" "Trends" (AggregationContext []) 2
           (processTask_begin "task-1" "Market" (AggregationContext []) 1 marketAgent);
         processTask_begin "task-3" "Budget" (AggregationContext []) 3 financeAgent;
         processTask_begin "task-4" "Keywords" (AggregationContext []) 4 seoAgent ]
       ∅ [] (performanceMetrics newCEO))
    [] "Plan the quarter"
  = Normal (Some (processTask_begin "task-3" "Budget" (AggregationContext []) 3 financeAgent)).
Proof.
  apply (selectBestAgent_least_busy (builtins := asciiBuiltins) _ [] "Plan the quarter"
           [ processTask_begin "task-2" "Trends" (AggregationContext []) 2
               (processTask_begin "task-1" "Market" (AggregationContext []) 1 marketAgent) ]
           (processTask_begin "task-3" "Budget" (AggregationContext []) 3 financeAgent)
           [ processTask_begin "task-4" "Keywords" (AggregationContext []) 4 seoAgent ]).
  - reflexivity.
  - reflexivity.
  - intros a [<-|[]]. vm_compute. lia.
  - intros a [<-|[]]. vm_compute. lia.
Defined.

Lemma assignTask_returns_witness :
  exists r c',
    assignTask (builtins := asciiBuiltins) secondBegin secondResume team
      "Estimate the cost" "low" [] = Normal (r, c') /\
    sr_taskId r = Some "task-2".
Proof.
  apply (assignTask_returns (builtins := asciiBuiltins) secondBegin secondResume team).
  cbn. discriminate.
Defined.

Lemma assignTask_metrics_fresh_witness :
  exists r c',
    assignTask (builtins := asciiBuiltins) firstBegin firstResume team
      "Estimate the budget" "high" [] = Normal (r, c') /\
    metricsFresh c'.
Proof.
  apply (assignTask_metrics_fresh (builtins := asciiBuiltins) firstBegin firstResume team).
  - cbn. discriminate.
  - discriminate.
Defined.

Lemma aggregateResults_on_service_error_witness :
  ar_success
    (fst (aggregateResults (builtins := asciiBuiltins) (mkAggregationEnv "aggregation-9" 90000)
            (Rejected (ErrorObject (Some "overloaded"))) 95000 (coordinator taskReturned)
            ["task-1"] "summary"))
  = true /\
  ar_aggregated_result
    (fst (aggregateResults (builtins := asciiBuiltins) (mkAggregationEnv "aggregation-9" 90000)
            (Rejected (ErrorObject (Some "overloaded"))) 95000 (coordinator taskReturned)
            ["task-1"] "summary"))
  = None.
Proof.
  destruct (aggregateResults_on_service_error (builtins := asciiBuiltins) taskReturned
              (mkAggregationEnv "aggregation-9" 90000) 95000 ["task-1"] "summary"
              taskReturned_reachable) as [Herror _].
  - vm_compute. discriminate.
  - destruct (Herror (Some "overloaded")) as (Hsuccess & Htext & _).
    split; [exact Hsuccess | exact Htext].
Defined.

(** ** The properties of the surrounding code at concrete inputs *)

(** With the first task suspended, one task is active, one was assigned
    and none is completed. *)
Lemma teamStats_add_up_witness :
  st_active_tasks (teamStats (coordinator taskSuspended)) = 1%nat /\
  tasksAssigned (st_performance_metrics (teamStats (coordinator taskSuspended))) = 1 /\
  tasksCompleted (st_performance_metrics (teamStats (coordinator taskSuspended))) = 0.
Proof.
  destruct (teamStats_add_up (builtins := asciiBuiltins) taskSuspended
              taskSuspended_reachable) as (Hassigned & Hcompleted & Hactive & _).
  split; [rewrite Hactive; reflexivity|].
  split; [rewrite Hassigned | rewrite Hcompleted]; reflexivity.
Defined.

(** From the suspension of the first task to its return the registry keeps
    its names. *)
Lemma serving_keeps_agents_witness :
  List.map name (teamAgents (coordinator taskReturned))
  = List.map name (teamAgents (coordinator taskSuspended)).
Proof.
  apply (serving_keeps_agents (builtins := asciiBuiltins) taskSuspended taskReturned).
  apply (serves_step _ (SettleAssignTask 0 (Resolved "Budget estimate") 61000));
    [reflexivity | exact I |].
  apply (serves_step _ (ResumeAssignTask 0 61001)); [reflexivity | exact I |].
  apply serves_here.
Defined.

(** The second task of the run, whose completion is rejected with
    [undefined]: the task has failed and the agent stays busy. *)
Lemma assignTask_leaves_agent_witness :
  exists agent r c' agent' localTask task,
    selectBestAgent (builtins := asciiBuiltins) team [] "Estimate the cost"
    = Normal (Some agent) /\
    assignTask (builtins := asciiBuiltins) secondBegin secondResume team
      "Estimate the cost" "low" [] = Normal (r, c') /\
    getAgent (name agent) (teamAgents c') = Some agent' /\
    currentTasks agent' !! "task-2" = Some localTask /\
    taskHistory c' = (taskHistory team ++ [task])%list /\
    task_id task = "task-2" /\
    sr_success r = false /\ sr_error r = Some nullishMessageError /\
    sr_assignedAgent r = None /\
    task_status task = failed /\
    lt_status localTask = localFailed /\
    status agent' = busy.
Proof.
  apply (assignTask_leaves_agent (builtins := asciiBuiltins) secondBegin secondResume team
           "Estimate the cost" "low" []).
  - cbn. discriminate.
  - cbn. repeat constructor; cbn; intuition discriminate.
Defined.


(** The same request, then the status of its task: 200. *)
Lemma getStatusRoute_after_postTask_witness :
  res_status
    (getStatusRoute
       (snd (postTask (builtins := asciiBuiltins) (Some team) budgetBody firstBegin
               firstResume 62000))
       "task-1" 63000)
  = 200.
Proof.
  destruct (getStatusRoute_after_postTask (builtins := asciiBuiltins) team budgetBody
              "Estimate the budget" "medium" firstBegin firstResume 62000 63000)
    as [(task & Hstatus & _) _].
  - split; [reflexivity|]. split; [discriminate|]. split; [reflexivity|].
    right. left. reflexivity.
  - cbn. discriminate.
  - split; [reflexivity | intros []].
  - exact (f_equal res_status Hstatus).
Defined.

Lemma gatewayServing_serves : serves (builtins := asciiBuiltins) gatewaySystem gatewayServing.
Proof.
  apply (serves_step _ (AssignTask firstBegin "Estimate the budget" "high" ["Budget"]));
    [reflexivity | split; [vm_compute; reflexivity | vm_compute; intros []] |].
  apply (serves_step _ (AssignTask secondBegin "Estimate the cost" "low" []));
    [reflexivity | split; [vm_compute; reflexivity | vm_compute; intros []] |].
  apply (serves_step _ (SettleAssignTask 0 (Resolved "Budget estimate") 61000));
    [reflexivity | exact I |].
  apply (serves_step _ (ResumeAssignTask 0 61001)); [reflexivity | exact I |].
  unfold gatewayServing. apply serves_here.
Qed.

(** The gateway while it serves, one task returned and another awaiting
    its agent: the registry holds the seven names, and a third request, for
    a budget estimate, is answered from the result of [assignTask] with the
    id of the task. *)
Lemma gateway_serves_with_seven_agents_witness :
  List.map name (teamAgents (coordinator gatewayServing))
  = [ "lil_SEO_Specialist"; "lil_Brand_Manager"; "lil_Market_Analyst"; "lil_Finance_Analyst";
      "lil_Product_Manager"; "lil_Marketing_Manager"; "lil_Partnership_Manager" ] /\
  exists result c',
    postTask (builtins := asciiBuiltins) (Some (coordinator gatewayServing)) budgetBody
      thirdBegin thirdResume 96000
    = (postTask_respond (Normal result) 96000, Some c') /\
    sr_taskId result = Some "task-3".
Proof.
  destruct (gateway_serves_with_seven_agents (builtins := asciiBuiltins) gatewayServing
              gatewayServing_serves)
    as (_ & Hnames & _ & _ & _ & _ & Hpost).
  split; [exact Hnames|].
  destruct (Hpost budgetBody "Estimate the budget" "medium" thirdBegin thirdResume 96000)
    as (result & c' & _ & Hanswer & Hid).
  - split; [reflexivity|]. split; [discriminate|]. split; [reflexivity|].
    right. left. reflexivity.
  - exists result, c'. split; assumption.
Defined.

(** The aggregation of the first task of the run through the gateway. *)
Lemma postAggregate_answers_witness :
  res_status
    (fst (postAggregate (builtins := asciiBuiltins) (Some (coordinator taskReturned))
            (mkAggregateBody (Some ["task-1"]) None)
            (mkAggregationEnv "aggregation-9" 90000) (Resolved "Summary") 95000 96000))
  = 200.
Proof.
  pose proof (postAggregate_answers (builtins := asciiBuiltins) taskReturned
                (mkAggregateBody (Some ["task-1"]) None)
                (mkAggregationEnv "aggregation-9" 90000) (Resolved "Summary") 95000 96000
                taskReturned_reachable) as Hanswer.
  exact (f_equal res_status Hanswer).
Defined.

(** The dialogue of chat 7 with a new bot: the budget estimate, a text
    that mentions no command, with the button of the high priority. *)
Lemma dialogue_meets_validation_witness :
  callbackRequest 7 "priority_high"
    (onMessage 7 (Some "Estimate the budget") (initiateTaskSubmission 7 (mkBot ∅ [])))
  = Some (mkTaskBody (Some "Estimate the budget") (Some "high") (Some [])).
Proof.
  apply (dialogue_meets_validation (builtins := asciiBuiltins) (mkBot ∅ []) 7
           "Estimate the budget" "high" team firstBegin firstResume 62000).
  - discriminate.
  - reflexivity.
  - vm_compute. reflexivity.
  - left. reflexivity.
  - cbn. discriminate.
Defined.

(** With the finance analyst and the brand manager busy, an idle agent is
    returned for a budget. *)
Lemma selectBestAgent_prefers_idle_witness :
  exists agent,
    selectBestAgent (builtins := asciiBuiltins) halfIdleTeam ["Budget"] "Estimate the budget"
    = Normal (Some agent) /\
    In agent (teamAgents halfIdleTeam) /\ status agent = idle.
Proof.
  apply (selectBestAgent_prefers_idle (builtins := asciiBuiltins) halfIdleTeam ["Budget"]
           "Estimate the budget").
  cbn. discriminate.
Defined.

(** The completion of a first task sets the finance analyst idle while a
    second task of the same agent is still being processed. *)
Lemma processTask_resume_sets_idle_witness :
  status (snd (processTask_resume "task-1" (Resolved "Done") 9
                 (processTask_begin "task-2" "Cost" (AggregationContext []) 2
                    (processTask_begin "task-1" "Budget" (AggregationContext []) 1
                       financeAgent))))
  = idle.
Proof.
  apply (processTask_resume_sets_idle "task-1" (Resolved "Done") 9
           (processTask_begin "task-2" "Cost" (AggregationContext []) 2
              (processTask_begin "task-1" "Budget" (AggregationContext []) 1 financeAgent))).
  discriminate.
Defined.
